(** * Reserved-word segmenter and rule-layered asset classifiers

    A shallow embedding of the two classifiers of [src/highhit]:

    - [enhanced_classifier_v3_with_reserved_words.py]
      ([ReservedWordProcessor], [EnhancedClassifierV3]), module [V3];
    - [ultimate_classifier_with_reserved_words.py]
      ([UltimateClassifier]), module [Ultimate].

    Python strings are sequences of Unicode code points and are modelled
    as lists of code points.  Python floats are modelled as exact
    rationals.  The statistical word segmenter (jieba) and the TF-IDF /
    cosine-similarity library are collaborators: they are taken as
    functions, never unfolded. *)

From Stdlib Require Import String Ascii DecimalString.
From Stdlib Require Import List Bool Arith NArith ZArith QArith Qminmax.
From Stdlib Require Import Sorted Permutation Lia Lqa.
Import ListNotations.

Close Scope Q_scope.
Local Open Scope bool_scope.
Local Open Scope list_scope.

(* ================================================================== *)
(** ** Python strings *)
(* ================================================================== *)

Module PyStr.

(** A character is a Unicode code point; a [str] is a list of them. *)
Definition char := N.
Definition pystr := list char.

(** Decoding of the UTF-8 bytes of a literal into code points, so that
    the tables below can be written with the text of the source. *)
Fixpoint utf8_decode (bs : list N) : pystr :=
  match bs with
  | [] => []
  | b :: r =>
      if (b <? 128)%N then b :: utf8_decode r
      else if (b <? 224)%N then
        match r with
        | c1 :: r1 => ((b - 192) * 64 + (c1 - 128))%N :: utf8_decode r1
        | _ => []
        end
      else if (b <? 240)%N then
        match r with
        | c1 :: c2 :: r2 =>
            ((b - 224) * 4096 + (c1 - 128) * 64 + (c2 - 128))%N
              :: utf8_decode r2
        | _ => []
        end
      else
        match r with
        | c1 :: c2 :: c3 :: r3 =>
            ((b - 240) * 262144 + (c1 - 128) * 4096
             + (c2 - 128) * 64 + (c3 - 128))%N :: utf8_decode r3
        | _ => []
        end
  end.

Definition u (s : string) : pystr :=
  utf8_decode (List.map N_of_ascii (list_ascii_of_string s)).

(** The code point of a one-character literal. *)
Definition ch (s : string) : char := hd 0%N (u s).

Definition char_eqb (a b : char) : bool := N.eqb a b.

Fixpoint str_eqb (a b : pystr) : bool :=
  match a, b with
  | [], [] => true
  | x :: a', y :: b' => char_eqb x y && str_eqb a' b'
  | _, _ => false
  end.

(** [s.startswith(p)] *)
Fixpoint startswith (p s : pystr) : bool :=
  match p, s with
  | [], _ => true
  | x :: p', y :: s' => char_eqb x y && startswith p' s'
  | _ :: _, [] => false
  end.

(** [p in s]: [p] occurs in [s] as a contiguous substring. *)
Fixpoint contains (p s : pystr) : bool :=
  startswith p s ||
  match s with
  | [] => false
  | _ :: s' => contains p s'
  end.

(** [w in l] for a list of strings. *)
Definition mem (w : pystr) (l : list pystr) : bool :=
  existsb (str_eqb w) l.

(** Left-to-right replacement of non-overlapping matches.  [m s] is the
    length of the match that starts at the head of [s], if there is one
    (never 0: a match of length 0 is taken as no match); [skip] counts
    the characters of a match still to be dropped. *)
Fixpoint sub_scan (m : pystr -> option nat) (repl : pystr)
                  (skip : nat) (s : pystr) : pystr :=
  match s with
  | [] => []
  | c :: r =>
      match skip with
      | S k => sub_scan m repl k r
      | O =>
          match m s with
          | Some (S k) => repl ++ sub_scan m repl k r
          | _ => c :: sub_scan m repl O r
          end
      end
  end.

Definition sub_all (m : pystr -> option nat) (repl s : pystr) : pystr :=
  sub_scan m repl O s.

Definition match_literal (old s : pystr) : option nat :=
  if startswith old s then Some (length old) else None.

(** [s.replace(old, new)].  With an empty [old] Python inserts [new]
    before every character and at the end. *)
Definition replace (s old new : pystr) : pystr :=
  match old with
  | [] => new ++ flat_map (fun c => c :: new) s
  | _ :: _ => sub_all (match_literal old) new s
  end.

(** [str.isspace] for one character, which is also [\s] of [re] on
    [str] patterns. *)
Definition isspace (c : char) : bool :=
  ((9 <=? c) && (c <=? 13) || (28 <=? c) && (c <=? 32)
   || (c =? 133) || (c =? 160) || (c =? 5760)
   || (8192 <=? c) && (c <=? 8202)
   || (c =? 8232) || (c =? 8233) || (c =? 8239) || (c =? 8287)
   || (c =? 12288))%N.

Fixpoint lstrip (s : pystr) : pystr :=
  match s with
  | [] => []
  | c :: r => if isspace c then lstrip r else s
  end.

Definition rstrip (s : pystr) : pystr := rev (lstrip (rev s)).

(** [s.strip()] *)
Definition strip (s : pystr) : pystr := rstrip (lstrip s).

(** [str.lower] on one character.  Only the letters A to Z are mapped:
    the tables and the inputs of the program are Chinese and ASCII
    text; cased letters of other scripts are left as they are. *)
Definition lower_char (c : char) : char :=
  if ((65 <=? c) && (c <=? 90))%N then (c + 32)%N else c.

Definition lower (s : pystr) : pystr := List.map lower_char s.

(** [sep.join(l)] *)
Fixpoint join (sep : pystr) (l : list pystr) : pystr :=
  match l with
  | [] => []
  | [x] => x
  | x :: r => x ++ sep ++ join sep r
  end.

(** [str(n)] for a non-negative integer. *)
Definition str_of_nat (n : nat) : pystr :=
  u (NilEmpty.string_of_uint (Nat.to_uint n)).

(** Truth value of a string: non-empty. *)
Definition nonempty (s : pystr) : bool :=
  match s with [] => false | _ :: _ => true end.

(** [sorted(l, key=len, reverse=True)]: stable, so phrases of equal
    length keep their relative order. *)
Fixpoint insert_by_len (x : pystr) (l : list pystr) : list pystr :=
  match l with
  | [] => [x]
  | y :: r =>
      if (length x <? length y)%nat then y :: insert_by_len x r
      else x :: l
  end.

Definition sorted_by_len_desc (l : list pystr) : list pystr :=
  fold_right insert_by_len [] l.

(** A dict as the list of its items in insertion order.  [d[k] = v]
    keeps the position of a key that is already present. *)
Definition dict (V : Type) := list (pystr * V).

Fixpoint dict_get {V} (d : dict V) (k : pystr) : option V :=
  match d with
  | [] => None
  | (k', v) :: r => if str_eqb k k' then Some v else dict_get r k
  end.

Fixpoint dict_set {V} (d : dict V) (k : pystr) (v : V) : dict V :=
  match d with
  | [] => [(k, v)]
  | (k', v') :: r =>
      if str_eqb k k' then (k', v) :: r else (k', v') :: dict_set r k v
  end.

(** A dict display [{k1: v1, k2: v2, ...}]. *)
Definition dict_of {V} (items : list (pystr * V)) : dict V :=
  fold_left (fun d kv => dict_set d (fst kv) (snd kv)) items [].

Definition keys {V} (d : dict V) : list pystr := List.map fst d.

(** [x in d] *)
Definition has_key {V} (d : dict V) (k : pystr) : bool :=
  match dict_get d k with Some _ => true | None => false end.

(** [list.get(key, [])] on an optional entry. *)
Definition get_or_nil {A} (o : option (list A)) : list A :=
  match o with Some l => l | None => [] end.

End PyStr.

Import PyStr.

(* ================================================================== *)
(** ** Regular expressions of the rule tables *)
(* ================================================================== *)

(** The category patterns are written in a small part of the syntax of
    Python's [re]: literal characters, [.], a postfix [*], groups,
    alternation and [$].  [parse] reads that syntax and [search] decides
    [re.search(pattern, text, re.IGNORECASE)].  Case is folded on the
    letters A to Z only. *)
Module Re.

Definition newline : char := 10%N.

Inductive re : Type :=
| Chr (c : char)
| Dot
| Eol
| Eps
| Cat (a b : re)
| Alt (a b : re)
| Star (a : re).

(** Characters with a special meaning in a pattern:
    [. ^ $ * + ? { } [ ] \ | ( )]. *)
Definition is_meta (c : char) : bool :=
  existsb (char_eqb c) (u ".^$*+?{}[]\|()").

Fixpoint parse_alt (fuel : nat) (s : pystr) : option (re * pystr) :=
  match fuel with
  | O => None
  | S f =>
      match parse_seq f s with
      | Some (a, c :: r) =>
          if char_eqb c (ch "|") then
            match parse_alt f r with
            | Some (b, r') => Some (Alt a b, r')
            | None => None
            end
          else Some (a, c :: r)
      | other => other
      end
  end
with parse_seq (fuel : nat) (s : pystr) : option (re * pystr) :=
  match fuel with
  | O => None
  | S f =>
      match s with
      | [] => Some (Eps, [])
      | c :: _ =>
          if char_eqb c (ch "|") || char_eqb c (ch ")") then Some (Eps, s)
          else
            match parse_atom f s with
            | Some (a, r1) =>
                let '(a', r2) :=
                  match r1 with
                  | c1 :: r2 =>
                      if char_eqb c1 (ch "*") then (Star a, r2)
                      else (a, r1)
                  | [] => (a, r1)
                  end in
                match parse_seq f r2 with
                | Some (b, r3) => Some (Cat a' b, r3)
                | None => None
                end
            | None => None
            end
      end
  end
with parse_atom (fuel : nat) (s : pystr) : option (re * pystr) :=
  match fuel with
  | O => None
  | S f =>
      match s with
      | [] => None
      | c :: r =>
          if char_eqb c (ch ".") then Some (Dot, r)
          else if char_eqb c (ch "$") then Some (Eol, r)
          else if char_eqb c (ch "(") then
            match parse_alt f r with
            | Some (a, c' :: r') =>
                if char_eqb c' (ch ")") then Some (a, r') else None
            | _ => None
            end
          else if is_meta c then None
          else Some (Chr c, r)
      end
  end.

(** [re.compile(pattern)]; [None] for a pattern outside the syntax
    above. *)
Definition parse (pattern : pystr) : option re :=
  match parse_alt (4 * length pattern + 4) pattern with
  | Some (r, []) => Some r
  | _ => None
  end.

Definition chr_matches (ignorecase : bool) (c d : char) : bool :=
  if ignorecase then char_eqb (lower_char c) (lower_char d)
  else char_eqb c d.

(** [matches r s k]: some prefix of [s] matches [r] and the rest of
    [s] satisfies [k].  [$] holds at the end of the text and before a
    newline that ends it; [.] is any character but a newline. *)
Fixpoint matches (ic : bool) (r : re) (s : pystr) (k : pystr -> bool)
  : bool :=
  match r with
  | Chr c =>
      match s with
      | d :: s' => chr_matches ic c d && k s'
      | [] => false
      end
  | Dot =>
      match s with
      | d :: s' => negb (char_eqb d newline) && k s'
      | [] => false
      end
  | Eol =>
      match s with
      | [] => k s
      | [d] => char_eqb d newline && k s
      | _ => false
      end
  | Eps => k s
  | Cat a b => matches ic a s (fun s' => matches ic b s' k)
  | Alt a b => matches ic a s k || matches ic b s k
  | Star a =>
      (fix star (n : nat) (s : pystr) {struct n} : bool :=
         k s ||
         match n with
         | O => false
         | S n' =>
             matches ic a s
               (fun s' => (length s' <? length s)%nat && star n' s')
         end) (length s) s
  end.

Fixpoint search_re (ic : bool) (r : re) (s : pystr) : bool :=
  matches ic r s (fun _ => true) ||
  match s with
  | [] => false
  | _ :: s' => search_re ic r s'
  end.

(** [re.search(pattern, text, re.IGNORECASE)] as a truth value. *)
Definition search (pattern text : pystr) : bool :=
  match parse pattern with
  | Some r => search_re true r text
  | None => false
  end.

End Re.

(* ================================================================== *)
(** ** Builtins on numbers and sequences, collaborators, state *)
(* ================================================================== *)

(** A call either returns a value or raises. *)
Inductive outcome (A : Type) : Type :=
| Returns (a : A)
| Raises.
Arguments Returns {A} a.
Arguments Raises {A}.

(** [a < b] on scores. *)
Definition Qltb (a b : Q) : bool := negb (Qle_bool b a).

(** [max(l, key=key)]: the first element whose key is maximal;
    [ValueError] on an empty sequence. *)
Definition max_by {A} (key : A -> Q) (l : list A) : outcome A :=
  match l with
  | [] => Raises
  | x :: r =>
      Returns (fold_left
                 (fun best y => if Qltb (key best) (key y) then y else best)
                 r x)
  end.

(** [sorted(l, key=key, reverse=True)], stable. *)
Fixpoint insert_desc {A} (key : A -> Q) (x : A) (l : list A) : list A :=
  match l with
  | [] => [x]
  | y :: r =>
      if Qltb (key x) (key y) then y :: insert_desc key x r else x :: l
  end.

Definition sorted_desc {A} (key : A -> Q) (l : list A) : list A :=
  fold_right (insert_desc key) [] l.

(** [Series.unique()]: the distinct values in order of first
    appearance. *)
Fixpoint unique_from (seen l : list pystr) : list pystr :=
  match l with
  | [] => []
  | x :: r =>
      if mem x seen then unique_from seen r
      else x :: unique_from (x :: seen) r
  end.

Definition unique (l : list pystr) : list pystr := unique_from [] l.

(** [any(test(x) for x in entry)] when the key of [entry] is present. *)
Definition any_of {A} (entry : option (list A)) (test : A -> bool) : bool :=
  match entry with
  | Some l => existsb test l
  | None => false
  end.

Definition Qlen {A} (l : list A) : Q := inject_Z (Z.of_nat (length l)).

(** The libraries the classifiers call.  [re_digit] is the class [\d]
    of [re], [jieba_cut] is [jieba.cut], [pseg_cut] is
    [jieba.posseg.cut], [cosine_similarity] is scikit-learn's, taken at
    entry [0, 0] and converted with [float]; [None] stands for a raised
    exception.  A value of this type is what the libraries do in one
    state of the process: jieba reads a dictionary that the
    constructors write, which [libraries] and [process] below model. *)
Record collaborators : Type := {
  re_digit : char -> bool;
  jieba_cut : pystr -> list pystr;
  pseg_cut : pystr -> list (pystr * pystr);
  cosine_similarity : list Q -> list Q -> option Q
}.

(** A fitted [TfidfVectorizer], seen through [transform] on one text;
    [None] stands for a raised exception. *)
Definition tfidf := pystr -> option (list Q).

(** Methods run in a state monad over the instance they belong to. *)
Definition State (S A : Type) : Type := S -> A * S.

Definition ret {S A} (a : A) : State S A := fun s => (a, s).

Definition bind {S A B} (m : State S A) (k : A -> State S B) : State S B :=
  fun s => let (a, s') := m s in k a s'.

Definition get {S} : State S S := fun s => (s, s).

Definition run {S A} (m : State S A) (s : S) : A := fst (m s).

Notation "x <- c ;; k" := (bind c (fun x => k))
  (at level 100, c at next level, right associativity).

(* ================================================================== *)
(** ** enhanced_classifier_v3_with_reserved_words.py *)
(* ================================================================== *)

Module V3.

(** *** ReservedWordProcessor *)

(** [self.reserved_words] of [ReservedWordProcessor.__init__]. *)
Definition reserved_words : dict (list pystr) := dict_of
  [
    (u "防火牆", [u "防火牆"]);
    (u "資料庫", [u "資料庫"]);
    (u "作業系統", [u "作業系統"]);
    (u "管理系統", [u "管理系統"]);
    (u "儲存媒體", [u "儲存媒體"]);
    (u "應用程式", [u "應用程式"]);
    (u "網路設備", [u "網路設備"]);
    (u "伺服器", [u "伺服器"]);
    (u "虛擬機", [u "虛擬機"]);
    (u "容器化", [u "容器化"]);
    (u "資料庫管理系統", [u "資料庫管理系統"; u "資料庫"; u "管理系統"]);
    (u "網路防火牆", [u "網路防火牆"; u "網路"; u "防火牆"]);
    (u "可攜式儲存媒體", [u "可攜式儲存媒體"; u "可攜式"; u "儲存媒體"]);
    (u "備份管理系統", [u "備份管理系統"; u "備份"; u "管理系統"]);
    (u "監控管理系統", [u "監控管理系統"; u "監控"; u "管理系統"]);
    (u "內部人員", [u "內部人員"; u "內部"; u "人員"]);
    (u "外部人員", [u "外部人員"; u "外部"; u "人員"]);
    (u "承辦人", [u "承辦人"]);
    (u "管理員", [u "管理員"]);
    (u "使用者", [u "使用者"]);
    (u "作業文件", [u "作業文件"; u "作業"; u "文件"]);
    (u "電子紀錄", [u "電子紀錄"; u "電子"; u "紀錄"]);
    (u "程序文件", [u "程序文件"; u "程序"; u "文件"]);
    (u "技術文件", [u "技術文件"; u "技術"; u "文件"]);
    (u "操作手冊", [u "操作手冊"; u "操作"; u "手冊"]);
    (u "網路服務", [u "網路服務"; u "網路"; u "服務"]);
    (u "應用服務", [u "應用服務"; u "應用"; u "服務"]);
    (u "資料服務", [u "資料服務"; u "資料"; u "服務"]);
    (u "雲端服務", [u "雲端服務"; u "雲端"; u "服務"]);
    (u "防火牆設備", [u "防火牆設備"; u "防火牆"; u "設備"]);
    (u "網路設備", [u "網路設備"; u "網路"; u "設備"]);
    (u "儲存設備", [u "儲存設備"; u "儲存"; u "設備"]);
    (u "安全設備", [u "安全設備"; u "安全"; u "設備"]);
    (u "監控設備", [u "監控設備"; u "監控"; u "設備"]);
    (u "MySQL", [u "MySQL"]);
    (u "Oracle", [u "Oracle"]);
    (u "SQL Server", [u "SQL Server"; u "SQL"; u "Server"]);
    (u "Windows", [u "Windows"]);
    (u "Linux", [u "Linux"]);
    (u "Microsoft", [u "Microsoft"]);
    (u "VMware", [u "VMware"]);
    (u "Docker", [u "Docker"]);
    (u "辦公室", [u "辦公室"]);
    (u "會議室", [u "會議室"]);
    (u "機房", [u "機房"]);
    (u "資料中心", [u "資料中心"; u "資料"; u "中心"]);
    (u "API", [u "API"]);
    (u "SOP", [u "SOP"]);
    (u "ERP", [u "ERP"]);
    (u "CRM", [u "CRM"])
  ].

Record extraction : Type := {
  found_reserved : list pystr;
  remaining_text : pystr;
  original_text : pystr
}.

(** [f' [RESERVED_{n}] '] *)
Definition placeholder (n : nat) : pystr :=
  u " [RESERVED_" ++ str_of_nat n ++ u "] ".

(** The loop of [extract_reserved_words] over the sorted phrases. *)
Fixpoint extract_loop (text : pystr) (sorted_reserved : list pystr)
                      (found : list pystr) (remaining : pystr)
  : list pystr * pystr :=
  match sorted_reserved with
  | [] => (found, remaining)
  | reserved_phrase :: rest =>
      if contains reserved_phrase text then
        let found' := found ++ [reserved_phrase] in
        extract_loop text rest found'
          (replace remaining reserved_phrase (placeholder (length found')))
      else extract_loop text rest found remaining
  end.

Definition extract_reserved_words (lexicon : dict (list pystr))
                                  (text : pystr) : extraction :=
  let sorted_reserved := sorted_by_len_desc (keys lexicon) in
  let '(found, remaining) := extract_loop text sorted_reserved [] text in
  {| found_reserved := found;
     remaining_text := strip remaining;
     original_text := text |}.

(** Length of the longest match of [\d+\]] at the head of [s]. *)
Fixpoint digits_then_close (isd : char -> bool) (s : pystr) : option nat :=
  match s with
  | [] => None
  | c :: r =>
      if isd c then
        match digits_then_close isd r with
        | Some k => Some (S k)
        | None =>
            match r with
            | d :: _ => if char_eqb d (ch "]") then Some 2 else None
            | [] => None
            end
        end
      else None
  end.

(** Length of the match of [\[RESERVED_\d+\]] at the head of [s]. *)
Definition match_placeholder (isd : char -> bool) (s : pystr) : option nat :=
  let opening := u "[RESERVED_" in
  if startswith opening s then
    match digits_then_close isd (skipn (length opening) s) with
    | Some k => Some (length opening + k)
    | None => None
    end
  else None.

Record processed : Type := {
  pr_reserved_words : list pystr;
  pr_regular_words : list pystr;
  pr_all_tokens : list pystr;
  pr_original_text : pystr
}.

Definition process_with_reserved_words (env : collaborators)
    (lexicon : dict (list pystr)) (text : pystr) : processed :=
  let reserved_result := extract_reserved_words lexicon text in
  let remaining_words :=
    if nonempty (remaining_text reserved_result) then
      let clean_remaining :=
        sub_all (match_placeholder (re_digit env)) []
                (remaining_text reserved_result) in
      if nonempty (strip clean_remaining) then
        filter (fun w => (0 <? length (strip w))%nat)
               (jieba_cut env (strip clean_remaining))
      else []
    else [] in
  let all_tokens := found_reserved reserved_result ++ remaining_words in
  {| pr_reserved_words := found_reserved reserved_result;
     pr_regular_words := remaining_words;
     pr_all_tokens := all_tokens;
     pr_original_text := text |}.

(** *** EnhancedClassifierV3 *)

Record keyword_tiers : Type := {
  strong : list pystr;
  medium : list pystr;
  weak : list pystr
}.

(** The rules of one category; a key that the category does not have
    is [None]. *)
Record rules : Type := {
  include_reserved_words : option (list pystr);
  exclude_reserved_words : option (list pystr);
  include_if_reserved_and_contains : option (list (pystr * pystr));
  exclude_if_reserved_and_contains : option (list (pystr * pystr));
  exclude_if_contains : option (list pystr);
  include_if_contains : option (list pystr)
}.

(** The instance: the training rows (asset name, category), the
    lexicon of its processor, the rule tables, and what
    [build_enhanced_features] leaves in [vectorizer] and
    [category_vectors]. *)
Record classifier : Type := {
  data : list (pystr * pystr);
  reserved_processor : dict (list pystr);
  category_keywords : dict keyword_tiers;
  category_patterns : dict (list pystr);
  exclusion_rules : dict rules;
  vectorizer : option tfidf;
  category_vectors : dict (list Q)
}.

Record text_variants : Type := {
  tv_original : pystr;
  tv_cleaned : pystr;
  tv_no_brackets : pystr;
  tv_bracket_content : pystr;
  tv_lower_case : pystr;
  tv_no_spaces : pystr;
  tv_reserved_words : list pystr;
  tv_regular_words : list pystr;
  tv_all_tokens : list pystr;
  tv_traditional_words : list pystr;
  tv_traditional_words_filtered : list pystr;
  tv_pos_tags : list (pystr * pystr)
}.

(** Length of the match of [\s+] at the head of [s]. *)
Fixpoint space_run (s : pystr) : nat :=
  match s with
  | c :: r => if isspace c then S (space_run r) else O
  | [] => O
  end.

Definition match_spaces (s : pystr) : option nat :=
  match space_run s with
  | O => None
  | n => Some n
  end.

(** Index of the first [)] of [s]. *)
Fixpoint index_close (s : pystr) : option nat :=
  match s with
  | [] => None
  | c :: r =>
      if char_eqb c (ch ")") then Some O
      else match index_close r with
           | Some i => Some (S i)
           | None => None
           end
  end.

(** Length of the match, at the head of [s], of the pattern for a
    bracketed part: an opening parenthesis, any characters other than
    a closing parenthesis, a closing parenthesis. *)
Definition match_bracket (s : pystr) : option nat :=
  match s with
  | c :: r =>
      if char_eqb c (ch "(") then
        match index_close r with
        | Some i => Some (i + 2)%nat
        | None => None
        end
      else None
  | [] => None
  end.

(** Group 1 of the leftmost match of the same pattern (with the
    group around its middle part), as [re.search] finds it. *)
Fixpoint search_bracket (s : pystr) : option pystr :=
  match match_bracket s with
  | Some n => Some (firstn (n - 2) (tl s))
  | None =>
      match s with
      | [] => None
      | _ :: r => search_bracket r
      end
  end.

Definition stop_words : list pystr :=
  [u "的"; u "與"; u "及"; u "和"; u "或"].

Definition preprocess_text (env : collaborators)
    (lexicon : dict (list pystr)) (text : pystr) : text_variants :=
  let original := strip text in
  let cleaned := sub_all match_spaces (u " ") (strip text) in
  let reserved_result := process_with_reserved_words env lexicon cleaned in
  let no_brackets := strip (sub_all match_bracket [] cleaned) in
  let bracket_content :=
    match search_bracket cleaned with
    | Some g => strip g
    | None => []
    end in
  let lower_case := lower cleaned in
  let no_spaces := sub_all match_spaces [] cleaned in
  let traditional_words := jieba_cut env cleaned in
  let traditional_words_filtered :=
    filter (fun w => (1 <? length (strip w))%nat
                     && negb (mem (strip w) stop_words))
           traditional_words in
  let pos_tags := pseg_cut env cleaned in
  {| tv_original := original;
     tv_cleaned := cleaned;
     tv_no_brackets := no_brackets;
     tv_bracket_content := bracket_content;
     tv_lower_case := lower_case;
     tv_no_spaces := no_spaces;
     tv_reserved_words := pr_reserved_words reserved_result;
     tv_regular_words := pr_regular_words reserved_result;
     tv_all_tokens := pr_all_tokens reserved_result;
     tv_traditional_words := traditional_words;
     tv_traditional_words_filtered := traditional_words_filtered;
     tv_pos_tags := pos_tags |}.

(** [self.category_keywords], [self.exclusion_rules] and
    [self.category_patterns] of [create_category_rules]. *)
Definition create_category_keywords : dict keyword_tiers := dict_of
  [
    (u "軟體",
     {| strong := [u "系統"; u "軟體"; u "應用程式"; u "資料庫"; u "程式"; u "語言"; u "平台"; u "框架"; u "資料庫管理系統"; u "MySQL"; u "Oracle"; u "SQL Server"; u "Windows"; u "Linux"];
        medium := [u "server"; u "sql"; u "unix"; u "java"; u "python"; u ".net"; u "asp"; u "API"; u "ERP"; u "CRM"];
        weak := [u "管理"; u "開發"; u "服務器"; u "應用"] |});
    (u "硬體",
     {| strong := [u "硬體"; u "設備"; u "伺服器"; u "主機"; u "電腦"; u "網路設備"; u "儲存設備"; u "防火牆設備"; u "監控設備"; u "安全設備"];
        medium := [u "server"; u "交換器"; u "路由器"; u "防火牆"; u "印表機"; u "儲存"];
        weak := [u "機器"; u "設施"; u "終端"; u "裝置"] |});
    (u "實體",
     {| strong := [u "實體"; u "環境"; u "設施"; u "場所"; u "空間"; u "機房"; u "辦公室"; u "會議室"; u "資料中心"];
        medium := [u "建築"; u "場地"; u "位置"; u "區域"; u "可攜式儲存媒體"];
        weak := [u "地點"; u "處所"; u "媒體"] |});
    (u "資料",
     {| strong := [u "資料"; u "文件"; u "檔案"; u "紀錄"; u "合約"; u "文檔"; u "作業文件"; u "電子紀錄"; u "程序文件"; u "技術文件"; u "操作手冊"];
        medium := [u "作業"; u "程序"; u "SOP"; u "備份"; u "日誌"; u "原始碼"; u "手冊"];
        weak := [u "紀錄"; u "資訊"; u "內容"; u "報告"] |});
    (u "人員",
     {| strong := [u "人員"; u "員工"; u "職員"; u "使用者"; u "用戶"; u "管理員"; u "內部人員"; u "外部人員"; u "承辦人"];
        medium := [u "內部"; u "外部"; u "客戶"; u "廠商"; u "委外"];
        weak := [u "人"; u "者"; u "工作人員"] |});
    (u "服務",
     {| strong := [u "服務"; u "應用服務"; u "系統服務"; u "網路服務"; u "雲端服務"; u "資料服務"];
        medium := [u "api"; u "web"; u "網站"; u "入口網站"; u "應用"];
        weak := [u "功能"; u "支援"; u "平台"] |})
  ].

Definition create_exclusion_rules : dict rules := dict_of
  [
    (u "人員",
     {| include_reserved_words := None;
        exclude_reserved_words := Some [u "作業文件"; u "電子紀錄"; u "程序文件"; u "技術文件"];
        include_if_reserved_and_contains := None;
        exclude_if_reserved_and_contains := None;
        exclude_if_contains := Some [u "文件"; u "檔案"; u "資料"; u "程序"; u "系統"; u "設備"; u "服務"; u "資料庫"];
        include_if_contains := None |});
    (u "資料",
     {| include_reserved_words := Some [u "作業文件"; u "電子紀錄"; u "程序文件"; u "技術文件"; u "操作手冊"];
        exclude_reserved_words := None;
        include_if_reserved_and_contains := None;
        exclude_if_reserved_and_contains := None;
        exclude_if_contains := None;
        include_if_contains := Some [u "文件"; u "檔案"; u "紀錄"; u "合約"; u "作業"; u "SOP"] |});
    (u "軟體",
     {| include_reserved_words := Some [u "資料庫管理系統"; u "MySQL"; u "Oracle"; u "SQL Server"; u "Windows"; u "Linux"];
        exclude_reserved_words := None;
        include_if_reserved_and_contains := None;
        exclude_if_reserved_and_contains := Some [(u "防火牆", u "設備")];
        exclude_if_contains := None;
        include_if_contains := None |});
    (u "硬體",
     {| include_reserved_words := Some [u "防火牆設備"; u "網路設備"; u "儲存設備"; u "監控設備"; u "安全設備"];
        exclude_reserved_words := None;
        include_if_reserved_and_contains := Some [(u "防火牆", u "設備")];
        exclude_if_reserved_and_contains := None;
        exclude_if_contains := None;
        include_if_contains := None |})
  ].

Definition create_category_patterns : dict (list pystr) := dict_of
  [
    (u "軟體",
     [u ".*系統$";
      u ".*軟體$";
      u ".*程式.*";
      u ".*資料庫.*";
      u ".*(windows|linux|unix|sql|mysql|oracle).*";
      u "資料庫管理系統";
      u "管理系統"]);
    (u "硬體",
     [u ".*設備$";
      u ".*主機$";
      u ".*伺服器.*";
      u ".*電腦.*";
      u ".*(server|交換器|路由器).*";
      u "防火牆設備";
      u "網路設備"]);
    (u "資料",
     [u ".*文件.*";
      u ".*檔案.*";
      u ".*紀錄.*";
      u ".*合約.*";
      u ".*(sop|備份|日誌|原始碼).*";
      u "作業文件";
      u "電子紀錄"]);
    (u "人員",
     [u ".*人員$";
      u ".*員工.*";
      u ".*使用者.*";
      u ".*管理員.*";
      u "內部人員";
      u "外部人員";
      u "承辦人"]);
    (u "服務",
     [u ".*服務.*";
      u ".*應用.*";
      u ".*(api|web|網站).*";
      u "網路服務";
      u "雲端服務";
      u "應用服務"])
  ].

(** [EnhancedClassifierV3.__init__] on the loaded rows; the fitted
    vectorizer and the category vectors of [build_enhanced_features]
    are given. *)
Definition init (rows : list (pystr * pystr)) (fitted : option tfidf)
                (vectors : dict (list Q)) : classifier :=
  {| data := rows;
     reserved_processor := reserved_words;
     category_keywords := create_category_keywords;
     category_patterns := create_category_patterns;
     exclusion_rules := create_exclusion_rules;
     vectorizer := fitted;
     category_vectors := vectors |}.

(** [any(keyword in reserved_word or reserved_word in keyword ...)] *)
Definition found_in (keywords : list pystr) (reserved_word : pystr) : bool :=
  existsb (fun keyword => contains keyword reserved_word
                          || contains reserved_word keyword) keywords.

(** One turn of the loop of [calculate_reserved_word_score] on the
    pair (score, total_matches). *)
Definition reserved_step (keywords : keyword_tiers) (acc : Q * nat)
                         (reserved_word : pystr) : Q * nat :=
  let '(score, total_matches) := acc in
  if found_in (strong keywords) reserved_word then
    ((score + 4)%Q, S total_matches)
  else if found_in (medium keywords) reserved_word then
    ((score + 3)%Q, S total_matches)
  else if found_in (weak keywords) reserved_word then
    ((score + 2)%Q, S total_matches)
  else (score, total_matches).

Definition calculate_reserved_word_score (self : classifier)
    (tv : text_variants) (category : pystr) : Q :=
  match dict_get (category_keywords self) category with
  | None => 0%Q
  | Some keywords =>
      match tv_reserved_words tv with
      | [] => 0%Q
      | reserved_words =>
          let '(score, total_matches) :=
            fold_left (reserved_step keywords) reserved_words
                      (0%Q, O) in
          if (0 <? total_matches)%nat
          then Qmin (score / Qlen reserved_words)%Q 1%Q
          else 0%Q
      end
  end.

(** [for keyword in keywords: if keyword.lower() in all_text:
    score += weight] *)
Definition add_hits (weight : Q) (keywords : list pystr)
                    (all_text : pystr) (score : Q) : Q :=
  fold_left (fun score keyword =>
               if contains (lower keyword) all_text
               then (score + weight)%Q else score)
            keywords score.

Definition calculate_keyword_score (self : classifier)
    (tv : text_variants) (category : pystr) : Q :=
  match dict_get (category_keywords self) category with
  | None => 0%Q
  | Some keywords =>
      let all_text :=
        lower (join (u " ")
                 [tv_cleaned tv; tv_no_brackets tv; tv_bracket_content tv;
                  join (u " ") (tv_all_tokens tv);
                  join (u " ") (tv_reserved_words tv)]) in
      let score :=
        add_hits 1 (weak keywords) all_text
          (add_hits 2 (medium keywords) all_text
             (add_hits 3 (strong keywords) all_text 0%Q)) in
      let max_possible_score :=
        (Qlen (strong keywords) * 3 + Qlen (medium keywords) * 2
         + Qlen (weak keywords) * 1)%Q in
      if Qltb 0 max_possible_score
      then (score / max_possible_score)%Q else 0%Q
  end.

Definition calculate_pattern_score (self : classifier)
    (tv : text_variants) (category : pystr) : Q :=
  match dict_get (category_patterns self) category with
  | None => 0%Q
  | Some patterns =>
      let test_texts :=
        [tv_cleaned tv; tv_no_brackets tv; tv_bracket_content tv;
         tv_lower_case tv;
         join (u " ") (tv_reserved_words tv);
         join (u " ") (tv_all_tokens tv)] in
      let match_count :=
        length (filter (fun pattern =>
                          existsb (fun text => nonempty text
                                               && Re.search pattern text)
                                  test_texts)
                       patterns) in
      match patterns with
      | [] => 0%Q
      | _ => (inject_Z (Z.of_nat match_count) / Qlen patterns)%Q
      end
  end.

(** [combined_text] of [calculate_similarity_score]: the text that is
    vectorized. *)
Definition combined_text (tv : text_variants) : pystr :=
  strip (join (u " ")
           [tv_cleaned tv; tv_no_brackets tv; tv_bracket_content tv;
            join (u " ") (tv_all_tokens tv)]).

Definition calculate_similarity_score (env : collaborators)
    (self : classifier) (tv : text_variants) (category : pystr) : Q :=
  match vectorizer self, dict_get (category_vectors self) category with
  | Some transform, Some category_vector =>
      if nonempty (combined_text tv) then
        match transform (combined_text tv) with
        | Some input_vector =>
            match cosine_similarity env input_vector category_vector with
            | Some similarity => similarity
            | None => 0%Q
            end
        | None => 0%Q
        end
      else 0%Q
  | _, _ => 0%Q
  end.

(** The body of [apply_exclusion_rules] on the rules of the category. *)
Definition apply_rules (r : rules) (tv : text_variants) (base_score : Q)
  : Q :=
  let reserved_words := tv_reserved_words tv in
  let combined_text :=
    lower (join (u " ")
             [tv_cleaned tv; tv_no_brackets tv; tv_bracket_content tv]) in
  if any_of (include_reserved_words r)
       (fun include_word => mem include_word reserved_words)
  then (base_score * 2)%Q
  else if any_of (exclude_reserved_words r)
       (fun exclude_word => mem exclude_word reserved_words)
  then (base_score * (2 # 10))%Q
  else if any_of (include_if_reserved_and_contains r)
       (fun rc => mem (fst rc) reserved_words
                  && contains (snd rc) combined_text)
  then (base_score * 2)%Q
  else if any_of (exclude_if_reserved_and_contains r)
       (fun rc => mem (fst rc) reserved_words
                  && contains (snd rc) combined_text)
  then (base_score * (2 # 10))%Q
  else if any_of (exclude_if_contains r)
       (fun exclude_word => contains exclude_word combined_text)
  then (base_score * (3 # 10))%Q
  else if any_of (include_if_contains r)
       (fun include_word => contains include_word combined_text)
  then (base_score * (15 # 10))%Q
  else base_score.

Definition apply_exclusion_rules (self : classifier) (tv : text_variants)
    (category : pystr) (base_score : Q) : Q :=
  match dict_get (exclusion_rules self) category with
  | None => base_score
  | Some r => apply_rules r tv base_score
  end.

Record scores : Type := {
  total_score : Q;
  reserved_score : Q;
  keyword_score : Q;
  pattern_score : Q;
  similarity_score : Q
}.

(** The weighted sum of [classify_text]. *)
Definition combine (reserved keyword pattern similarity : Q) : Q :=
  (reserved * (4 # 10) + keyword * (25 # 100)
   + pattern * (2 # 10) + similarity * (15 # 100))%Q.

(** One turn of the loop of [classify_text] over the categories. *)
Definition score_category (env : collaborators) (self : classifier)
    (tv : text_variants) (category : pystr) : scores :=
  let reserved := calculate_reserved_word_score self tv category in
  let keyword := calculate_keyword_score self tv category in
  let pattern := calculate_pattern_score self tv category in
  let similarity := calculate_similarity_score env self tv category in
  let combined_score := combine reserved keyword pattern similarity in
  let final_score := apply_exclusion_rules self tv category combined_score in
  {| total_score := final_score;
     reserved_score := reserved;
     keyword_score := keyword;
     pattern_score := pattern;
     similarity_score := similarity |}.

Record result : Type := {
  input_text : pystr;
  processed_variants : text_variants;
  best_prediction : pystr;
  best_score : Q;
  all_scores : dict scores;
  sorted_scores : list (pystr * scores);
  confidence : Q
}.

(** What [classify_text] returns: the error dict or a result. *)
Inductive response : Type :=
| No_training_data
| Classified (r : result).

Definition classify_text (env : collaborators) (text : pystr)
  : State classifier (outcome response) :=
  self <- get ;;
  match data self with
  | [] => ret (Returns No_training_data)
  | _ :: _ =>
      let tv := preprocess_text env (reserved_processor self) text in
      let categories := unique (List.map snd (data self)) in
      let category_scores :=
        List.map (fun category =>
                    (category, score_category env self tv category))
                 categories in
      match max_by (fun kv => total_score (snd kv)) category_scores with
      | Raises => ret Raises
      | Returns best =>
          ret (Returns (Classified
            {| input_text := text;
               processed_variants := tv;
               best_prediction := fst best;
               best_score := total_score (snd best);
               all_scores := category_scores;
               sorted_scores :=
                 sorted_desc (fun kv => total_score (snd kv))
                             category_scores;
               confidence := total_score (snd best) |}))
      end
  end.

End V3.

(* ================================================================== *)
(** ** ultimate_classifier_with_reserved_words.py *)
(* ================================================================== *)

Module Ultimate.

(** [self.reserved_words] of [UltimateClassifier.__init__]: each
    phrase with the tokens it expands to. *)
Definition init_reserved_words : dict (list pystr) := dict_of
  [
    (u "防火牆設備", [u "防火牆"; u "設備"]);
    (u "網路設備", [u "網路"; u "設備"]);
    (u "儲存設備", [u "儲存"; u "設備"]);
    (u "監控設備", [u "監控"; u "設備"]);
    (u "安全設備", [u "安全"; u "設備"]);
    (u "資料庫管理系統", [u "資料庫"; u "管理系統"]);
    (u "資料庫系統", [u "資料庫"; u "系統"]);
    (u "管理系統", [u "管理"; u "系統"]);
    (u "內部人員", [u "內部"; u "人員"]);
    (u "外部人員", [u "外部"; u "人員"]);
    (u "系統管理員", [u "系統"; u "管理員"]);
    (u "作業文件", [u "作業"; u "文件"]);
    (u "電子紀錄", [u "電子"; u "紀錄"]);
    (u "程序文件", [u "程序"; u "文件"]);
    (u "技術文件", [u "技術"; u "文件"]);
    (u "網路服務", [u "網路"; u "服務"]);
    (u "雲端服務", [u "雲端"; u "服務"]);
    (u "應用服務", [u "應用"; u "服務"]);
    (u "可攜式儲存媒體", [u "可攜式"; u "儲存媒體"]);
    (u "儲存媒體", [u "儲存"; u "媒體"]);
    (u "作業系統", [u "作業系統"]);
    (u "Windows", [u "Windows"]);
    (u "Linux", [u "Linux"]);
    (u "MySQL", [u "MySQL"]);
    (u "Oracle", [u "Oracle"])
  ].

(** The rules of one category; a key that the category does not have
    is [None]. *)
Record category_rule : Type := {
  keywords : option (list pystr);
  patterns : option (list pystr);
  reserved_boost : option (list pystr);
  exclude_if_has_reserved : option (list pystr);
  weight : Q
}.

(** [self.category_rules] of [create_rules]. *)
Definition create_rules : dict category_rule := dict_of
  [
    (u "軟體",
     {| keywords := Some [u "系統"; u "軟體"; u "應用程式"; u "資料庫"; u "程式"; u "MySQL"; u "Oracle"; u "Windows"; u "Linux"; u "管理系統"];
        patterns := Some
          [u ".*系統$";
           u ".*軟體$";
           u ".*程式.*";
           u ".*資料庫.*"];
        reserved_boost := Some [u "資料庫管理系統"; u "MySQL"; u "Oracle"; u "Windows"; u "Linux"; u "管理系統"];
        exclude_if_has_reserved := None;
        weight := 1%Q |});
    (u "實體",
     {| keywords := Some [u "設備"; u "硬體"; u "伺服器"; u "主機"; u "防火牆"; u "網路"; u "儲存"; u "監控"; u "實體"; u "環境"; u "設施"; u "場所"; u "機房"; u "媒體"; u "可攜式"];
        patterns := Some
          [u ".*設備$";
           u ".*主機$";
           u ".*伺服器.*";
           u ".*環境.*";
           u ".*設施.*";
           u ".*場所.*"];
        reserved_boost := Some [u "防火牆設備"; u "網路設備"; u "儲存設備"; u "監控設備"; u "安全設備"; u "可攜式儲存媒體"; u "儲存媒體"];
        exclude_if_has_reserved := None;
        weight := 1%Q |});
    (u "資料",
     {| keywords := Some [u "資料"; u "文件"; u "檔案"; u "紀錄"; u "合約"; u "作業"; u "電子"; u "程序"; u "技術"];
        patterns := Some
          [u ".*文件.*";
           u ".*檔案.*";
           u ".*紀錄.*"];
        reserved_boost := Some [u "作業文件"; u "電子紀錄"; u "程序文件"; u "技術文件"];
        exclude_if_has_reserved := None;
        weight := 1%Q |});
    (u "人員",
     {| keywords := Some [u "人員"; u "員工"; u "使用者"; u "管理員"; u "內部"; u "外部"];
        patterns := Some
          [u ".*人員$";
           u ".*員工.*";
           u ".*管理員.*"];
        reserved_boost := Some [u "內部人員"; u "外部人員"; u "系統管理員"];
        exclude_if_has_reserved := Some [u "作業文件"; u "電子紀錄"; u "程序文件"];
        weight := 1%Q |});
    (u "服務",
     {| keywords := Some [u "服務"; u "應用"; u "網路"; u "雲端"; u "API"];
        patterns := Some
          [u ".*服務.*";
           u ".*應用.*"];
        reserved_boost := Some [u "網路服務"; u "雲端服務"; u "應用服務"];
        exclude_if_has_reserved := None;
        weight := 1%Q |})
  ].

Record classifier : Type := {
  data : list (pystr * pystr);
  reserved_words : dict (list pystr);
  category_rules : dict category_rule;
  vectorizer : option tfidf;
  category_vectors : dict (list Q)
}.

(** [UltimateClassifier.__init__] on the loaded rows; the fitted
    vectorizer and the category vectors of [build_features] are
    given. *)
Definition init (rows : list (pystr * pystr)) (fitted : option tfidf)
                (vectors : dict (list Q)) : classifier :=
  {| data := rows;
     reserved_words := init_reserved_words;
     category_rules := create_rules;
     vectorizer := fitted;
     category_vectors := vectors |}.

Definition placeholder : pystr := u " [RESERVED] ".

(** The first loop of [process_text_with_reserved_words]. *)
Fixpoint extract_loop (text : pystr) (sorted_reserved : list pystr)
                      (found : list pystr) (remaining : pystr)
  : list pystr * pystr :=
  match sorted_reserved with
  | [] => (found, remaining)
  | reserved_phrase :: rest =>
      if contains reserved_phrase text then
        extract_loop text rest (found ++ [reserved_phrase])
          (replace remaining reserved_phrase placeholder)
      else extract_loop text rest found remaining
  end.

(** The second loop: every found phrase is expanded to its tokens. *)
Definition expand (lexicon : dict (list pystr)) (found : list pystr)
  : list pystr :=
  flat_map (fun reserved =>
              match dict_get lexicon reserved with
              | Some tokens => tokens
              | None => [reserved]
              end) found.

Record processed : Type := {
  original : pystr;
  found_reserved : list pystr;     (* key 'reserved_words' *)
  remaining_words : list pystr;
  expanded_tokens : list pystr;
  all_tokens : list pystr;
  processed_text : pystr
}.

Definition process_text_with_reserved_words (env : collaborators)
    (self : classifier) (text : pystr) : processed :=
  let sorted_reserved := sorted_by_len_desc (keys (reserved_words self)) in
  let '(found, remaining_text) :=
    extract_loop text sorted_reserved [] text in
  let clean_remaining :=
    strip (sub_all (match_literal (u "[RESERVED]")) [] remaining_text) in
  let remaining_words :=
    if nonempty clean_remaining then
      filter (fun w => (1 <? length (strip w))%nat)
             (jieba_cut env clean_remaining)
    else [] in
  let expanded_tokens := expand (reserved_words self) found in
  let all_tokens := expanded_tokens ++ remaining_words in
  {| original := text;
     found_reserved := found;
     remaining_words := remaining_words;
     expanded_tokens := expanded_tokens;
     all_tokens := all_tokens;
     processed_text := join (u " ") all_tokens |}.

(** The five numbered steps of [calculate_score]. *)

(** 1. [reserved_score]: 3.0 for every boost phrase that was found. *)
Definition reserved_score (rules : category_rule) (p : processed) : Q :=
  fold_left (fun score boost_word =>
               if mem boost_word (found_reserved p)
               then (score + 3)%Q else score)
            (get_or_nil (reserved_boost rules)) 0%Q.

(** 2. [keyword_score]: 1.0 for every keyword in the processed text. *)
Definition keyword_score (rules : category_rule) (p : processed) : Q :=
  let all_text := lower (processed_text p) in
  fold_left (fun score keyword =>
               if contains (lower keyword) all_text
               then (score + 1)%Q else score)
            (get_or_nil (keywords rules)) 0%Q.

(** 3. [pattern_score]: 1.0 for every pattern found in the original
    text. *)
Definition pattern_score (rules : category_rule) (p : processed) : Q :=
  fold_left (fun score pattern =>
               if Re.search pattern (original p)
               then (score + 1)%Q else score)
            (get_or_nil (patterns rules)) 0%Q.

(** 4. [similarity_score]: 0.0 when the vectorizer or the category
    vector is missing, and when the library raises. *)
Definition similarity_score (env : collaborators) (self : classifier)
    (p : processed) (category : pystr) : Q :=
  match vectorizer self, dict_get (category_vectors self) category with
  | Some transform, Some category_vector =>
      match transform (processed_text p) with
      | Some input_vector =>
          match cosine_similarity env input_vector category_vector with
          | Some similarity => similarity
          | None => 0%Q
          end
      | None => 0%Q
      end
  | _, _ => 0%Q
  end.

(** 5. [exclude_penalty]: 2.0 when an exclude phrase was found. *)
Definition exclude_penalty (rules : category_rule) (p : processed) : Q :=
  fold_left (fun penalty exclude_word =>
               if mem exclude_word (found_reserved p)
               then 2%Q else penalty)
            (get_or_nil (exclude_if_has_reserved rules)) 0%Q.

Definition calculate_score (env : collaborators) (self : classifier)
    (p : processed) (category : pystr) : Q :=
  match dict_get (category_rules self) category with
  | None => 0%Q
  | Some rules =>
      let final_score :=
        (reserved_score rules p * (4 # 10)
         + keyword_score rules p * (25 # 100)
         + pattern_score rules p * (2 # 10)
         + similarity_score env self p category * (15 # 100)
         - exclude_penalty rules p)%Q in
      Qmax 0%Q final_score
  end.

Record result : Type := {
  input_text : pystr;
  predicted_category : pystr;
  confidence : Q;
  all_scores : dict Q;
  sorted_scores : list (pystr * Q);
  processed_info : processed
}.

(** What [classify] returns: the error dict or a result. *)
Inductive response : Type :=
| No_training_data
| Classified (r : result).

Definition classify (env : collaborators) (text : pystr)
  : State classifier (outcome response) :=
  self <- get ;;
  match data self with
  | [] => ret (Returns No_training_data)
  | _ :: _ =>
      let p := process_text_with_reserved_words env self text in
      let categories := unique (List.map snd (data self)) in
      let category_scores :=
        List.map (fun category =>
                    (category, calculate_score env self p category))
                 categories in
      match max_by snd category_scores with
      | Raises => ret Raises
      | Returns best =>
          ret (Returns (Classified
            {| input_text := text;
               predicted_category := fst best;
               confidence := snd best;
               all_scores := category_scores;
               sorted_scores := sorted_desc snd category_scores;
               processed_info := p |}))
      end
  end.

End Ultimate.

(* ================================================================== *)
(** ** The rule order as the specification words it *)
(* ================================================================== *)

(** The specification of the exclusion/boost adjustment gives the order
    (a) include list of reserved phrases, (b) exclude list of reserved
    phrases, (c) the same two checks on a substring of the text,
    (d) the compound rules on a reserved phrase and a substring.  This
    is that order, with the multipliers of the code, to be compared
    with [V3.apply_rules]. *)
Definition adjust_as_specified (r : V3.rules) (tv : V3.text_variants)
    (base_score : Q) : Q :=
  let reserved_words := V3.tv_reserved_words tv in
  let combined_text :=
    lower (join (u " ")
             [V3.tv_cleaned tv; V3.tv_no_brackets tv;
              V3.tv_bracket_content tv]) in
  if any_of (V3.include_reserved_words r)
       (fun w => mem w reserved_words)
  then (base_score * 2)%Q
  else if any_of (V3.exclude_reserved_words r)
       (fun w => mem w reserved_words)
  then (base_score * (2 # 10))%Q
  else if any_of (V3.include_if_contains r)
       (fun w => contains w combined_text)
  then (base_score * (15 # 10))%Q
  else if any_of (V3.exclude_if_contains r)
       (fun w => contains w combined_text)
  then (base_score * (3 # 10))%Q
  else if any_of (V3.include_if_reserved_and_contains r)
       (fun rc => mem (fst rc) reserved_words
                  && contains (snd rc) combined_text)
  then (base_score * 2)%Q
  else if any_of (V3.exclude_if_reserved_and_contains r)
       (fun rc => mem (fst rc) reserved_words
                  && contains (snd rc) combined_text)
  then (base_score * (2 # 10))%Q
  else base_score.

(** The rules of [V3.apply_rules] in the order the code tries them,
    each with its test on the input and its multiplier. *)
Definition ordered_rules (r : V3.rules) (tv : V3.text_variants)
  : list (bool * Q) :=
  let reserved_words := V3.tv_reserved_words tv in
  let combined_text :=
    lower (join (u " ")
             [V3.tv_cleaned tv; V3.tv_no_brackets tv;
              V3.tv_bracket_content tv]) in
  [ (any_of (V3.include_reserved_words r)
       (fun w => mem w reserved_words), 2%Q);
    (any_of (V3.exclude_reserved_words r)
       (fun w => mem w reserved_words), (2 # 10)%Q);
    (any_of (V3.include_if_reserved_and_contains r)
       (fun rc => mem (fst rc) reserved_words
                  && contains (snd rc) combined_text), 2%Q);
    (any_of (V3.exclude_if_reserved_and_contains r)
       (fun rc => mem (fst rc) reserved_words
                  && contains (snd rc) combined_text), (2 # 10)%Q);
    (any_of (V3.exclude_if_contains r)
       (fun w => contains w combined_text), (3 # 10)%Q);
    (any_of (V3.include_if_contains r)
       (fun w => contains w combined_text), (15 # 10)%Q) ].

(** The multiplier of the first rule whose test holds; 1 when none
    does. *)
Fixpoint first_match (l : list (bool * Q)) : Q :=
  match l with
  | [] => 1%Q
  | (true, m) :: _ => m
  | (false, _) :: rest => first_match rest
  end.

(** A rule set without its rule (a), and without its rule (b). *)
Definition without_include (r : V3.rules) : V3.rules :=
  {| V3.include_reserved_words := None;
     V3.exclude_reserved_words := V3.exclude_reserved_words r;
     V3.include_if_reserved_and_contains :=
       V3.include_if_reserved_and_contains r;
     V3.exclude_if_reserved_and_contains :=
       V3.exclude_if_reserved_and_contains r;
     V3.exclude_if_contains := V3.exclude_if_contains r;
     V3.include_if_contains := V3.include_if_contains r |}.

Definition without_exclude (r : V3.rules) : V3.rules :=
  {| V3.include_reserved_words := V3.include_reserved_words r;
     V3.exclude_reserved_words := None;
     V3.include_if_reserved_and_contains :=
       V3.include_if_reserved_and_contains r;
     V3.exclude_if_reserved_and_contains :=
       V3.exclude_if_reserved_and_contains r;
     V3.exclude_if_contains := V3.exclude_if_contains r;
     V3.include_if_contains := V3.include_if_contains r |}.

(* ================================================================== *)
(** ** Notions used in the statements *)
(* ================================================================== *)

(** The similarity library fails on a query for a category: the
    vectorizer raises on the text, or the cosine raises on the two
    vectors. *)
Definition similarity_fails (env : collaborators) (fitted : option tfidf)
    (vectors : dict (list Q)) (query category : pystr) : Prop :=
  exists transform category_vector,
    fitted = Some transform
    /\ dict_get vectors category = Some category_vector
    /\ (transform query = None
        \/ exists input_vector,
             transform query = Some input_vector
             /\ cosine_similarity env input_vector category_vector = None).

(** The cosine the library returns is never negative, as for the
    vectors of non-negative weights that TF-IDF produces. *)
Definition cosine_nonneg (env : collaborators) : Prop :=
  forall a b q, cosine_similarity env a b = Some q -> (0 <= q)%Q.

(** The library gives no similarity to the empty text: its vector is
    the zero vector (cosine 0), or the call raises. *)
Definition empty_text_has_no_similarity (env : collaborators)
    (fitted : option tfidf) : Prop :=
  forall transform input_vector category_vector q,
    fitted = Some transform ->
    transform [] = Some input_vector ->
    cosine_similarity env input_vector category_vector = Some q ->
    (q == 0)%Q.

(** A method that only reads the instance. *)
Definition reads_only {S A} (m : State S A) : Prop :=
  forall s, snd (m s) = s.

(** Two calls in a row on one instance. *)
Definition twice {S A} (m : State S A) : State S (A * A) :=
  a <- m ;; b <- m ;; ret (a, b).

(** What the v3 preprocessing and the second segmenter make of the
    empty text, as far as the scores read it. *)
Definition blank_variants : V3.text_variants :=
  {| V3.tv_original := [];
     V3.tv_cleaned := [];
     V3.tv_no_brackets := [];
     V3.tv_bracket_content := [];
     V3.tv_lower_case := [];
     V3.tv_no_spaces := [];
     V3.tv_reserved_words := [];
     V3.tv_regular_words := [];
     V3.tv_all_tokens := [];
     V3.tv_traditional_words := [];
     V3.tv_traditional_words_filtered := [];
     V3.tv_pos_tags := [] |}.

Definition blank_processed : Ultimate.processed :=
  {| Ultimate.original := [];
     Ultimate.found_reserved := [];
     Ultimate.remaining_words := [];
     Ultimate.expanded_tokens := [];
     Ultimate.all_tokens := [];
     Ultimate.processed_text := [] |}.

(** The instance with the rules of one category replaced. *)
Definition with_rules (self : V3.classifier) (category : pystr)
                      (r : V3.rules) : V3.classifier :=
  {| V3.data := V3.data self;
     V3.reserved_processor := V3.reserved_processor self;
     V3.category_keywords := V3.category_keywords self;
     V3.category_patterns := V3.category_patterns self;
     V3.exclusion_rules := dict_set (V3.exclusion_rules self) category r;
     V3.vectorizer := V3.vectorizer self;
     V3.category_vectors := V3.category_vectors self |}.

(** A rule set with a compound rule and a substring rule, to tell the
    order of the code from the order of the specification. *)
Definition compound_and_substring_rules : V3.rules :=
  {| V3.include_reserved_words := None;
     V3.exclude_reserved_words := None;
     V3.include_if_reserved_and_contains := Some [(u "防火牆", u "設備")];
     V3.exclude_if_reserved_and_contains := None;
     V3.exclude_if_contains := Some [u "設備"];
     V3.include_if_contains := None |}.

(* ================================================================== *)
(** ** Concrete collaborators and inputs for the examples *)
(* ================================================================== *)

(** The ASCII digits, a subset of [\d]. *)
Definition ascii_digit (c : char) : bool := ((48 <=? c) && (c <=? 57))%N.

(** A tokenizer that cuts a text into its characters, and a stand-in
    similarity library whose vectors always have cosine 0. *)
Definition char_env : collaborators :=
  {| re_digit := ascii_digit;
     jieba_cut := fun s => List.map (fun c => [c]) s;
     pseg_cut := fun s => List.map (fun c => ([c], u "x")) s;
     cosine_similarity := fun _ _ => Some 0%Q |}.

(** A similarity library that raises on every call. *)
Definition failing_env : collaborators :=
  {| re_digit := ascii_digit;
     jieba_cut := fun s => List.map (fun c => [c]) s;
     pseg_cut := fun s => List.map (fun c => ([c], u "x")) s;
     cosine_similarity := fun _ _ => None |}.

Definition rows_example : list (pystr * pystr) :=
  [ (u "防火牆設備", u "硬體"); (u "資料庫管理系統", u "軟體");
    (u "內部人員", u "人員"); (u "作業文件", u "資料");
    (u "機房", u "實體"); (u "網路服務", u "服務") ].

Definition tfidf_example : tfidf := fun _ => Some [1%Q].

Definition vectors_example : dict (list Q) :=
  List.map (fun c => (c, [1%Q])) (unique (List.map snd rows_example)).

Definition v3_example : V3.classifier :=
  V3.init rows_example (Some tfidf_example) vectors_example.

Definition ultimate_example : Ultimate.classifier :=
  Ultimate.init rows_example (Some tfidf_example) vectors_example.

(** The characters a placeholder of the v3 segmenter is written with:
    those of [[RESERVED_]] and the digits. *)
Definition placeholder_char (isd : char -> bool) (c : char) : Prop :=
  In c (u "[RESERVED_]") \/ isd c = true.

(** The tokens of a tokenizer make up its input. *)
Definition partitions (cut : pystr -> list pystr) : Prop :=
  forall s, concat (cut s) = s.

(** Every phrase of a lexicon has a character that is not whitespace. *)
Definition phrases_visible (lexicon : dict (list pystr)) : bool :=
  forallb (existsb (fun c => negb (isspace c))) (keys lexicon).

(** Number of occurrences of a character in the tokens of a list. *)
Definition count_char (c : char) (tokens : list pystr) : nat :=
  count_occ N.eq_dec (concat tokens) c.

(* ================================================================== *)
(** ** Construction of the classifiers *)
(* ================================================================== *)

(** [d[k].extend(l)] on a [defaultdict(list)], and [d[k].append(x)]
    after [if k not in d: d[k] = []]: a new key goes to the end. *)
Fixpoint dict_extend {V} (d : dict (list V)) (k : pystr) (l : list V)
  : dict (list V) :=
  match d with
  | [] => [(k, l)]
  | (k', v) :: r =>
      if str_eqb k k' then (k', v ++ l) :: r
      else (k', v) :: dict_extend r k l
  end.

(** [[i for i, label in enumerate(labels) if label == category]],
    counting from [i]. *)
Fixpoint indices_from (i : nat) (category : pystr) (labels : list pystr)
  : list nat :=
  match labels with
  | [] => []
  | label :: r =>
      if str_eqb label category then i :: indices_from (S i) category r
      else indices_from (S i) category r
  end.

(** [vectors[category_indices]]: the rows at the given indices;
    [None] stands for the [IndexError] of an index past the matrix. *)
Fixpoint take_rows (matrix : list (list Q)) (indices : list nat)
  : option (list (list Q)) :=
  match indices with
  | [] => Some []
  | i :: r =>
      match nth_error matrix i, take_rows matrix r with
      | Some row, Some rest => Some (row :: rest)
      | _, _ => None
      end
  end.

(** The texts of all categories that are not blank, each with its
    category: [all_texts] and [category_labels], filled in step. *)
Definition labelled_texts (category_texts : dict (list pystr))
  : list (pystr * pystr) :=
  flat_map (fun kv =>
              List.map (fun text => (text, fst kv))
                       (filter (fun text => nonempty (strip text))
                               (snd kv)))
           category_texts.

(** The loop that gives every category with an index its vector:
    the mean of its rows. *)
Fixpoint category_vectors_loop (mean : list (list Q) -> list Q)
    (matrix : list (list Q)) (labels categories : list pystr)
    (vectors : dict (list Q)) : outcome (dict (list Q)) :=
  match categories with
  | [] => Returns vectors
  | category :: rest =>
      match indices_from O category labels with
      | [] => category_vectors_loop mean matrix labels rest vectors
      | category_indices =>
          match take_rows matrix category_indices with
          | Some rows =>
              category_vectors_loop mean matrix labels rest
                (dict_set vectors category (mean rows))
          | None => Raises
          end
      end
  end.

(** A [TfidfVectorizer] that was not fitted: [transform] raises. *)
Definition unfitted : tfidf := fun _ => None.

(** The part of scikit-learn and numpy that the construction calls:
    [fit_transform] gives the fitted vectorizer and the rows of the
    matrix, or raises ([None]); [mean] is [mean(axis=0)] of rows. *)
Record fitting : Type := {
  fit_transform : list pystr -> option (tfidf * list (list Q));
  mean : list (list Q) -> list Q
}.

Module V3Build.

(** [self.word_to_reserved] of [ReservedWordProcessor.__init__]: for
    every component, the phrases it is a component of. *)
Definition word_to_reserved (lexicon : dict (list pystr))
  : dict (list pystr) :=
  fold_left (fun index item =>
               fold_left (fun index component =>
                            dict_extend index component [fst item])
                         (snd item) index)
            lexicon [].

(** The five texts that [build_enhanced_features] keeps of one asset
    name. *)
Definition variants_of (env : collaborators) (lexicon : dict (list pystr))
    (asset_name : pystr) : list pystr :=
  let processed := V3.preprocess_text env lexicon asset_name in
  [V3.tv_cleaned processed;
   V3.tv_no_brackets processed;
   V3.tv_bracket_content processed;
   join (u " ") (V3.tv_all_tokens processed);
   join (u " ") (V3.tv_traditional_words_filtered processed)].

(** [category_texts] after the loop over the rows. *)
Definition category_texts (env : collaborators)
    (lexicon : dict (list pystr)) (rows : list (pystr * pystr))
  : dict (list pystr) :=
  fold_left (fun texts row =>
               dict_extend texts (snd row)
                           (variants_of env lexicon (fst row)))
            rows [].

(** [build_enhanced_features]: what it leaves in [self.vectorizer]
    and [self.category_vectors]. *)
Definition build_enhanced_features (env : collaborators) (lib : fitting)
    (lexicon : dict (list pystr)) (rows : list (pystr * pystr))
  : outcome (option tfidf * dict (list Q)) :=
  match rows with
  | [] => Returns (None, [])
  | _ :: _ =>
      let texts := category_texts env lexicon rows in
      let labelled := labelled_texts texts in
      let all_texts := List.map fst labelled in
      let category_labels := List.map snd labelled in
      match all_texts with
      | [] => Returns (Some unfitted, [])
      | _ :: _ =>
          match fit_transform lib all_texts with
          | None => Raises
          | Some (fitted, matrix) =>
              match category_vectors_loop (mean lib) matrix category_labels
                      (keys texts) [] with
              | Returns vectors => Returns (Some fitted, vectors)
              | Raises => Raises
              end
          end
      end
  end.

(** [EnhancedClassifierV3.__init__] on the loaded rows. *)
Definition construct (env : collaborators) (lib : fitting)
    (rows : list (pystr * pystr)) : outcome V3.classifier :=
  match build_enhanced_features env lib V3.reserved_words rows with
  | Returns (fitted, vectors) => Returns (V3.init rows fitted vectors)
  | Raises => Raises
  end.

End V3Build.

Module UltimateBuild.

(** The four texts that [build_features] keeps of one asset name. *)
Definition variants_of (env : collaborators) (self : Ultimate.classifier)
    (asset_name : pystr) : list pystr :=
  let processed :=
    Ultimate.process_text_with_reserved_words env self asset_name in
  [Ultimate.processed_text processed;
   Ultimate.original processed;
   join (u " ") (Ultimate.remaining_words processed);
   join (u " ") (Ultimate.expanded_tokens processed)].

Definition category_texts (env : collaborators) (self : Ultimate.classifier)
    (rows : list (pystr * pystr)) : dict (list pystr) :=
  fold_left (fun texts row =>
               dict_extend texts (snd row) (variants_of env self (fst row)))
            rows [].

(** [build_features], called when [self.vectorizer] is [None] and
    [self.category_vectors] is empty. *)
Definition build_features (env : collaborators) (lib : fitting)
    (self : Ultimate.classifier)
  : outcome (option tfidf * dict (list Q)) :=
  match Ultimate.data self with
  | [] => Returns (None, [])
  | _ :: _ =>
      let texts := category_texts env self (Ultimate.data self) in
      let labelled := labelled_texts texts in
      let all_texts := List.map fst labelled in
      let category_labels := List.map snd labelled in
      match all_texts with
      | [] => Returns (None, [])
      | _ :: _ =>
          match fit_transform lib all_texts with
          | None => Raises
          | Some (fitted, matrix) =>
              match category_vectors_loop (mean lib) matrix category_labels
                      (keys texts) [] with
              | Returns vectors => Returns (Some fitted, vectors)
              | Raises => Raises
              end
          end
      end
  end.

(** [UltimateClassifier.__init__] on the loaded rows. *)
Definition construct (env : collaborators) (lib : fitting)
    (rows : list (pystr * pystr)) : outcome Ultimate.classifier :=
  match build_features env lib (Ultimate.init rows None []) with
  | Returns (fitted, vectors) => Returns (Ultimate.init rows fitted vectors)
  | Raises => Raises
  end.

End UltimateBuild.

(* ================================================================== *)
(** ** Further notions used in the statements *)
(* ================================================================== *)

(** The first element of [x :: l] whose key is maximal. *)
Fixpoint first_max {A} (key : A -> Q) (x : A) (l : list A) : A :=
  match l with
  | [] => x
  | y :: r =>
      let m := first_max key y r in
      if Qltb (key x) (key m) then m else x
  end.

(** A text has a character that is not whitespace. *)
Definition visible (s : pystr) : bool :=
  existsb (fun c => negb (isspace c)) s.

(** The cosine the library returns lies between 0 and 1. *)
Definition cosine_in_unit (env : collaborators) : Prop :=
  forall a b q, cosine_similarity env a b = Some q -> (0 <= q <= 1)%Q.

(** A fitting library for the examples: one row [[1]] per text. *)
Definition fitting_example : fitting :=
  {| fit_transform := fun texts =>
       Some (tfidf_example, List.map (fun _ => [1%Q]) texts);
     mean := fun rows => [1%Q] |}.

(** A found reserved word counts for a category when it matches a
    keyword of one of the three tiers. *)
Definition counts_for (keywords : V3.keyword_tiers) (w : pystr) : bool :=
  V3.found_in (V3.strong keywords) w
  || V3.found_in (V3.medium keywords) w
  || V3.found_in (V3.weak keywords) w.

(* ================================================================== *)
(** ** interactive_classifier.py *)
(* ================================================================== *)

Module Interactive.

(** One entry of [session_history].  Its time stamp is read from the
    clock and is only printed; it is not part of the model. *)
Record record : Type := {
  input : pystr;
  result : Ultimate.response
}.

(** The instance: the classifier, [None] when loading it failed, and
    the history of the session. *)
Record session : Type := {
  classifier : option Ultimate.classifier;
  session_history : list record
}.

(** [classify_single]: [None] when no classifier is loaded and when the
    call raises; otherwise the reply of [classify], which is appended
    to the history before it is returned. *)
Definition classify_single (env : collaborators) (text : pystr)
  : State session (option Ultimate.response) :=
  fun self =>
    match classifier self with
    | None => (None, self)
    | Some c =>
        match Ultimate.classify env text c with
        | (Returns reply, c') =>
            (Some reply,
             {| classifier := Some c';
                session_history :=
                  session_history self
                  ++ [{| input := text; result := reply |}] |})
        | (Raises, c') =>
            (None,
             {| classifier := Some c';
                session_history := session_history self |})
        end
    end.

(** What [show_stats] computes before it prints. *)
Record statistics : Type := {
  total_records : nat;
  avg_confidence : Q;
  high_confidence_count : nat;
  category_counts : dict nat
}.

(** [category_counts.get(category, 0)] *)
Definition count_of (counts : dict nat) (category : pystr) : nat :=
  match dict_get counts category with
  | Some n => n
  | None => O
  end.

(** One turn of the loop of [show_stats] on (category_counts,
    confidence_sum, high_confidence_count).  The error reply has no
    key [predicted_category]: reading it raises [KeyError]. *)
Definition stats_step (acc : outcome (dict nat * Q * nat)) (r : record)
  : outcome (dict nat * Q * nat) :=
  match acc, result r with
  | Returns (counts, confidence_sum, high), Ultimate.Classified reply =>
      let category := Ultimate.predicted_category reply in
      let confidence := Ultimate.confidence reply in
      Returns (dict_set counts category (count_of counts category + 1),
               (confidence_sum + confidence)%Q,
               if Qltb (8 # 10) confidence then S high else high)
  | _, _ => Raises
  end.

(** [show_stats]: [Returns None] when there is no record (a message is
    printed), the statistics otherwise.  The sum and the average of
    the confidences stand here with their exact values; the code
    computes them in doubles, so nothing is stated about them. *)
Definition show_stats (history : list record)
  : outcome (option statistics) :=
  match history with
  | [] => Returns None
  | _ :: _ =>
      match fold_left stats_step history (Returns ([], 0%Q, O)) with
      | Returns (counts, confidence_sum, high) =>
          Returns (Some {| total_records := length history;
                           avg_confidence :=
                             (confidence_sum / Qlen history)%Q;
                           high_confidence_count := high;
                           category_counts := counts |})
      | Raises => Raises
      end
  end.

(** The prediction and the confidence that a record holds, if its
    reply is not the error reply. *)
Definition predicted (r : record) : option (pystr * Q) :=
  match result r with
  | Ultimate.Classified reply =>
      Some (Ultimate.predicted_category reply, Ultimate.confidence reply)
  | Ultimate.No_training_data => None
  end.

Definition predicted_is (category : pystr) (r : record) : bool :=
  match predicted r with
  | Some (c, _) => str_eqb c category
  | None => false
  end.

Definition confidence_of (r : record) : Q :=
  match predicted r with
  | Some (_, q) => q
  | None => 0%Q
  end.

Definition is_error (r : record) : bool :=
  match predicted r with
  | Some _ => false
  | None => true
  end.

End Interactive.

(* ================================================================== *)
(** ** Characters that carry their place in the input *)
(* ================================================================== *)

(** To follow a character of the input through the replacements of
    the v3 segmenter, every character is paired with its index in the
    input; the characters of a placeholder carry [None].  The
    functions below are the ones of the segmenter on such characters:
    forgetting the indices gives back the segmenter itself. *)
Definition tchar : Type := char * option nat.

Definition erase (s : list tchar) : pystr := List.map fst s.

Definition inserted (s : pystr) : list tchar :=
  List.map (fun c => (c, @None nat)) s.

Fixpoint index_from (i : nat) (s : pystr) : list tchar :=
  match s with
  | [] => []
  | c :: r => (c, Some i) :: index_from (S i) r
  end.

Fixpoint tsub_scan (m : pystr -> option nat) (repl : list tchar)
                   (skip : nat) (s : list tchar) : list tchar :=
  match s with
  | [] => []
  | c :: r =>
      match skip with
      | S k => tsub_scan m repl k r
      | O =>
          match m (erase s) with
          | Some (S k) => repl ++ tsub_scan m repl k r
          | _ => c :: tsub_scan m repl O r
          end
      end
  end.

Definition treplace (s : list tchar) (old : pystr) (new : list tchar)
  : list tchar :=
  match old with
  | [] => new ++ flat_map (fun c => c :: new) s
  | _ :: _ => tsub_scan (match_literal old) new O s
  end.

Fixpoint tlstrip (s : list tchar) : list tchar :=
  match s with
  | [] => []
  | c :: r => if isspace (fst c) then tlstrip r else s
  end.

Definition tstrip (s : list tchar) : list tchar :=
  rev (tlstrip (rev (tlstrip s))).

Fixpoint textract_loop (text : pystr) (sorted_reserved : list pystr)
                       (found : list pystr) (remaining : list tchar)
  : list pystr * list tchar :=
  match sorted_reserved with
  | [] => (found, remaining)
  | reserved_phrase :: rest =>
      if contains reserved_phrase text then
        let found' := found ++ [reserved_phrase] in
        textract_loop text rest found'
          (treplace remaining reserved_phrase
                    (inserted (V3.placeholder (length found'))))
      else textract_loop text rest found remaining
  end.

(** Two neighbours in the remaining text: two characters of the input
    are neighbours in the input, and a character of the input stands
    next to an inserted one only if that one is a space. *)
Definition neighbours (a b : tchar) : Prop :=
  match snd a, snd b with
  | Some i, Some j => j = S i
  | Some _, None => fst b = ch " "
  | None, Some _ => fst a = ch " "
  | None, None => True
  end.

(** A character that carries an index is the character of the input
    at that index. *)
Definition from_text (text : pystr) (x : tchar) : Prop :=
  match snd x with
  | Some i => nth_error text i = Some (fst x)
  | None => True
  end.

(** The index [i] of the input lies inside a text of the input that
    has the form of a placeholder, [[RESERVED_<digits>]]. *)
Definition inside_placeholder (isd : char -> bool) (text : pystr) (i : nat)
  : bool :=
  existsb (fun start =>
             match V3.match_placeholder isd (skipn start text) with
             | Some n => (i <? start + n)%nat
             | None => false
             end)
          (seq O (S i)).

(** The class [\d] of [re] has neither the space nor the closing
    square bracket. *)
Definition digit_class (isd : char -> bool) : Prop :=
  isd (ch " ") = false /\ isd (ch "]") = false.

(** The space at both ends of a placeholder. *)
Definition space_inserted : tchar := (ch " ", None).

(* ================================================================== *)
(** ** The process: the dictionary of jieba *)
(* ================================================================== *)

(** jieba keeps one dictionary for the whole process: [jieba.add_word]
    writes it, [jieba.cut] and [pseg.cut] read it.  Its state is the
    list of the words that were added, in the order of the calls, and
    the libraries are given as a function of that state.  A
    [collaborators] is what the libraries do in one state. *)
Definition dictionary : Type := list pystr.

Definition libraries : Type := dictionary -> collaborators.

(** The state of a process that holds an instance. *)
Record process (I : Type) : Type := {
  jieba_words : dictionary;
  instance : I
}.
Arguments jieba_words {I} p.
Arguments instance {I} p.

(** [jieba.add_word(word, freq=10000)] for every word of a list. *)
Definition add_words {I} (words : list pystr) : State (process I) unit :=
  fun p => (tt, {| jieba_words := jieba_words p ++ words;
                   instance := instance p |}).

(** What the libraries do in the present state of the dictionary. *)
Definition libraries_now {I} (libs : libraries)
  : State (process I) collaborators :=
  fun p => (libs (jieba_words p), p).

(** A method of the instance, run on the instance of the process. *)
Definition on_instance {I A} (m : State I A) : State (process I) A :=
  fun p => let (a, i) := m (instance p) in
           (a, {| jieba_words := jieba_words p; instance := i |}).

(** A call of a method in the process: the method calls the libraries,
    which read the dictionary; no method of the two classifiers other
    than the constructors calls [add_word]. *)
Definition in_process {I A} (libs : libraries)
    (method : collaborators -> State I A) : State (process I) A :=
  env <- libraries_now libs ;; on_instance (method env).

(** The constructors, called in a process that holds some instance:
    [_register_reserved_words] adds the lexicon to the dictionary of
    jieba, then the data is loaded and the features are built. *)
Definition construct_v3 {I} (libs : libraries) (lib : fitting)
    (rows : list (pystr * pystr)) : State (process I) (outcome V3.classifier) :=
  registered <- add_words (keys V3.reserved_words) ;;
  env <- libraries_now libs ;;
  ret (V3Build.construct env lib rows).

Definition construct_ultimate {I} (libs : libraries) (lib : fitting)
    (rows : list (pystr * pystr))
  : State (process I) (outcome Ultimate.classifier) :=
  registered <- add_words (keys Ultimate.init_reserved_words) ;;
  env <- libraries_now libs ;;
  ret (UltimateBuild.construct env lib rows).

(** A tokenizer that reads the dictionary, for the examples: at every
    place it takes the longest word of the dictionary that starts
    there, and one character if there is none. *)
Definition longest_word (words : list pystr) (s : pystr) : nat :=
  fold_left (fun n w =>
               if startswith w s && (n <? length w)%nat then length w else n)
            words 1.

Fixpoint matching_scan (words : list pystr) (skip : nat) (s : pystr)
  : list pystr :=
  match s with
  | [] => []
  | c :: r =>
      match skip with
      | S k => matching_scan words k r
      | O =>
          let n := longest_word words s in
          firstn n s :: matching_scan words (n - 1) r
      end
  end.

Definition matching_cut (words : list pystr) (s : pystr) : list pystr :=
  matching_scan words O s.

(** Two words that the dictionary has from the start. *)
Definition base_words : list pystr := [u "防火"; u "設備"].

Definition matching_libs : libraries :=
  fun added =>
    {| re_digit := ascii_digit;
       jieba_cut := matching_cut (base_words ++ added);
       pseg_cut := fun s =>
         List.map (fun w => (w, u "x")) (matching_cut (base_words ++ added) s);
       cosine_similarity := fun _ _ => Some 0%Q |}.

(** A process in which the second classifier has been constructed. *)
Definition process_example : process Ultimate.classifier :=
  {| jieba_words := keys Ultimate.init_reserved_words;
     instance := ultimate_example |}.

(** One input classified twice on that instance, with the
    construction of a v3 classifier in between. *)
Definition session_example
  : State (process Ultimate.classifier)
          (outcome Ultimate.response * outcome Ultimate.response) :=
  first <- in_process matching_libs
             (fun env => Ultimate.classify env (u "防火牆")) ;;
  other <- construct_v3 matching_libs fitting_example rows_example ;;
  second <- in_process matching_libs
              (fun env => Ultimate.classify env (u "防火牆")) ;;
  ret (first, second).

(* ================================================================== *)
(** * Properties *)
(* ================================================================== *)

(** Case analysis on every test of a chain of conditionals. *)
Ltac split_tests :=
  repeat match goal with
         | |- context [if ?b then _ else _] => destruct b
         end.

(** ** Strings *)

Lemma char_eqb_eq (a b : char) : char_eqb a b = true <-> a = b.
Proof. apply N.eqb_eq. Qed.

Lemma str_eqb_eq (a b : pystr) : str_eqb a b = true <-> a = b.
Proof.
  revert b; induction a as [|x a IH]; intros [|y b]; simpl;
    try (split; [discriminate | discriminate]); try tauto.
  rewrite andb_true_iff, char_eqb_eq, IH.
  split; [intros [-> ->]; reflexivity | intros E; inversion E; auto].
Qed.

Lemma mem_In (w : pystr) (l : list pystr) : mem w l = true <-> In w l.
Proof.
  unfold mem. rewrite existsb_exists. split.
  - intros (x & Hx & E). apply str_eqb_eq in E. subst. exact Hx.
  - intros H. exists w. split; [exact H | now apply str_eqb_eq].
Qed.

Lemma startswith_app (p s : pystr) :
  startswith p s = true <-> exists t, s = p ++ t.
Proof.
  revert s; induction p as [|x p IH]; intros s; simpl.
  - split; [intros _; now exists s | reflexivity].
  - destruct s as [|y s].
    + split; [discriminate | intros (t & E); discriminate].
    + rewrite andb_true_iff, char_eqb_eq, IH. split.
      * intros (-> & t & ->). now exists t.
      * intros (t & E). inversion E. split; [reflexivity | now exists t].
Qed.

Lemma contains_split (p s : pystr) :
  contains p s = true <-> exists l1 l2, s = l1 ++ p ++ l2.
Proof.
  induction s as [|y s IH].
  - simpl. rewrite orb_false_r, startswith_app. split.
    + intros (t & E). now exists [], t.
    + intros (l1 & l2 & E). destruct l1; simpl in E.
      * now exists l2.
      * discriminate.
  - cbn [contains]. rewrite orb_true_iff, startswith_app, IH. split.
    + intros [(t & E) | (l1 & l2 & E)].
      * now exists [], t.
      * exists (y :: l1), l2. now rewrite E.
    + intros (l1 & l2 & E). destruct l1 as [|z l1]; simpl in E.
      * left. now exists l2.
      * right. inversion E. now exists l1, l2.
Qed.

Lemma contains_trans (a b s : pystr) :
  contains a b = true -> contains b s = true -> contains a s = true.
Proof.
  rewrite !contains_split.
  intros (l1 & l2 & ->) (m1 & m2 & ->).
  exists (m1 ++ l1), (l2 ++ m2). now rewrite <- !app_assoc.
Qed.

Lemma contains_In (p s : pystr) (c : char) :
  contains p s = true -> In c p -> In c s.
Proof.
  rewrite contains_split. intros (l1 & l2 & ->) H.
  apply in_or_app. right. apply in_or_app. now left.
Qed.

(** What a scan drops lies in a matched region: if the characters of
    every match satisfy [P], a character of the text either survives
    the scan or satisfies [P]. *)
Lemma sub_scan_keeps (m : pystr -> option nat) (repl : pystr)
      (P : char -> Prop) :
  (forall s n, m s = Some n -> forall c, In c (firstn n s) -> P c) ->
  forall s skip c,
    (forall d, In d (firstn skip s) -> P d) ->
    In c s -> In c (sub_scan m repl skip s) \/ P c.
Proof.
  intros Hm. induction s as [|c0 r IH]; intros skip c Hskip Hc.
  - destruct Hc.
  - assert (H0 : forall d, In d (firstn O r) -> P d) by (intros d []).
    destruct skip as [|k]; cbn [sub_scan].
    + destruct (m (c0 :: r)) as [[|k]|] eqn:E.
      * destruct Hc as [->|Hc]; [left; now left|].
        destruct (IH O c H0 Hc) as [H|H]; [left; now right | now right].
      * assert (HP : forall d, In d (firstn (S k) (c0 :: r)) -> P d)
          by (apply (Hm _ _ E)).
        destruct Hc as [->|Hc].
        -- right. apply HP. now left.
        -- assert (Hk : forall d, In d (firstn k r) -> P d)
             by (intros d Hd; apply HP; now right).
           destruct (IH k c Hk Hc) as [H|H]; [|now right].
           left. apply in_or_app. now right.
      * destruct Hc as [->|Hc]; [left; now left|].
        destruct (IH O c H0 Hc) as [H|H]; [left; now right | now right].
    + destruct Hc as [->|Hc].
      * right. apply Hskip. now left.
      * apply IH; auto. intros d Hd. apply Hskip. now right.
Qed.

Lemma sub_all_keeps (m : pystr -> option nat) (repl : pystr)
      (P : char -> Prop) :
  (forall s n, m s = Some n -> forall c, In c (firstn n s) -> P c) ->
  forall s c, In c s -> In c (sub_all m repl s) \/ P c.
Proof.
  intros Hm s c Hc. unfold sub_all.
  apply sub_scan_keeps; auto. intros d [].
Qed.

(** A scan adds nothing but the replacement text. *)
Lemma sub_scan_adds (m : pystr -> option nat) (repl : pystr) :
  forall s skip c,
    In c (sub_scan m repl skip s) -> In c s \/ In c repl.
Proof.
  induction s as [|c0 r IH]; intros skip c H; [destruct H|].
  destruct skip as [|k]; cbn [sub_scan] in H.
  - destruct (m (c0 :: r)) as [[|k]|].
    + destruct H as [->|H]; [left; now left|].
      destruct (IH _ _ H); [left; now right | now right].
    + apply in_app_or in H. destruct H as [H|H]; [now right|].
      destruct (IH _ _ H); [left; now right | now right].
    + destruct H as [->|H]; [left; now left|].
      destruct (IH _ _ H); [left; now right | now right].
  - destruct (IH _ _ H); [left; now right | now right].
Qed.

Lemma match_literal_firstn (old s : pystr) (n : nat) :
  match_literal old s = Some n -> firstn n s = old.
Proof.
  unfold match_literal. destruct (startswith old s) eqn:E; [|discriminate].
  intros [= <-]. apply startswith_app in E. destruct E as (t & ->).
  rewrite firstn_app, Nat.sub_diag, firstn_all. simpl. apply app_nil_r.
Qed.

Lemma replace_keeps (s old new : pystr) (c : char) :
  In c s -> In c (replace s old new) \/ In c old.
Proof.
  intros Hc. destruct old as [|o old]; cbn [replace].
  - left. apply in_or_app. right. apply in_flat_map.
    exists c. split; [exact Hc | now left].
  - apply (sub_all_keeps _ _ (fun d => In d (o :: old))); auto.
    intros s' n E d Hd. now rewrite (match_literal_firstn _ _ _ E) in Hd.
Qed.

Lemma lstrip_keeps (s : pystr) (c : char) :
  In c s -> isspace c = false -> In c (lstrip s).
Proof.
  induction s as [|d s IH]; intros H Hc; [destruct H|].
  cbn [lstrip]. destruct (isspace d) eqn:E; [|exact H].
  destruct H as [->|H]; [congruence | auto].
Qed.

Lemma strip_keeps (s : pystr) (c : char) :
  In c s -> isspace c = false -> In c (strip s).
Proof.
  intros H Hc. unfold strip, rstrip.
  rewrite <- in_rev. apply lstrip_keeps; auto.
  rewrite <- in_rev. now apply lstrip_keeps.
Qed.

Lemma lstrip_incl (s : pystr) (c : char) : In c (lstrip s) -> In c s.
Proof.
  induction s as [|d s IH]; [auto|]. cbn [lstrip].
  destruct (isspace d); [intros H; right; auto | auto].
Qed.

Lemma strip_incl (s : pystr) (c : char) : In c (strip s) -> In c s.
Proof.
  unfold strip, rstrip. intros H.
  rewrite <- in_rev in H. apply lstrip_incl in H.
  rewrite <- in_rev in H. now apply lstrip_incl in H.
Qed.

Lemma lstrip_blank (s : pystr) :
  (forall c, In c s -> isspace c = true) -> lstrip s = [].
Proof.
  induction s as [|d s IH]; intros H; [reflexivity|].
  cbn [lstrip]. rewrite (H d) by now left.
  apply IH. intros c Hc. apply H. now right.
Qed.

Lemma strip_blank (s : pystr) :
  (forall c, In c s -> isspace c = true) -> strip s = [].
Proof.
  intros H. unfold strip, rstrip. now rewrite (lstrip_blank s H).
Qed.

(** A text that strips to nothing is made of whitespace. *)
Lemma strip_nil_blank (s : pystr) :
  strip s = [] -> forall c, In c s -> isspace c = true.
Proof.
  intros E c Hc. destruct (isspace c) eqn:Ec; [reflexivity|].
  pose proof (strip_keeps s c Hc Ec) as H. rewrite E in H. destruct H.
Qed.

Lemma nonempty_In (s : pystr) (c : char) : In c s -> nonempty s = true.
Proof. destruct s; [intros [] | reflexivity]. Qed.

Lemma In_insert_by_len (x y : pystr) (l : list pystr) :
  In y (insert_by_len x l) <-> y = x \/ In y l.
Proof.
  induction l as [|z l IH]; simpl.
  - intuition.
  - destruct (length x <? length z)%nat; simpl; rewrite ?IH; intuition.
Qed.

Lemma In_sorted_by_len_desc (y : pystr) (l : list pystr) :
  In y (sorted_by_len_desc l) <-> In y l.
Proof.
  induction l as [|x l IH]; simpl; [tauto|].
  rewrite In_insert_by_len, IH. intuition.
Qed.

Lemma dict_get_In {V} (d : dict V) (k : pystr) (v : V) :
  dict_get d k = Some v -> In v (List.map snd d).
Proof.
  induction d as [|[k' v'] d IH]; simpl; [discriminate|].
  destruct (str_eqb k k'); [intros [= ->]; now left | auto].
Qed.

(** ** The segmenters *)

(** The loop records every phrase that occurs in the input text, in
    the order in which the phrases are tried. *)
Lemma v3_extract_loop_found (text : pystr) :
  forall phrases found remaining,
    fst (V3.extract_loop text phrases found remaining)
    = found ++ filter (fun p => contains p text) phrases.
Proof.
  induction phrases as [|p ps IH]; intros found remaining; simpl.
  - now rewrite app_nil_r.
  - destruct (contains p text); rewrite IH; [|reflexivity].
    now rewrite <- app_assoc.
Qed.

Lemma v3_found_reserved (lexicon : dict (list pystr)) (text : pystr) :
  V3.found_reserved (V3.extract_reserved_words lexicon text)
  = filter (fun p => contains p text) (sorted_by_len_desc (keys lexicon)).
Proof.
  unfold V3.extract_reserved_words.
  pose proof (v3_extract_loop_found text
                (sorted_by_len_desc (keys lexicon)) [] text) as H.
  destruct (V3.extract_loop text _ [] text) as [found remaining].
  exact H.
Qed.

Lemma ultimate_extract_loop_found (text : pystr) :
  forall phrases found remaining,
    fst (Ultimate.extract_loop text phrases found remaining)
    = found ++ filter (fun p => contains p text) phrases.
Proof.
  induction phrases as [|p ps IH]; intros found remaining; simpl.
  - now rewrite app_nil_r.
  - destruct (contains p text); rewrite IH; [|reflexivity].
    now rewrite <- app_assoc.
Qed.

Lemma ultimate_found_reserved (env : collaborators)
      (self : Ultimate.classifier) (text : pystr) :
  Ultimate.found_reserved
    (Ultimate.process_text_with_reserved_words env self text)
  = filter (fun p => contains p text)
           (sorted_by_len_desc (keys (Ultimate.reserved_words self))).
Proof.
  unfold Ultimate.process_text_with_reserved_words.
  pose proof (ultimate_extract_loop_found text
     (sorted_by_len_desc (keys (Ultimate.reserved_words self))) [] text) as H.
  destruct (Ultimate.extract_loop text _ [] text) as [found remaining].
  exact H.
Qed.

(** A phrase inside a longer matched phrase is recorded as well: the
    test of the loop reads the input text, not what remains of it. *)
Lemma v3_nested_phrase_recorded (lexicon : dict (list pystr))
      (text A B : pystr) :
  In A (keys lexicon) -> In B (keys lexicon) ->
  contains A B = true -> contains B text = true ->
  let found := V3.found_reserved (V3.extract_reserved_words lexicon text) in
  In B found /\ In A found.
Proof.
  intros HA HB HAB HBt. cbn zeta. rewrite v3_found_reserved.
  split; apply filter_In; split;
    try (now apply In_sorted_by_len_desc); auto.
  now apply contains_trans with B.
Qed.

(** The phrases are tried from the longest to the shortest. *)
Lemma insert_by_len_descending (x : pystr) (l : list pystr) :
  StronglySorted (fun a b => length b <= length a) l ->
  StronglySorted (fun a b => length b <= length a) (insert_by_len x l).
Proof.
  induction l as [|y l IH]; intros H; cbn [insert_by_len].
  - repeat constructor.
  - inversion H as [|? ? Hs Hf]; subst.
    destruct (length x <? length y) eqn:E.
    + apply Nat.ltb_lt in E. constructor; [now apply IH|].
      apply Forall_forall. intros z Hz. apply In_insert_by_len in Hz.
      destruct Hz as [->|Hz]; [lia|].
      rewrite Forall_forall in Hf. now apply Hf.
    + apply Nat.ltb_ge in E. constructor; [exact H|].
      constructor; [exact E|].
      rewrite Forall_forall in *. intros z Hz. specialize (Hf z Hz). lia.
Qed.

Lemma sorted_by_len_desc_descending (l : list pystr) :
  StronglySorted (fun a b => length b <= length a) (sorted_by_len_desc l).
Proof.
  induction l as [|x l IH]; [constructor|].
  cbn [sorted_by_len_desc fold_right]. now apply insert_by_len_descending.
Qed.

(** C1.  The phrases are tried from the longest to the shortest, but
    what is recorded is every lexicon phrase that occurs in the input
    text: on the input "防火牆設備" the v3 segmenter records the
    phrase "防火牆設備" and then also the shorter phrase "防火牆" that
    lies inside it; on "資料庫管理系統" the second classifier records
    "資料庫管理系統" and then also "管理系統".  Replacing a match by
    the placeholder does not stop the shorter phrase: the test is made
    on the input text. *)
Theorem C1_shorter_phrase_recorded_inside_longer :
  V3.found_reserved
    (V3.extract_reserved_words V3.reserved_words (u "防火牆設備"))
  = [u "防火牆設備"; u "防火牆"]
  /\ V3.pr_reserved_words
       (V3.process_with_reserved_words char_env V3.reserved_words
          (u "防火牆設備"))
     = [u "防火牆設備"; u "防火牆"]
  /\ Ultimate.found_reserved
       (Ultimate.process_text_with_reserved_words char_env ultimate_example
          (u "資料庫管理系統"))
     = [u "資料庫管理系統"; u "管理系統"]
  /\ (forall lexicon text,
        StronglySorted (fun a b => length b <= length a)
                       (sorted_by_len_desc (keys lexicon))
        /\ V3.found_reserved (V3.extract_reserved_words lexicon text)
           = filter (fun p => contains p text)
                    (sorted_by_len_desc (keys lexicon))).
Proof.
  split; [vm_compute; reflexivity|].
  split; [vm_compute; reflexivity|].
  split; [vm_compute; reflexivity|].
  intros lexicon text. split.
  - apply sorted_by_len_desc_descending.
  - apply v3_found_reserved.
Qed.

(** Every pattern of the rule tables is in the supported syntax. *)
Lemma patterns_supported :
  forallb (fun pattern => match Re.parse pattern with
                          | Some _ => true
                          | None => false
                          end)
          (concat (List.map snd V3.create_category_patterns)
           ++ flat_map (fun kr => get_or_nil (Ultimate.patterns (snd kr)))
                       Ultimate.create_rules)
  = true.
Proof. vm_compute. reflexivity. Qed.

(** The scenarios of the specification on the segmenters: the compound
    terms are kept whole. *)
Example v3_keeps_compound_terms :
  V3.pr_all_tokens
    (V3.process_with_reserved_words char_env V3.reserved_words
       (u "MySQL 資料庫"))
  = [u "MySQL"; u "資料庫"]
  /\ In (u "資料庫管理系統")
        (V3.pr_reserved_words
           (V3.process_with_reserved_words char_env V3.reserved_words
              (u "資料庫管理系統"))).
Proof. split; vm_compute; [reflexivity | tauto]. Qed.

(** *** What the segmenters keep of the input *)

Lemma In_firstn_In {A} (n : nat) (l : list A) (x : A) :
  In x (firstn n l) -> In x l.
Proof.
  revert l; induction n as [|n IH]; intros [|y l]; cbn; try tauto.
  intros [->|H]; [now left | right; auto].
Qed.

Lemma digits_then_close_chars (isd : char -> bool) :
  forall s k, V3.digits_then_close isd s = Some k ->
  forall c, In c (firstn k s) -> isd c = true \/ c = ch "]".
Proof.
  induction s as [|c0 r IH]; intros k E c Hc; [discriminate|].
  cbn [V3.digits_then_close] in E.
  destruct (isd c0) eqn:Ed; [|discriminate].
  destruct (V3.digits_then_close isd r) as [k'|] eqn:Er.
  - injection E as <-. destruct Hc as [<-|Hc]; [now left|].
    now apply (IH k').
  - destruct r as [|d r']; [discriminate|].
    destruct (char_eqb d (ch "]")) eqn:Eb; [|discriminate].
    injection E as <-. apply char_eqb_eq in Eb.
    destruct Hc as [<-|[<-|[]]]; [now left | now right].
Qed.

Lemma match_placeholder_chars (isd : char -> bool) (s : pystr) (n : nat) :
  V3.match_placeholder isd s = Some n ->
  forall c, In c (firstn n s) -> placeholder_char isd c.
Proof.
  unfold V3.match_placeholder.
  destruct (startswith (u "[RESERVED_") s) eqn:Es; [|discriminate].
  apply startswith_app in Es. destruct Es as (t & ->).
  rewrite skipn_app, skipn_all, Nat.sub_diag. cbn [skipn app].
  destruct (V3.digits_then_close isd t) as [k|] eqn:Ek; [|discriminate].
  intros [= <-] c Hc.
  rewrite firstn_app in Hc. apply in_app_or in Hc.
  destruct Hc as [Hc|Hc].
  - apply In_firstn_In in Hc. left.
    change (u "[RESERVED_]") with (u "[RESERVED_" ++ [ch "]"]).
    apply in_or_app. now left.
  - match type of Hc with
    | In _ (firstn ?n _) => replace n with k in Hc by (cbn; lia)
    end.
    destruct (digits_then_close_chars isd t k Ek c Hc) as [H| ->].
    + now right.
    + left. change (u "[RESERVED_]") with (u "[RESERVED_" ++ [ch "]"]).
      apply in_or_app. right. now left.
Qed.

(** No phrase with a visible character occurs in a blank text. *)
Lemma blank_text_no_phrase (lexicon : dict (list pystr)) (text : pystr) :
  phrases_visible lexicon = true -> strip text = [] ->
  filter (fun p => contains p text) (sorted_by_len_desc (keys lexicon)) = [].
Proof.
  intros Hv Hb.
  destruct (filter _ _) as [|p l] eqn:E; [reflexivity|].
  assert (Hp : In p (p :: l)) by now left.
  rewrite <- E in Hp. apply filter_In in Hp. destruct Hp as [Hp Hc].
  rewrite In_sorted_by_len_desc in Hp.
  unfold phrases_visible in Hv. rewrite forallb_forall in Hv.
  specialize (Hv p Hp). apply existsb_exists in Hv.
  destruct Hv as (c & Hc1 & Hc2).
  pose proof (strip_nil_blank text Hb c (contains_In p text c Hc Hc1)) as K.
  rewrite K in Hc2. discriminate.
Qed.

Lemma v3_extract_loop_nothing (text : pystr) :
  forall phrases found remaining,
    filter (fun p => contains p text) phrases = [] ->
    V3.extract_loop text phrases found remaining = (found, remaining).
Proof.
  induction phrases as [|p ps IH]; intros found remaining H; [reflexivity|].
  cbn [V3.extract_loop filter] in *.
  destruct (contains p text); [discriminate | now apply IH].
Qed.

Lemma ultimate_extract_loop_nothing (text : pystr) :
  forall phrases found remaining,
    filter (fun p => contains p text) phrases = [] ->
    Ultimate.extract_loop text phrases found remaining = (found, remaining).
Proof.
  induction phrases as [|p ps IH]; intros found remaining H; [reflexivity|].
  cbn [Ultimate.extract_loop filter] in *.
  destruct (contains p text); [discriminate | now apply IH].
Qed.

(** A blank input gives the v3 segmenter no token at all. *)
Lemma v3_blank_input_no_tokens (env : collaborators)
      (lexicon : dict (list pystr)) (text : pystr) :
  phrases_visible lexicon = true -> strip text = [] ->
  V3.pr_all_tokens (V3.process_with_reserved_words env lexicon text) = [].
Proof.
  intros Hv Hb. unfold V3.process_with_reserved_words,
    V3.extract_reserved_words.
  rewrite v3_extract_loop_nothing by now apply blank_text_no_phrase.
  cbn. now rewrite Hb.
Qed.

(** The same for the second classifier. *)
Lemma ultimate_blank_input_no_tokens (env : collaborators)
      (self : Ultimate.classifier) (text : pystr) :
  phrases_visible (Ultimate.reserved_words self) = true -> strip text = [] ->
  Ultimate.all_tokens
    (Ultimate.process_text_with_reserved_words env self text) = [].
Proof.
  intros Hv Hb. unfold Ultimate.process_text_with_reserved_words.
  rewrite ultimate_extract_loop_nothing by now apply blank_text_no_phrase.
  assert (E : strip (sub_all (match_literal (u "[RESERVED]")) [] text) = []).
  { apply strip_blank. intros c Hc. unfold sub_all in Hc.
    apply sub_scan_adds in Hc. destruct Hc as [Hc|[]].
    now apply (strip_nil_blank text Hb). }
  rewrite E. reflexivity.
Qed.

Lemma v3_original_text (env : collaborators) (lexicon : dict (list pystr))
      (text : pystr) :
  V3.pr_original_text (V3.process_with_reserved_words env lexicon text) = text.
Proof. reflexivity. Qed.

Lemma ultimate_original (env : collaborators) (self : Ultimate.classifier)
      (text : pystr) :
  Ultimate.original (Ultimate.process_text_with_reserved_words env self text)
  = text.
Proof.
  unfold Ultimate.process_text_with_reserved_words.
  now destruct (Ultimate.extract_loop text _ [] text).
Qed.

Lemma cut_into_chars_partitions : partitions (jieba_cut char_env).
Proof.
  intros s. cbn [jieba_cut char_env].
  induction s as [|c s IH]; [reflexivity|]. cbn. now rewrite IH.
Qed.


(** *** The characters of the input through the replacements *)

Lemma erase_app (a b : list tchar) : erase (a ++ b) = erase a ++ erase b.
Proof. apply map_app. Qed.

Lemma erase_inserted (s : pystr) : erase (inserted s) = s.
Proof.
  unfold erase, inserted. rewrite map_map. cbn [fst]. apply map_id.
Qed.

Lemma erase_index_from (s : pystr) : forall i, erase (index_from i s) = s.
Proof.
  induction s as [|c r IH]; intros i; [reflexivity|].
  cbn [index_from erase List.map fst]. f_equal. apply IH.
Qed.

Lemma erase_tsub_scan (m : pystr -> option nat) (repl : list tchar) :
  forall s k,
    erase (tsub_scan m repl k s) = sub_scan m (erase repl) k (erase s).
Proof.
  induction s as [|c r IH]; intros k; [reflexivity|].
  destruct k as [|k]; cbn [tsub_scan sub_scan erase List.map]; [|apply IH].
  change (fst c :: List.map fst r) with (erase (c :: r)).
  destruct (m (erase (c :: r))) as [[|n]|].
  - cbn [erase List.map]. f_equal. apply IH.
  - rewrite erase_app. f_equal. apply IH.
  - cbn [erase List.map]. f_equal. apply IH.
Qed.

Lemma erase_treplace (s : list tchar) (old : pystr) (new : list tchar) :
  erase (treplace s old new) = replace (erase s) old (erase new).
Proof.
  unfold treplace, replace. destruct old as [|o old].
  - rewrite erase_app. f_equal.
    induction s as [|c r IH]; [reflexivity|].
    cbn [flat_map erase List.map]. rewrite erase_app.
    cbn [erase List.map app]. f_equal. f_equal. exact IH.
  - apply erase_tsub_scan.
Qed.

Lemma erase_tlstrip (s : list tchar) : erase (tlstrip s) = lstrip (erase s).
Proof.
  induction s as [|c r IH]; [reflexivity|].
  cbn [tlstrip erase List.map lstrip]. destruct (isspace (fst c));
    [exact IH | reflexivity].
Qed.

Lemma erase_rev (s : list tchar) : erase (rev s) = rev (erase s).
Proof. apply map_rev. Qed.

Lemma erase_tstrip (s : list tchar) : erase (tstrip s) = strip (erase s).
Proof.
  unfold tstrip, strip, rstrip.
  now rewrite erase_rev, erase_tlstrip, erase_rev, erase_tlstrip.
Qed.

Lemma erase_textract_loop (text : pystr) :
  forall phrases found remaining,
    V3.extract_loop text phrases found (erase remaining)
    = (fst (textract_loop text phrases found remaining),
       erase (snd (textract_loop text phrases found remaining))).
Proof.
  induction phrases as [|p ps IH]; intros found remaining; [reflexivity|].
  cbn [V3.extract_loop textract_loop]. cbv zeta.
  destruct (contains p text); [|apply IH].
  rewrite <- IH, erase_treplace, erase_inserted. reflexivity.
Qed.

(** What a stripped text is cut out of. *)
Lemma tlstrip_suffix (s : list tchar) : exists w, s = w ++ tlstrip s.
Proof.
  induction s as [|c r (w & IH)]; [now exists []|]. cbn [tlstrip].
  destruct (isspace (fst c)); [|now exists []].
  exists (c :: w). cbn [app]. now rewrite <- IH.
Qed.

Lemma tstrip_infix (s : list tchar) : exists a b, s = a ++ tstrip s ++ b.
Proof.
  unfold tstrip. destruct (tlstrip_suffix s) as (a & Ha).
  destruct (tlstrip_suffix (rev (tlstrip s))) as (w & Hw).
  exists a, (rev w). rewrite <- rev_app_distr, <- Hw, rev_involutive.
  exact Ha.
Qed.

Lemma tlstrip_keeps (s : list tchar) (x : tchar) :
  In x s -> isspace (fst x) = false -> In x (tlstrip s).
Proof.
  intros H Hx. induction s as [|c r IH]; [destruct H|]. cbn [tlstrip].
  destruct (isspace (fst c)) eqn:E; [|exact H].
  destruct H as [->|H]; [congruence | now apply IH].
Qed.

Lemma tstrip_keeps (s : list tchar) (x : tchar) :
  In x s -> isspace (fst x) = false -> In x (tstrip s).
Proof.
  intros H Hx. unfold tstrip. rewrite <- in_rev.
  apply tlstrip_keeps; [|exact Hx]. rewrite <- in_rev.
  now apply tlstrip_keeps.
Qed.

(** *** Neighbours *)

Lemma neighbours_space_l (y : tchar) : neighbours space_inserted y.
Proof. unfold neighbours, space_inserted. cbn. now destruct (snd y). Qed.

Lemma neighbours_space_r (y : tchar) : neighbours y space_inserted.
Proof. unfold neighbours, space_inserted. cbn. now destruct (snd y). Qed.

Lemma Sorted_app_inv {A} (R : A -> A -> Prop) (a b : list A) :
  Sorted R (a ++ b) -> Sorted R a /\ Sorted R b.
Proof.
  induction a as [|x a IH]; cbn [app]; intros H.
  - split; [constructor | exact H].
  - apply Sorted_inv in H. destruct H as [H1 H2].
    destruct (IH H1) as [Ha Hb]. split; [|exact Hb].
    constructor; [exact Ha|]. destruct a; [constructor|].
    cbn [app] in H2. apply HdRel_inv in H2. now constructor.
Qed.

Lemma Sorted_inserted (s : pystr) : Sorted neighbours (inserted s).
Proof.
  induction s as [|c r IH]; [constructor|].
  cbn [inserted List.map]. constructor; [exact IH|].
  destruct r; [constructor|]. constructor. exact I.
Qed.

(** A block that ends with the inserted space can be followed by
    anything that is in order. *)
Lemma Sorted_block_app (block rest : list tchar) :
  Sorted neighbours (block ++ [space_inserted]) ->
  Sorted neighbours rest ->
  Sorted neighbours ((block ++ [space_inserted]) ++ rest).
Proof.
  intros Hb Hr. induction block as [|x block IH]; cbn [app] in *.
  - constructor; [exact Hr|]. destruct rest; constructor.
    apply neighbours_space_l.
  - apply Sorted_inv in Hb. destruct Hb as [Hb Hx].
    constructor; [now apply IH|].
    destruct block; cbn [app] in *; apply HdRel_inv in Hx;
      now constructor.
Qed.

(** The form of a placeholder: inserted characters between two spaces. *)
Lemma placeholder_block (n : nat) :
  exists middle,
    inserted (V3.placeholder n)
    = (space_inserted :: inserted middle) ++ [space_inserted].
Proof.
  exists (u "[RESERVED_" ++ str_of_nat n ++ u "]").
  unfold V3.placeholder, inserted.
  change (u " [RESERVED_") with (ch " " :: u "[RESERVED_").
  change (u "] ") with (u "]" ++ [ch " "]).
  cbn [app List.map]. unfold space_inserted. f_equal.
  rewrite !map_app. rewrite <- !app_assoc. reflexivity.
Qed.

Lemma Sorted_block (middle : pystr) :
  Sorted neighbours ((space_inserted :: inserted middle) ++ [space_inserted]).
Proof.
  replace ((space_inserted :: inserted middle) ++ [space_inserted])
    with (inserted ((ch " " :: middle) ++ [ch " "])).
  - apply Sorted_inserted.
  - unfold inserted. rewrite map_app. reflexivity.
Qed.

(** Replacing matches by such a block keeps the neighbours in order. *)
Lemma tsub_scan_sorted (m : pystr -> option nat) (middle : pystr) :
  let block := (space_inserted :: inserted middle) ++ [space_inserted] in
  forall s k prev,
    Sorted neighbours s ->
    (forall y, neighbours prev y) \/ (k = O /\ HdRel neighbours prev s) ->
    Sorted neighbours (tsub_scan m block k s)
    /\ HdRel neighbours prev (tsub_scan m block k s).
Proof.
  intros block. induction s as [|c r IH]; intros k prev Hs Hp.
  - destruct k; cbn; split; constructor.
  - apply Sorted_inv in Hs. destruct Hs as [Hr Hc].
    destruct k as [|k]; cbn [tsub_scan].
    + assert (Keep : Sorted neighbours (c :: tsub_scan m block O r)
                     /\ HdRel neighbours prev (c :: tsub_scan m block O r)).
      { destruct (IH O c Hr (or_intror (conj eq_refl Hc))) as [H1 H2].
        split; [now constructor|]. constructor.
        destruct Hp as [Hp|[_ Hp]]; [apply Hp | now apply HdRel_inv in Hp]. }
      destruct (m (erase (c :: r))) as [[|n]|]; try exact Keep.
      destruct (IH n space_inserted Hr (or_introl neighbours_space_l))
        as [H1 H2].
      split.
      * apply Sorted_block_app; [apply Sorted_block | exact H1].
      * unfold block. cbn [app]. constructor. apply neighbours_space_r.
    + apply IH; [exact Hr|]. left.
      destruct Hp as [Hp|[K _]]; [exact Hp | discriminate K].
Qed.

(** The same for the replacement of the empty phrase, which puts the
    block before every character and at the end. *)
Lemma interleave_sorted (middle : pystr) :
  let block := (space_inserted :: inserted middle) ++ [space_inserted] in
  forall s,
    Sorted neighbours (flat_map (fun c => c :: block) s).
Proof.
  intros block. induction s as [|c r IH]; [constructor|].
  cbn [flat_map]. constructor.
  - change (block ++ flat_map (fun c0 => c0 :: block) r)
      with (((space_inserted :: inserted middle) ++ [space_inserted])
            ++ flat_map (fun c0 => c0 :: block) r).
    apply Sorted_block_app; [apply Sorted_block | exact IH].
  - unfold block. cbn [app]. constructor. apply neighbours_space_r.
Qed.

Lemma treplace_sorted (s : list tchar) (old : pystr) (n : nat) :
  Sorted neighbours s ->
  Sorted neighbours (treplace s old (inserted (V3.placeholder n))).
Proof.
  intros Hs. destruct (placeholder_block n) as (middle & ->).
  unfold treplace. destruct old as [|o old].
  - apply Sorted_block_app; [apply Sorted_block | apply interleave_sorted].
  - apply (tsub_scan_sorted (match_literal (o :: old)) middle s O
             space_inserted Hs (or_introl neighbours_space_l)).
Qed.

(** A replacement adds only inserted characters. *)
Lemma tsub_scan_adds (m : pystr -> option nat) (repl : list tchar) :
  forall s k x, In x (tsub_scan m repl k s) -> In x s \/ In x repl.
Proof.
  induction s as [|c r IH]; intros k x H; [destruct H|].
  destruct k as [|k]; cbn [tsub_scan] in H.
  - destruct (m (erase (c :: r))) as [[|n]|].
    + destruct H as [<-|H]; [left; now left|].
      destruct (IH _ _ H); [left; now right | now right].
    + apply in_app_or in H. destruct H as [H|H]; [now right|].
      destruct (IH _ _ H); [left; now right | now right].
    + destruct H as [<-|H]; [left; now left|].
      destruct (IH _ _ H); [left; now right | now right].
  - destruct (IH _ _ H); [left; now right | now right].
Qed.

Lemma treplace_adds (s : list tchar) (old : pystr) (new : list tchar)
      (x : tchar) :
  In x (treplace s old new) -> In x s \/ In x new.
Proof.
  unfold treplace. destruct old as [|o old].
  - intros H. apply in_app_or in H. destruct H as [H|H]; [now right|].
    apply in_flat_map in H. destruct H as (c & Hc & [<-|H]);
      [now left | now right].
  - apply tsub_scan_adds.
Qed.

Lemma from_text_inserted (text s : pystr) (x : tchar) :
  In x (inserted s) -> from_text text x.
Proof.
  unfold inserted. rewrite in_map_iff. intros (c & <- & _). exact I.
Qed.

Lemma treplace_from_text (text : pystr) (s : list tchar) (old new : pystr) :
  Forall (from_text text) s ->
  Forall (from_text text) (treplace s old (inserted new)).
Proof.
  rewrite !Forall_forall. intros H x Hx.
  destruct (treplace_adds _ _ _ _ Hx) as [K|K];
    [now apply H | now apply (from_text_inserted text new)].
Qed.

(** A character is kept by a replacement unless it lies in a match. *)
Lemma tsub_scan_keeps (m : pystr -> option nat) (repl : list tchar)
      (Inv : list tchar -> Prop) (P : tchar -> Prop) :
  (forall c r, Inv (c :: r) -> Inv r) ->
  (forall b n, Inv b -> m (erase b) = Some n ->
               forall x, In x (firstn n b) -> P x) ->
  forall s skip x,
    Inv s -> (forall d, In d (firstn skip s) -> P d) ->
    In x s -> In x (tsub_scan m repl skip s) \/ P x.
Proof.
  intros Htl Hm. induction s as [|c r IH]; intros skip x Hi Hs Hx;
    [destruct Hx|].
  pose proof (Htl _ _ Hi) as Hr.
  destruct skip as [|k]; cbn [tsub_scan].
  - destruct (m (erase (c :: r))) as [[|n]|] eqn:E.
    + destruct Hx as [<-|Hx]; [left; now left|].
      destruct (IH O x Hr (fun d (H : In d (firstn O r)) =>
                             match H with end) Hx) as [K|K];
        [left; now right | now right].
    + pose proof (Hm _ _ Hi E) as Hspan. cbn [firstn] in Hspan.
      destruct Hx as [<-|Hx]; [right; apply Hspan; now left|].
      destruct (IH n x Hr (fun d H => Hspan d (or_intror H)) Hx) as [K|K];
        [left; apply in_or_app; now right | now right].
    + destruct Hx as [<-|Hx]; [left; now left|].
      destruct (IH O x Hr (fun d (H : In d (firstn O r)) =>
                             match H with end) Hx) as [K|K];
        [left; now right | now right].
  - cbn [firstn] in Hs. destruct Hx as [<-|Hx]; [right; apply Hs; now left|].
    apply (IH k x Hr); [|exact Hx]. intros d Hd. apply Hs. now right.
Qed.

Lemma erase_firstn (n : nat) (s : list tchar) :
  erase (firstn n s) = firstn n (erase s).
Proof. unfold erase. symmetry. apply firstn_map. Qed.

Lemma startswith_firstn (p s : pystr) :
  startswith p s = true -> firstn (length p) s = p.
Proof.
  intros H. apply startswith_app in H. destruct H as (t & ->).
  rewrite firstn_app, firstn_all, Nat.sub_diag. cbn [firstn].
  apply app_nil_r.
Qed.

(** A character of the input is kept by the replacement of a phrase
    unless it is a character of the phrase. *)
Lemma treplace_keeps (s : list tchar) (old : pystr) (new : list tchar)
      (x : tchar) :
  In x s -> In x (treplace s old new) \/ In (fst x) old.
Proof.
  intros Hx. unfold treplace. destruct old as [|o old].
  - left. apply in_or_app. right. apply in_flat_map. exists x.
    split; [exact Hx | now left].
  - apply (tsub_scan_keeps (match_literal (o :: old)) new
             (fun _ => True) (fun y => In (fst y) (o :: old)));
      auto; [|intros d []].
    intros b n _ Hm y Hy. unfold match_literal in Hm.
    destruct (startswith (o :: old) (erase b)) eqn:E; [|discriminate].
    injection Hm as <-. apply startswith_firstn in E.
    rewrite <- E, <- erase_firstn. unfold erase. apply in_map_iff.
    now exists y.
Qed.

(** The loop of the segmenter on the characters with their indices:
    the neighbours stay in order, and a character of the input is in
    what remains or in a recorded phrase. *)
Lemma textract_loop_invariant (text : pystr) :
  forall phrases found remaining,
    Sorted neighbours remaining -> Forall (from_text text) remaining ->
    let fr := textract_loop text phrases found remaining in
    Sorted neighbours (snd fr) /\ Forall (from_text text) (snd fr)
    /\ forall x, In x remaining ->
                 In x (snd fr) \/ exists p, In p (fst fr) /\ In (fst x) p.
Proof.
  induction phrases as [|p ps IH]; intros found remaining Hs Hf; cbv zeta.
  - cbn [textract_loop fst snd]. auto.
  - cbn [textract_loop]. cbv zeta. destruct (contains p text).
    + destruct (IH (found ++ [p])
                   (treplace remaining p
                      (inserted (V3.placeholder (length (found ++ [p])))))
                   (treplace_sorted _ _ _ Hs)
                   (treplace_from_text _ _ _ _ Hf)) as (H1 & H2 & H3).
      split; [exact H1|]. split; [exact H2|]. intros x Hx.
      destruct (treplace_keeps remaining p
                  (inserted (V3.placeholder (length (found ++ [p]))))
                  x Hx) as [K|K].
      * now apply H3.
      * right. exists p. split; [|exact K].
        assert (G : forall qs f r, incl f (fst (textract_loop text qs f r))).
        { clear. induction qs as [|q qs IHq]; intros f r y Hy; [exact Hy|].
          cbn [textract_loop]. cbv zeta. destruct (contains q text).
          - apply IHq. apply in_or_app. now left.
          - now apply IHq. }
        apply G. apply in_or_app. right. now left.
    + now apply IH.
Qed.

(** The input with its indices. *)
Lemma index_from_spec (text : pystr) :
  forall s pre, text = pre ++ s ->
    Sorted neighbours (index_from (length pre) s)
    /\ Forall (from_text text) (index_from (length pre) s)
    /\ forall i c, nth_error s i = Some c ->
                   In (c, Some (length pre + i)) (index_from (length pre) s).
Proof.
  induction s as [|c r IH]; intros pre E.
  - split; [constructor|]. split; [constructor|]. intros [|i] c H;
      discriminate H.
  - destruct (IH (pre ++ [c])) as (H1 & H2 & H3).
    { now rewrite <- app_assoc. }
    rewrite length_app in *. cbn [length] in *.
    replace (length pre + 1) with (S (length pre)) in * by lia.
    cbn [index_from]. split; [|split].
    + constructor; [exact H1|]. destruct r; [constructor|].
      cbn [index_from]. constructor. reflexivity.
    + constructor; [|exact H2]. unfold from_text. cbn [fst snd].
      rewrite E, nth_error_app2, Nat.sub_diag by lia. reflexivity.
    + intros [|i] d H; cbn [nth_error] in H.
      * injection H as <-. rewrite Nat.add_0_r. now left.
      * right. replace (length pre + S i) with (S (length pre) + i) by lia.
        now apply H3.
Qed.

(** *** A placeholder in the remaining text *)

Lemma startswith_prefix (p t : pystr) : startswith p (p ++ t) = true.
Proof.
  induction p as [|c p IH]; [reflexivity|]. cbn [app startswith].
  unfold char_eqb. now rewrite N.eqb_refl, IH.
Qed.

(** The match of [\d+\]] is decided by the characters it takes. *)
Lemma digits_then_close_prefix (isd : char -> bool) :
  isd (ch "]") = false ->
  forall s k, V3.digits_then_close isd s = Some k ->
    length (firstn k s) = k
    /\ forall t, V3.digits_then_close isd (firstn k s ++ t) = Some k.
Proof.
  intros Hb. induction s as [|c r IH]; intros k E; [discriminate|].
  cbn [V3.digits_then_close] in E.
  destruct (isd c) eqn:Ec; [|discriminate].
  destruct (V3.digits_then_close isd r) as [k'|] eqn:Er.
  - injection E as <-. destruct (IH k' eq_refl) as [H1 H2].
    cbn [firstn length app]. split; [now rewrite H1|].
    intros t. cbn [V3.digits_then_close]. now rewrite Ec, H2.
  - destruct r as [|d r']; [discriminate|].
    destruct (char_eqb d (ch "]")) eqn:Ed; [|discriminate].
    injection E as <-. cbn [firstn length app]. split; [reflexivity|].
    intros t. cbn [V3.digits_then_close]. rewrite Ec, Ed.
    apply char_eqb_eq in Ed. subst d. now rewrite Hb.
Qed.

Lemma match_placeholder_prefix (isd : char -> bool) (s : pystr) (n : nat) :
  isd (ch "]") = false ->
  V3.match_placeholder isd s = Some n ->
  length (firstn n s) = n
  /\ forall t, V3.match_placeholder isd (firstn n s ++ t) = Some n.
Proof.
  intros Hb. unfold V3.match_placeholder. cbv zeta.
  remember (u "[RESERVED_") as opening eqn:Ho.
  destruct (startswith opening s) eqn:Es; [|discriminate].
  apply startswith_app in Es. destruct Es as (r & ->).
  rewrite skipn_app, skipn_all, Nat.sub_diag. cbn [skipn app].
  destruct (V3.digits_then_close isd r) as [k|] eqn:Ek; [|discriminate].
  intros [= <-].
  destruct (digits_then_close_prefix isd Hb r k Ek) as [H1 H2].
  rewrite firstn_app.
  replace (length opening + k - length opening) with k by lia.
  rewrite firstn_all2 by lia.
  split; [rewrite length_app, H1; reflexivity|].
  intros t. rewrite <- app_assoc, startswith_prefix.
  rewrite skipn_app, skipn_all, Nat.sub_diag. cbn [skipn app].
  now rewrite H2.
Qed.

Lemma skipn_nth_error {A} (l : list A) (i : nat) (x : A) :
  nth_error l i = Some x -> skipn i l = x :: skipn (S i) l.
Proof.
  revert l. induction i as [|i IH]; intros [|y l] H; try discriminate.
  - now injection H as ->.
  - cbn [skipn]. now apply IH.
Qed.

(** A run of characters of the input without a space is a piece of
    the input. *)
Lemma run_of_the_input (text : pystr) :
  forall (s : list tchar) (c : char) (i : nat),
    Sorted neighbours ((c, Some i) :: s) ->
    Forall (from_text text) ((c, Some i) :: s) ->
    (forall x, In x s -> fst x <> ch " ") ->
    (exists rest, skipn i text = erase ((c, Some i) :: s) ++ rest)
    /\ forall x, In x ((c, Some i) :: s) ->
         exists k, snd x = Some k /\ i <= k < i + S (length s).
Proof.
  induction s as [|[d t] s IH]; intros c i Hs Hf Hn.
  - apply Forall_inv in Hf. unfold from_text in Hf. cbn [fst snd] in Hf.
    split.
    + exists (skipn (S i) text). now apply skipn_nth_error.
    + intros x [<-|[]]. exists i. cbn. split; [reflexivity | lia].
  - pose proof (Forall_inv Hf) as Hc. unfold from_text in Hc.
    cbn [fst snd] in Hc.
    apply Sorted_inv in Hs. destruct Hs as [Hs Hh].
    apply HdRel_inv in Hh. unfold neighbours in Hh. cbn [fst snd] in Hh.
    destruct t as [j|].
    + subst j.
      destruct (IH d (S i) Hs (Forall_inv_tail Hf)
                  (fun x H => Hn x (or_intror H))) as [(rest & E) H2].
      split.
      * exists rest. rewrite (skipn_nth_error _ _ _ Hc), E. reflexivity.
      * intros x [<-|Hx].
        -- exists i. cbn. split; [reflexivity | lia].
        -- destruct (H2 x Hx) as (k & Hk & Hr). exists k.
           cbn [length]. split; [exact Hk | lia].
    + exfalso. apply (Hn (d, None)); [now left | exact Hh].
Qed.

Lemma all_inserted (s : list tchar) (c : char) :
  Sorted neighbours ((c, None) :: s) ->
  (forall x, In x ((c, None) :: s) -> fst x <> ch " ") ->
  forall x, In x ((c, None) :: s) -> snd x = None.
Proof.
  revert c. induction s as [|[d t] s IH]; intros c Hs Hn x Hx.
  - destruct Hx as [<-|[]]. reflexivity.
  - apply Sorted_inv in Hs. destruct Hs as [Hs Hh].
    apply HdRel_inv in Hh. unfold neighbours in Hh. cbn [fst snd] in Hh.
    destruct t as [j|].
    + exfalso. apply (Hn (c, None)); [now left | exact Hh].
    + destruct Hx as [<-|Hx]; [reflexivity|].
      apply (IH d Hs); [|exact Hx]. intros y Hy. apply Hn. now right.
Qed.

Lemma placeholder_char_not_space (isd : char -> bool) (c : char) :
  isd (ch " ") = false -> placeholder_char isd c -> c <> ch " ".
Proof.
  intros Hd [H|H] ->; [|congruence].
  vm_compute in H. repeat (destruct H as [H|H]; [discriminate H|]).
  exact H.
Qed.

(** The characters of the input that a match of the placeholder
    pattern takes from the remaining text lie inside a text of the
    input that has the form of a placeholder. *)
Lemma placeholder_span (isd : char -> bool) (text : pystr)
      (b : list tchar) (n : nat) :
  digit_class isd ->
  Sorted neighbours b -> Forall (from_text text) b ->
  V3.match_placeholder isd (erase b) = Some n ->
  forall x, In x (firstn n b) ->
    match snd x with
    | Some i => inside_placeholder isd text i = true
    | None => True
    end.
Proof.
  intros [Hsp Hcl] Hs Hf Hm.
  destruct (match_placeholder_prefix isd _ _ Hcl Hm) as [Hlen Hpre].
  assert (Hn : forall x, In x (firstn n b) -> fst x <> ch " ").
  { intros x Hx. apply (placeholder_char_not_space isd _ Hsp).
    apply (match_placeholder_chars isd (erase b) n Hm).
    rewrite <- erase_firstn. unfold erase. apply in_map_iff. now exists x. }
  rewrite <- (firstn_skipn n b) in Hs, Hf.
  apply Sorted_app_inv in Hs. destruct Hs as [Hs _].
  apply Forall_app in Hf. destruct Hf as [Hf _].
  rewrite <- erase_firstn in Hlen, Hpre.
  destruct (firstn n b) as [|[c [i|]] s] eqn:Eb; [intros x []| |].
  - destruct (run_of_the_input text s c i Hs Hf
                (fun x H => Hn x (or_intror H))) as [(rest & E) H2].
    intros x Hx. destruct (H2 x Hx) as (k & -> & Hk).
    unfold inside_placeholder. apply existsb_exists. exists i.
    split; [apply in_seq; lia|].
    rewrite E, Hpre. apply Nat.ltb_lt.
    unfold erase in Hlen. rewrite length_map in Hlen. cbn [length] in Hlen.
    destruct Hk as [_ Hk]. rewrite <- Hlen. exact Hk.
  - intros x Hx. now rewrite (all_inserted s c Hs Hn x Hx).
Qed.

(** C2 (as amended).  With a tokenizer whose tokens make up its input,
    every character of the input of the v3 segmenter that is not
    whitespace occurs in a token of [reserved_words ++ regular_words],
    unless it lies inside a text of the input that itself has the form
    of a placeholder, [[RESERVED_<digits>]], which the segmenter
    removes like the placeholders it wrote; the result carries the
    input text unchanged.  There is no fallback for an input that is
    blank after cleaning: both segmenters then return an empty token
    list, next to the unchanged input text. *)
Theorem C2_v3_tokens_cover_visible_characters
        (env : collaborators) (lexicon : dict (list pystr))
        (text : pystr) (i : nat) (c : char) :
  partitions (jieba_cut env) ->
  digit_class (re_digit env) ->
  nth_error text i = Some c -> isspace c = false ->
  inside_placeholder (re_digit env) text i = false ->
  let r := V3.process_with_reserved_words env lexicon text in
  (exists w, In w (V3.pr_reserved_words r ++ V3.pr_regular_words r)
             /\ In c w)
  /\ V3.pr_original_text r = text
  /\ (forall blank rows fitted vectors,
        strip blank = [] ->
        V3.pr_all_tokens
          (V3.process_with_reserved_words env V3.reserved_words blank) = []
        /\ Ultimate.all_tokens
             (Ultimate.process_text_with_reserved_words env
                (Ultimate.init rows fitted vectors) blank) = []
        /\ Ultimate.original
             (Ultimate.process_text_with_reserved_words env
                (Ultimate.init rows fitted vectors) blank) = blank).
Proof.
  intros Hcut Hd Hc Hsp Hph. cbn zeta. split; [|split].
  - unfold V3.process_with_reserved_words, V3.extract_reserved_words.
    cbv zeta.
    destruct (index_from_spec text text [] eq_refl) as (S0 & F0 & M0).
    cbn [length] in S0, F0, M0. specialize (M0 i c Hc). cbn [Nat.add] in M0.
    destruct (textract_loop_invariant text
                (sorted_by_len_desc (keys lexicon)) [] (index_from O text)
                S0 F0) as (S1 & F1 & K1).
    specialize (K1 _ M0).
    pose proof (erase_textract_loop text
                  (sorted_by_len_desc (keys lexicon)) []
                  (index_from O text)) as E.
    rewrite erase_index_from in E. rewrite E. clear E.
    destruct (textract_loop text (sorted_by_len_desc (keys lexicon)) []
                (index_from O text)) as [found remaining].
    cbn [fst snd] in *.
    cbn [V3.found_reserved V3.remaining_text V3.pr_reserved_words
         V3.pr_regular_words].
    destruct K1 as [K|(p & Hp & Hcp)].
    + rewrite <- erase_tstrip.
      apply (tstrip_keeps _ _) in K; [|exact Hsp].
      destruct (tstrip_infix remaining) as (a & b & Einf).
      rewrite Einf in S1, F1.
      apply Sorted_app_inv in S1. destruct S1 as [_ S1].
      apply Sorted_app_inv in S1. destruct S1 as [S1 _].
      apply Forall_app in F1. destruct F1 as [_ F1].
      apply Forall_app in F1. destruct F1 as [F1 _].
      set (stripped := tstrip remaining) in *.
      assert (K0 : In c (erase stripped)).
      { unfold erase. apply in_map_iff. now exists (c, Some i). }
      rewrite (nonempty_In _ _ K0).
      destruct (tsub_scan_keeps (V3.match_placeholder (re_digit env)) []
                  (fun b => Sorted neighbours b
                            /\ Forall (from_text text) b)
                  (fun x => match snd x with
                            | Some k =>
                                inside_placeholder (re_digit env) text k
                                = true
                            | None => True
                            end))
        with (s := stripped) (skip := O) (x := (c, Some i)) as [G|G].
      * intros d r [H1 H2]. split; [now apply Sorted_inv in H1|].
        now apply Forall_inv_tail in H2.
      * intros d n [H1 H2] Hm. now apply (placeholder_span _ text d n).
      * now split.
      * intros d [].
      * exact K.
      * assert (G1 : In c (sub_all (V3.match_placeholder (re_digit env)) []
                             (erase stripped))).
        { unfold sub_all.
          change (@nil char) with (erase []) at 1.
          rewrite <- erase_tsub_scan. unfold erase. apply in_map_iff.
          now exists (c, Some i). }
        apply (strip_keeps _ _) in G1; [|exact Hsp].
        rewrite (nonempty_In _ _ G1).
        rewrite <- (Hcut (strip _)) in G1. apply in_concat in G1.
        destruct G1 as (w & Hw & Hcw).
        exists w. split; [|exact Hcw].
        apply in_or_app. right. apply filter_In. split; [exact Hw|].
        apply Nat.ltb_lt.
        pose proof (strip_keeps w c Hcw Hsp) as Hs.
        destruct (strip w); [destruct Hs | cbn; lia].
      * cbn [snd] in G. congruence.
    + exists p. split; [|exact Hcp]. apply in_or_app. now left.
  - apply v3_original_text.
  - intros blank rows fitted vectors Hb. split; [|split].
    + now apply v3_blank_input_no_tokens.
    + now apply ultimate_blank_input_no_tokens.
    + apply ultimate_original.
Qed.

Lemma ascii_digit_class : digit_class (re_digit char_env).
Proof. split; reflexivity. Qed.

Lemma C2_witness :
  partitions (jieba_cut char_env)
  /\ digit_class (re_digit char_env)
  /\ nth_error (u "Server 2019 DVD") 12 = Some (ch "D")
  /\ isspace (ch "D") = false
  /\ inside_placeholder (re_digit char_env) (u "Server 2019 DVD") 12 = false
  /\ (exists w,
        In w (V3.pr_reserved_words
                (V3.process_with_reserved_words char_env V3.reserved_words
                   (u "Server 2019 DVD"))
              ++ V3.pr_regular_words
                   (V3.process_with_reserved_words char_env V3.reserved_words
                      (u "Server 2019 DVD")))
        /\ In (ch "D") w).
Proof.
  repeat split; try reflexivity.
  - exact cut_into_chars_partitions.
  - exact (proj1 (C2_v3_tokens_cover_visible_characters
             char_env V3.reserved_words (u "Server 2019 DVD") 12 (ch "D")
             cut_into_chars_partitions ascii_digit_class
             eq_refl eq_refl eq_refl)).
Defined.

(** The input "APIAPI" has two letters A, the tokens of the v3
    segmenter have one: the phrase is recorded once and both its
    occurrences are replaced.  On the empty input the token list is
    empty.  The second classifier drops a leftover of one character.
    And a text of the input that has the form of a placeholder is
    removed by the v3 segmenter with the placeholders it wrote: of
    "x[RESERVED_7]y" only "x" and "y" are left. *)
Lemma C2_counterexample :
  (count_char (ch "A")
     (V3.pr_reserved_words
        (V3.process_with_reserved_words char_env V3.reserved_words
           (u "APIAPI"))
      ++ V3.pr_regular_words
           (V3.process_with_reserved_words char_env V3.reserved_words
              (u "APIAPI")))
   < count_char (ch "A") [u "APIAPI"])%nat
  /\ V3.pr_all_tokens
       (V3.process_with_reserved_words char_env V3.reserved_words []) = []
  /\ Ultimate.all_tokens
       (Ultimate.process_text_with_reserved_words char_env ultimate_example
          (u "牆")) = []
  /\ V3.pr_reserved_words
       (V3.process_with_reserved_words char_env V3.reserved_words
          (u "x[RESERVED_7]y"))
     ++ V3.pr_regular_words
          (V3.process_with_reserved_words char_env V3.reserved_words
             (u "x[RESERVED_7]y"))
     = [u "x"; u "y"].
Proof. repeat split; vm_compute; (lia || reflexivity). Qed.

(** C3 (as amended).  In the v3 segmenter [all_tokens] is
    [reserved_words ++ regular_words], where [reserved_words] are the
    lexicon phrases that occur in the input, in the order of the
    length-sorted lexicon, and every regular word is a token of the
    generic tokenizer.  In the second classifier [all_tokens] is
    [expanded_tokens ++ remaining_words], where [expanded_tokens] holds
    the expansions of the found phrases, not the phrases. *)
Theorem C3_all_tokens_is_a_concatenation
        (env : collaborators) (lexicon : dict (list pystr))
        (self : Ultimate.classifier) (text : pystr) :
  let r := V3.process_with_reserved_words env lexicon text in
  let p := Ultimate.process_text_with_reserved_words env self text in
  V3.pr_all_tokens r = V3.pr_reserved_words r ++ V3.pr_regular_words r
  /\ V3.pr_reserved_words r
     = filter (fun w => contains w text) (sorted_by_len_desc (keys lexicon))
  /\ (forall w, In w (V3.pr_regular_words r) ->
                exists s, In w (jieba_cut env s))
  /\ Ultimate.all_tokens p
     = Ultimate.expanded_tokens p ++ Ultimate.remaining_words p
  /\ Ultimate.expanded_tokens p
     = Ultimate.expand (Ultimate.reserved_words self)
                       (Ultimate.found_reserved p)
  /\ Ultimate.found_reserved p
     = filter (fun w => contains w text)
              (sorted_by_len_desc (keys (Ultimate.reserved_words self))).
Proof.
  cbv zeta. repeat split.
  - apply (v3_found_reserved lexicon text).
  - unfold V3.process_with_reserved_words. cbn [V3.pr_regular_words].
    intros w Hw.
    destruct (nonempty _); [|destruct Hw].
    destruct (nonempty _); [|destruct Hw].
    apply filter_In in Hw. destruct Hw as [Hw _]. eauto.
  - unfold Ultimate.process_text_with_reserved_words.
    now destruct (Ultimate.extract_loop text _ [] text).
  - unfold Ultimate.process_text_with_reserved_words.
    now destruct (Ultimate.extract_loop text _ [] text).
  - apply ultimate_found_reserved.
Qed.

(** On "防火牆設備" the second classifier returns the expansion
    ["防火牆"; "設備"] in [all_tokens], while its reserved words
    followed by its remaining words are ["防火牆設備"]. *)
Lemma C3_counterexample :
  Ultimate.all_tokens
    (Ultimate.process_text_with_reserved_words char_env ultimate_example
       (u "防火牆設備"))
  = [u "防火牆"; u "設備"]
  /\ Ultimate.found_reserved
       (Ultimate.process_text_with_reserved_words char_env ultimate_example
          (u "防火牆設備"))
     ++ Ultimate.remaining_words
          (Ultimate.process_text_with_reserved_words char_env
             ultimate_example (u "防火牆設備"))
     = [u "防火牆設備"].
Proof. split; vm_compute; reflexivity. Qed.

(** ** Scores *)

Lemma Qltb_lt (a b : Q) : Qltb a b = true <-> (a < b)%Q.
Proof.
  unfold Qltb. rewrite negb_true_iff. split.
  - intros H. apply Qnot_le_lt. intros K.
    apply Qle_bool_iff in K. congruence.
  - intros H. destruct (Qle_bool b a) eqn:E; [|reflexivity].
    apply Qle_bool_iff in E. apply Qlt_not_le in H. contradiction.
Qed.

Lemma Qltb_ge (a b : Q) : Qltb a b = false <-> (b <= a)%Q.
Proof.
  unfold Qltb. rewrite negb_false_iff. apply Qle_bool_iff.
Qed.

Lemma Qlen_nonneg {A} (l : list A) : (0 <= Qlen l)%Q.
Proof. unfold Qlen, Qle. cbn. lia. Qed.

Lemma Qlen_nil {A} : (Qlen (@nil A) == 0)%Q.
Proof. reflexivity. Qed.

Lemma Qlen_cons {A} (x : A) (l : list A) : (Qlen (x :: l) == Qlen l + 1)%Q.
Proof.
  unfold Qlen. cbn [length]. rewrite Nat2Z.inj_succ, <- Z.add_1_r.
  rewrite inject_Z_plus. reflexivity.
Qed.

Lemma Qlen_pos {A} (x : A) (l : list A) : (0 < Qlen (x :: l))%Q.
Proof. pose proof (Qlen_nonneg l). rewrite Qlen_cons. lra. Qed.

Lemma reserved_fold_nonneg (keywords : V3.keyword_tiers) :
  forall l acc, (0 <= fst acc)%Q ->
    (0 <= fst (fold_left (V3.reserved_step keywords) l acc))%Q.
Proof.
  induction l as [|w l IH]; intros [score n] H; [exact H|].
  cbn [fold_left]. apply IH. unfold V3.reserved_step. cbn [fst] in *.
  destruct (V3.found_in _ w); [cbn; lra|].
  destruct (V3.found_in _ w); [cbn; lra|].
  destruct (V3.found_in _ w); cbn; lra.
Qed.

(** The reserved sub-score of v3 lies between 0 and 1. *)
Lemma v3_reserved_score_bounds (self : V3.classifier)
      (tv : V3.text_variants) (category : pystr) :
  (0 <= V3.calculate_reserved_word_score self tv category <= 1)%Q.
Proof.
  unfold V3.calculate_reserved_word_score.
  destruct (dict_get _ category) as [keywords|]; [|lra].
  destruct (V3.tv_reserved_words tv) as [|w l] eqn:E; [lra|].
  pose proof (reserved_fold_nonneg keywords (w :: l) (0%Q, O)) as H.
  destruct (fold_left _ (w :: l) _) as [score n]. cbn [fst] in H.
  destruct (0 <? n)%nat; [|lra].
  split.
  - apply Q.min_glb; [|lra].
    apply Qle_shift_div_l; [apply Qlen_pos|].
    assert (0 <= score)%Q by (apply H; cbn; lra). lra.
  - apply Q.le_min_r.
Qed.

Lemma add_hits_bounds (weight : Q) (all_text : pystr) :
  (0 <= weight)%Q ->
  forall keywords score,
    (score <= V3.add_hits weight keywords all_text score
     <= score + Qlen keywords * weight)%Q.
Proof.
  intros Hw. unfold V3.add_hits.
  induction keywords as [|k l IH]; intros score.
  - cbn [fold_left]. rewrite Qlen_nil. lra.
  - cbn [fold_left]. pose proof (Qlen_nonneg l) as Hl.
    rewrite Qlen_cons.
    destruct (contains (lower k) all_text).
    + specialize (IH (score + weight)%Q). nra.
    + specialize (IH score). nra.
Qed.

(** The keyword sub-score of v3 lies between 0 and 1. *)
Lemma v3_keyword_score_bounds (self : V3.classifier)
      (tv : V3.text_variants) (category : pystr) :
  (0 <= V3.calculate_keyword_score self tv category <= 1)%Q.
Proof.
  unfold V3.calculate_keyword_score.
  destruct (dict_get _ category) as [keywords|]; [|lra].
  cbv zeta.
  set (all_text := lower _).
  pose proof (add_hits_bounds 3 all_text ltac:(lra)
                (V3.strong keywords) 0%Q) as H3.
  set (s3 := V3.add_hits 3 _ _ _) in *.
  pose proof (add_hits_bounds 2 all_text ltac:(lra)
                (V3.medium keywords) s3) as H2.
  set (s2 := V3.add_hits 2 _ _ _) in *.
  pose proof (add_hits_bounds 1 all_text ltac:(lra)
                (V3.weak keywords) s2) as H1.
  set (s1 := V3.add_hits 1 _ _ _) in *.
  destruct (Qltb 0 _) eqn:E; [|lra].
  apply Qltb_lt in E. split.
  - apply Qle_shift_div_l; [exact E | lra].
  - apply Qle_shift_div_r; [exact E | lra].
Qed.

Lemma v3_pattern_score_nonneg (self : V3.classifier)
      (tv : V3.text_variants) (category : pystr) :
  (0 <= V3.calculate_pattern_score self tv category)%Q.
Proof.
  unfold V3.calculate_pattern_score.
  destruct (dict_get _ category) as [patterns|]; [|lra].
  cbv zeta. destruct patterns as [|p l]; [lra|].
  apply Qle_shift_div_l; [apply Qlen_pos|].
  rewrite Qmult_0_l. unfold Qle. cbn. lia.
Qed.

(** Number of hits of a list of words: what the loops of the second
    classifier add up. *)
Lemma fold_hits (test : pystr -> bool) (w : Q) :
  forall l score,
    (fold_left (fun s x => if test x then (s + w)%Q else s) l score
     == score + Qlen (filter test l) * w)%Q.
Proof.
  induction l as [|x l IH]; intros score; cbn [fold_left filter].
  - rewrite Qlen_nil. lra.
  - rewrite IH. destruct (test x); [rewrite Qlen_cons|]; lra.
Qed.

Lemma ultimate_reserved_score_counts (rules : Ultimate.category_rule)
      (p : Ultimate.processed) :
  (Ultimate.reserved_score rules p
   == 3 * Qlen (filter (fun w => mem w (Ultimate.found_reserved p))
                       (get_or_nil (Ultimate.reserved_boost rules))))%Q.
Proof. unfold Ultimate.reserved_score. rewrite fold_hits. lra. Qed.

Lemma ultimate_keyword_score_counts (rules : Ultimate.category_rule)
      (p : Ultimate.processed) :
  (Ultimate.keyword_score rules p
   == Qlen (filter (fun k => contains (lower k)
                               (lower (Ultimate.processed_text p)))
                   (get_or_nil (Ultimate.keywords rules))))%Q.
Proof. unfold Ultimate.keyword_score. cbv zeta. rewrite fold_hits. lra. Qed.

Lemma ultimate_pattern_score_counts (rules : Ultimate.category_rule)
      (p : Ultimate.processed) :
  (Ultimate.pattern_score rules p
   == Qlen (filter (fun k => Re.search k (Ultimate.original p))
                   (get_or_nil (Ultimate.patterns rules))))%Q.
Proof. unfold Ultimate.pattern_score. rewrite fold_hits. lra. Qed.

(** C5 (as amended).  In v3 the reserved sub-score and the keyword
    sub-score lie in [0, 1], for every instance, input and category.
    In the second classifier they are not normalized: the reserved
    sub-score is 3 times the number of boost phrases that were found
    and the keyword sub-score is the number of keywords in the
    processed text. *)
Theorem C5_sub_scores_before_weighting
        (self : V3.classifier) (tv : V3.text_variants)
        (rules : Ultimate.category_rule) (p : Ultimate.processed)
        (category : pystr) :
  (0 <= V3.calculate_reserved_word_score self tv category <= 1)%Q
  /\ (0 <= V3.calculate_keyword_score self tv category <= 1)%Q
  /\ (Ultimate.reserved_score rules p
      == 3 * Qlen (filter (fun w => mem w (Ultimate.found_reserved p))
                          (get_or_nil (Ultimate.reserved_boost rules))))%Q
  /\ (Ultimate.keyword_score rules p
      == Qlen (filter (fun k => contains (lower k)
                                  (lower (Ultimate.processed_text p)))
                      (get_or_nil (Ultimate.keywords rules))))%Q.
Proof.
  split; [apply v3_reserved_score_bounds|].
  split; [apply v3_keyword_score_bounds|].
  split; [apply ultimate_reserved_score_counts|].
  apply ultimate_keyword_score_counts.
Qed.

(** In the second classifier "防火牆設備" scores 3.0 on the reserved
    sub-score and 2.0 on the keyword sub-score of the category
    "實體". *)
Lemma C5_counterexample :
  exists rules,
    dict_get Ultimate.create_rules (u "實體") = Some rules
    /\ (Ultimate.reserved_score rules
          (Ultimate.process_text_with_reserved_words char_env
             ultimate_example (u "防火牆設備")) == 3)%Q
    /\ (Ultimate.keyword_score rules
          (Ultimate.process_text_with_reserved_words char_env
             ultimate_example (u "防火牆設備")) == 2)%Q.
Proof.
  eexists. split; [vm_compute; reflexivity|].
  split; vm_compute; reflexivity.
Qed.

(** ** The exclusion and boost rules *)

(** The adjustment of v3 multiplies the base score by the multiplier
    of the first rule, in the order of the code, whose test holds. *)
Lemma apply_rules_first_match (r : V3.rules) (tv : V3.text_variants)
      (base_score : Q) :
  (V3.apply_rules r tv base_score
   == base_score * first_match (ordered_rules r tv))%Q.
Proof.
  unfold V3.apply_rules, ordered_rules. cbv zeta. cbn [first_match].
  split_tests; lra.
Qed.

Lemma first_match_ordered_range (r : V3.rules) (tv : V3.text_variants) :
  ((2 # 10) <= first_match (ordered_rules r tv) <= 2)%Q.
Proof.
  unfold ordered_rules. cbv zeta. cbn [first_match].
  split_tests; lra.
Qed.

Lemma apply_rules_range (r : V3.rules) (tv : V3.text_variants)
      (base_score : Q) :
  (0 <= base_score)%Q ->
  (base_score * (2 # 10) <= V3.apply_rules r tv base_score
   <= base_score * 2)%Q.
Proof.
  intros H. rewrite apply_rules_first_match.
  pose proof (first_match_ordered_range r tv). nra.
Qed.

Lemma apply_exclusion_rules_nonneg (self : V3.classifier)
      (tv : V3.text_variants) (category : pystr) (base_score : Q) :
  (0 <= base_score)%Q ->
  (0 <= V3.apply_exclusion_rules self tv category base_score)%Q.
Proof.
  intros H. unfold V3.apply_exclusion_rules.
  destruct (dict_get _ category) as [r|]; [|exact H].
  pose proof (apply_rules_range r tv base_score H). lra.
Qed.

Lemma exclude_penalty_cases (rules : Ultimate.category_rule)
      (p : Ultimate.processed) :
  Ultimate.exclude_penalty rules p
  = if any_of (Ultimate.exclude_if_has_reserved rules)
         (fun w => mem w (Ultimate.found_reserved p))
    then 2%Q else 0%Q.
Proof.
  unfold Ultimate.exclude_penalty, any_of, get_or_nil.
  destruct (Ultimate.exclude_if_has_reserved rules) as [l|]; [|reflexivity].
  generalize 0%Q as acc.
  induction l as [|w l IH]; intros acc; cbn [fold_left existsb];
    [reflexivity|].
  rewrite IH. destruct (mem w _); cbn [orb]; [|reflexivity].
  now destruct (existsb _ l).
Qed.

(** C4 (as amended).  The adjustment of v3 tries the rules of a
    category in the order: include list of reserved phrases (x 2.0),
    exclude list of reserved phrases (x 0.2), compound include
    (x 2.0), compound exclude (x 0.2), substring exclude (x 0.3),
    substring include (x 1.5); the first rule whose test holds gives
    the only multiplier.  The compound rules come before the substring
    rules; on the rule table of the program no category has both, and
    there the order of the specification gives the same score.  The
    second classifier has no first-match rule: every boost phrase that
    was found adds 3.0 and the penalty of 2.0 is subtracted besides. *)
Theorem C4_first_matching_rule_in_the_order_of_the_code
        (r : V3.rules) (tv : V3.text_variants) (base_score : Q)
        (rules : Ultimate.category_rule) (p : Ultimate.processed) :
  (V3.apply_rules r tv base_score
   == base_score * first_match (ordered_rules r tv))%Q
  /\ Forall (fun kr => V3.apply_rules (snd kr) tv base_score
                       = adjust_as_specified (snd kr) tv base_score)
            V3.create_exclusion_rules
  /\ (Ultimate.reserved_score rules p
      == 3 * Qlen (filter (fun w => mem w (Ultimate.found_reserved p))
                          (get_or_nil (Ultimate.reserved_boost rules))))%Q
  /\ Ultimate.exclude_penalty rules p
     = (if any_of (Ultimate.exclude_if_has_reserved rules)
             (fun w => mem w (Ultimate.found_reserved p))
        then 2%Q else 0%Q).
Proof.
  split; [apply apply_rules_first_match|].
  split; [|split].
  - repeat constructor.
  - apply ultimate_reserved_score_counts.
  - apply exclude_penalty_cases.
Qed.

(** With a compound rule and a substring rule that both match, the
    code applies the compound rule (x 2.0) where the order of the
    specification gives the substring rule (x 0.3).  In the second
    classifier the category "人員" gets, on "內部人員作業文件", the
    boost for "內部人員" and the penalty for "作業文件" together, and
    "實體" gets two boosts on "防火牆設備網路設備". *)
Lemma C4_counterexample :
  (V3.apply_rules compound_and_substring_rules
     (V3.preprocess_text char_env V3.reserved_words (u "防火牆的設備")) 1
   == 2)%Q
  /\ (adjust_as_specified compound_and_substring_rules
        (V3.preprocess_text char_env V3.reserved_words (u "防火牆的設備")) 1
      == 3 # 10)%Q
  /\ (exists rules,
        dict_get Ultimate.create_rules (u "人員") = Some rules
        /\ (Ultimate.reserved_score rules
              (Ultimate.process_text_with_reserved_words char_env
                 ultimate_example (u "內部人員作業文件")) == 3)%Q
        /\ (Ultimate.exclude_penalty rules
              (Ultimate.process_text_with_reserved_words char_env
                 ultimate_example (u "內部人員作業文件")) == 2)%Q)
  /\ (exists rules,
        dict_get Ultimate.create_rules (u "實體") = Some rules
        /\ (Ultimate.reserved_score rules
              (Ultimate.process_text_with_reserved_words char_env
                 ultimate_example (u "防火牆設備網路設備")) == 6)%Q).
Proof.
  split; [vm_compute; reflexivity|].
  split; [vm_compute; reflexivity|].
  split.
  - eexists. split; [vm_compute; reflexivity|].
    split; vm_compute; reflexivity.
  - eexists. split; vm_compute; reflexivity.
Qed.

Lemma str_eqb_refl (a : pystr) : str_eqb a a = true.
Proof. now apply str_eqb_eq. Qed.

Lemma dict_get_set {V} (d : dict V) (k : pystr) (v : V) :
  dict_get (dict_set d k v) k = Some v.
Proof.
  induction d as [|[k' v'] d IH]; cbn.
  - now rewrite str_eqb_refl.
  - destruct (str_eqb k k') eqn:E; cbn; rewrite E; [reflexivity | exact IH].
Qed.

(** C6.  Let a category have the rules [r] and let the base score be
    non-negative, as the weighted sum of the sub-scores is.  When one
    of the matched reserved phrases is on the include list of [r], the
    adjusted score is at least the score adjusted with the rules
    without that list; when one is on the exclude list, the adjusted
    score is at most the score adjusted with the rules without that
    list. *)
Theorem C6_boost_and_exclude_are_monotone
        (self : V3.classifier) (tv : V3.text_variants) (category : pystr)
        (r : V3.rules) (base_score : Q) :
  dict_get (V3.exclusion_rules self) category = Some r ->
  (0 <= base_score)%Q ->
  (any_of (V3.include_reserved_words r)
          (fun w => mem w (V3.tv_reserved_words tv)) = true ->
   (V3.apply_exclusion_rules
      (with_rules self category (without_include r)) tv category base_score
    <= V3.apply_exclusion_rules self tv category base_score)%Q)
  /\ (any_of (V3.exclude_reserved_words r)
             (fun w => mem w (V3.tv_reserved_words tv)) = true ->
      (V3.apply_exclusion_rules self tv category base_score
       <= V3.apply_exclusion_rules
            (with_rules self category (without_exclude r)) tv category
            base_score)%Q).
Proof.
  intros Hr Hb. unfold V3.apply_exclusion_rules, with_rules.
  cbn [V3.exclusion_rules]. rewrite Hr, !dict_get_set. split; intros Ht.
  - pose proof (apply_rules_range (without_include r) tv base_score Hb) as K.
    unfold V3.apply_rules at 2. cbv zeta. rewrite Ht. lra.
  - unfold V3.apply_rules. cbv zeta. cbn [without_exclude
      V3.include_reserved_words V3.exclude_reserved_words
      V3.include_if_reserved_and_contains
      V3.exclude_if_reserved_and_contains V3.exclude_if_contains
      V3.include_if_contains].
    rewrite Ht. cbn [any_of].
    split_tests; lra.
Qed.

Lemma C6_witness :
  (exists r,
      dict_get (V3.exclusion_rules v3_example) (u "資料") = Some r
      /\ any_of (V3.include_reserved_words r)
           (fun w => mem w (V3.tv_reserved_words
              (V3.preprocess_text char_env V3.reserved_words
                 (u "作業文件")))) = true
      /\ (V3.apply_exclusion_rules
            (with_rules v3_example (u "資料") (without_include r))
            (V3.preprocess_text char_env V3.reserved_words (u "作業文件"))
            (u "資料") 1
          <= V3.apply_exclusion_rules v3_example
               (V3.preprocess_text char_env V3.reserved_words (u "作業文件"))
               (u "資料") 1)%Q)
  /\ (exists r,
      dict_get (V3.exclusion_rules v3_example) (u "人員") = Some r
      /\ any_of (V3.exclude_reserved_words r)
           (fun w => mem w (V3.tv_reserved_words
              (V3.preprocess_text char_env V3.reserved_words
                 (u "作業文件")))) = true
      /\ (V3.apply_exclusion_rules v3_example
            (V3.preprocess_text char_env V3.reserved_words (u "作業文件"))
            (u "人員") 1
          <= V3.apply_exclusion_rules
               (with_rules v3_example (u "人員") (without_exclude r))
               (V3.preprocess_text char_env V3.reserved_words (u "作業文件"))
               (u "人員") 1)%Q).
Proof.
  assert (H01 : (0 <= 1)%Q) by (unfold Qle; cbn; lia).
  split.
  - eexists. split; [vm_compute; reflexivity|].
    split; [vm_compute; reflexivity|].
    refine (proj1 (C6_boost_and_exclude_are_monotone v3_example _
                     (u "資料") _ 1 _ H01) _);
      vm_compute; reflexivity.
  - eexists. split; [vm_compute; reflexivity|].
    split; [vm_compute; reflexivity|].
    refine (proj2 (C6_boost_and_exclude_are_monotone v3_example _
                     (u "人員") _ 1 _ H01) _);
      vm_compute; reflexivity.
Defined.

(** ** Classification *)

Lemma max_by_first_wins {A} (key : A -> Q) (x : A) (l : list A) :
  (forall y, In y l -> (key y <= key x)%Q) ->
  max_by key (x :: l) = Returns x.
Proof.
  intros H. cbn [max_by]. f_equal.
  induction l as [|y l IH]; [reflexivity|].
  cbn [fold_left].
  assert (E : Qltb (key x) (key y) = false)
    by (apply Qltb_ge, H; now left).
  rewrite E. apply IH. intros z Hz. apply H. now right.
Qed.

Lemma fold_best_In {A} (key : A -> Q) (all : list A) :
  forall l best, incl l all -> In best all ->
    In (fold_left (fun best z => if Qltb (key best) (key z) then z else best)
                  l best) all.
Proof.
  induction l as [|z l IH]; intros best Hl Hb; [exact Hb|].
  cbn [fold_left]. apply IH.
  - intros w Hw. apply Hl. now right.
  - destruct (Qltb _ _); [apply Hl; now left | exact Hb].
Qed.

Lemma max_by_In {A} (key : A -> Q) (l : list A) (x : A) :
  max_by key l = Returns x -> In x l.
Proof.
  destruct l as [|y l]; [discriminate|]. cbn [max_by]. intros [= <-].
  apply fold_best_In; [apply incl_tl, incl_refl | now left].
Qed.

Lemma max_by_returns {A} (key : A -> Q) (y : A) (l : list A) :
  exists x, max_by key (y :: l) = Returns x.
Proof. cbn [max_by]. eauto. Qed.

Lemma unique_cons (x : pystr) (l : list pystr) :
  unique (x :: l) = x :: unique_from [x] l.
Proof. reflexivity. Qed.

(** The state monad: a method built from [ret], [get] and [bind] of
    methods that only read, only reads. *)
Lemma reads_only_ret {S A} (a : A) : reads_only (@ret S A a).
Proof. intros s. reflexivity. Qed.

Lemma reads_only_get {S} : reads_only (@get S).
Proof. intros s. reflexivity. Qed.

Lemma reads_only_bind {S A B} (m : State S A) (k : A -> State S B) :
  reads_only m -> (forall a, reads_only (k a)) -> reads_only (bind m k).
Proof.
  intros Hm Hk s. unfold bind. specialize (Hm s).
  destruct (m s) as [a s']. cbn [snd] in Hm. subst s'. apply Hk.
Qed.

Lemma twice_reads_only {S A} (m : State S A) (s : S) :
  reads_only m -> twice m s = ((fst (m s), fst (m s)), s).
Proof.
  intros Hm. unfold twice, bind, ret. pose proof (Hm s) as H.
  destruct (m s) as [a s'] eqn:E. cbn [snd fst] in *. subst s'.
  now rewrite E.
Qed.

Lemma v3_classify_text_reads_only (env : collaborators) (text : pystr) :
  reads_only (V3.classify_text env text).
Proof.
  unfold V3.classify_text. apply reads_only_bind; [apply reads_only_get|].
  intros self. destruct (V3.data self); [apply reads_only_ret|].
  destruct (max_by _ _); apply reads_only_ret.
Qed.

Lemma ultimate_classify_reads_only (env : collaborators) (text : pystr) :
  reads_only (Ultimate.classify env text).
Proof.
  unfold Ultimate.classify. apply reads_only_bind; [apply reads_only_get|].
  intros self. destruct (Ultimate.data self); [apply reads_only_ret|].
  destruct (max_by _ _); apply reads_only_ret.
Qed.

(** *** The process *)

Lemma in_process_reads_only {I A} (libs : libraries)
      (method : collaborators -> State I A) :
  (forall env, reads_only (method env)) ->
  reads_only (in_process libs method).
Proof.
  intros H [d i]. unfold in_process, bind, libraries_now, on_instance.
  cbn [jieba_words instance]. specialize (H (libs d) i).
  destruct (method (libs d) i) as [a i']. cbn [snd] in *. now subst i'.
Qed.

Lemma in_process_run {I A} (libs : libraries)
      (method : collaborators -> State I A) (p : process I) :
  run (in_process libs method) p
  = run (method (libs (jieba_words p))) (instance p).
Proof.
  unfold run, in_process, bind, libraries_now, on_instance.
  now destruct (method (libs (jieba_words p)) (instance p)).
Qed.



(** What [classify_text] returns on a non-empty training set. *)
Lemma v3_classify_text_returns (env : collaborators) (self : V3.classifier)
      (text : pystr) :
  V3.data self <> [] ->
  exists r s,
    run (V3.classify_text env text) self = Returns (V3.Classified r)
    /\ V3.all_scores r
       = List.map (fun category =>
                     (category,
                      V3.score_category env self
                        (V3.preprocess_text env (V3.reserved_processor self)
                           text) category))
                  (unique (List.map snd (V3.data self)))
    /\ max_by (fun kv => V3.total_score (snd kv)) (V3.all_scores r)
       = Returns (V3.best_prediction r, s)
    /\ V3.confidence r = V3.total_score s
    /\ V3.best_score r = V3.total_score s.
Proof.
  intros Hd. unfold run, V3.classify_text, bind, get, ret.
  destruct (V3.data self) as [|[name category] rows] eqn:E;
    [contradiction|].
  cbn [List.map snd fst]. rewrite unique_cons. cbn [List.map].
  set (scores := _ :: _).
  destruct (max_by (fun kv => V3.total_score (snd kv)) scores)
    as [[c s]|] eqn:Em; [|discriminate Em].
  cbn [fst]. exists
    {| V3.input_text := text;
       V3.processed_variants :=
         V3.preprocess_text env (V3.reserved_processor self) text;
       V3.best_prediction := c;
       V3.best_score := V3.total_score s;
       V3.all_scores := scores;
       V3.sorted_scores :=
         sorted_desc (fun kv => V3.total_score (snd kv)) scores;
       V3.confidence := V3.total_score s |}, s.
  cbn [V3.all_scores V3.best_prediction V3.confidence V3.best_score].
  repeat split; try reflexivity. exact Em.
Qed.

Lemma ultimate_classify_returns (env : collaborators)
      (self : Ultimate.classifier) (text : pystr) :
  Ultimate.data self <> [] ->
  exists r,
    run (Ultimate.classify env text) self = Returns (Ultimate.Classified r)
    /\ Ultimate.all_scores r
       = List.map (fun category =>
                     (category,
                      Ultimate.calculate_score env self
                        (Ultimate.process_text_with_reserved_words env self
                           text) category))
                  (unique (List.map snd (Ultimate.data self)))
    /\ max_by snd (Ultimate.all_scores r)
       = Returns (Ultimate.predicted_category r, Ultimate.confidence r)
    /\ In (Ultimate.predicted_category r, Ultimate.confidence r)
          (Ultimate.all_scores r).
Proof.
  intros Hd. unfold run, Ultimate.classify, bind, get, ret.
  destruct (Ultimate.data self) as [|[name category] rows] eqn:E;
    [contradiction|].
  cbn [List.map snd fst]. rewrite unique_cons. cbn [List.map].
  set (scores := _ :: _).
  destruct (max_by snd scores) as [best|] eqn:Em; [|discriminate Em].
  cbn [fst]. eexists. split; [reflexivity|].
  cbn [Ultimate.all_scores Ultimate.predicted_category Ultimate.confidence].
  split; [reflexivity|].
  pose proof (max_by_In _ _ _ Em) as Hin.
  destruct best as [c s]. cbn [fst snd]. split; [exact Em | exact Hin].
Qed.

(** *** Non-negative scores *)

Lemma v3_similarity_score_nonneg (env : collaborators) (self : V3.classifier)
      (tv : V3.text_variants) (category : pystr) :
  cosine_nonneg env ->
  (0 <= V3.calculate_similarity_score env self tv category)%Q.
Proof.
  intros H. unfold V3.calculate_similarity_score.
  destruct (V3.vectorizer self) as [transform|]; [|lra].
  destruct (dict_get _ category) as [cv|]; [|lra].
  destruct (nonempty _); [|lra].
  destruct (transform _) as [iv|]; [|lra].
  destruct (cosine_similarity env iv cv) as [q|] eqn:E; [|lra].
  exact (H _ _ _ E).
Qed.

Lemma v3_total_score_nonneg (env : collaborators) (self : V3.classifier)
      (tv : V3.text_variants) (category : pystr) :
  cosine_nonneg env ->
  (0 <= V3.total_score (V3.score_category env self tv category))%Q.
Proof.
  intros H. unfold V3.score_category. cbn [V3.total_score].
  apply apply_exclusion_rules_nonneg. unfold V3.combine.
  pose proof (v3_reserved_score_bounds self tv category).
  pose proof (v3_keyword_score_bounds self tv category).
  pose proof (v3_pattern_score_nonneg self tv category).
  pose proof (v3_similarity_score_nonneg env self tv category H).
  lra.
Qed.

(** The score of the second classifier is floored at 0, whatever the
    similarity library returns. *)
Lemma ultimate_score_nonneg (env : collaborators)
      (self : Ultimate.classifier) (p : Ultimate.processed)
      (category : pystr) :
  (0 <= Ultimate.calculate_score env self p category)%Q.
Proof.
  unfold Ultimate.calculate_score.
  destruct (dict_get _ category); [apply Q.le_max_l | lra].
Qed.

(** C10.  The score of every category is non-negative, and so is the
    confidence that is returned: in the second classifier by its
    floor at 0, and in v3, with a similarity library whose cosines
    are not negative, as a non-negative weighted sum times a positive
    multiplier. *)
Theorem C10_scores_and_confidence_are_non_negative
        (env : collaborators) (text : pystr)
        (self3 : V3.classifier) (selfU : Ultimate.classifier) :
  cosine_nonneg env ->
  (forall p category,
      (0 <= Ultimate.calculate_score env selfU p category)%Q)
  /\ (forall r,
        run (Ultimate.classify env text) selfU
        = Returns (Ultimate.Classified r) ->
        (0 <= Ultimate.confidence r)%Q
        /\ Forall (fun kv => (0 <= snd kv)%Q) (Ultimate.all_scores r))
  /\ (forall tv category,
        (0 <= V3.total_score (V3.score_category env self3 tv category))%Q)
  /\ (forall r,
        run (V3.classify_text env text) self3
        = Returns (V3.Classified r) ->
        (0 <= V3.confidence r)%Q
        /\ Forall (fun kv => (0 <= V3.total_score (snd kv))%Q)
                  (V3.all_scores r)).
Proof.
  intros H. split; [intros; apply ultimate_score_nonneg|].
  split; [|split; [intros; now apply v3_total_score_nonneg|]].
  - intros r Hr.
    destruct (Ultimate.data selfU) as [|row rows] eqn:Ed.
    { unfold run, Ultimate.classify, bind, get, ret in Hr.
      rewrite Ed in Hr. discriminate Hr. }
    destruct (ultimate_classify_returns env selfU text) as (r' & E & Ha & _ & Hi).
    { rewrite Ed. discriminate. }
    rewrite E in Hr. injection Hr as <-.
    assert (G : Forall (fun kv => (0 <= snd kv)%Q) (Ultimate.all_scores r')).
    { rewrite Ha. apply Forall_forall. intros kv Hkv.
      apply in_map_iff in Hkv. destruct Hkv as (c & <- & _).
      apply ultimate_score_nonneg. }
    split; [|exact G].
    rewrite Forall_forall in G. exact (G _ Hi).
  - intros r Hr.
    destruct (V3.data self3) as [|row rows] eqn:Ed.
    { unfold run, V3.classify_text, bind, get, ret in Hr.
      rewrite Ed in Hr. discriminate Hr. }
    destruct (v3_classify_text_returns env self3 text)
      as (r' & s & E & Ha & Hm & Hc & _).
    { rewrite Ed. discriminate. }
    rewrite E in Hr. injection Hr as <-.
    assert (G : Forall (fun kv => (0 <= V3.total_score (snd kv))%Q)
                       (V3.all_scores r')).
    { rewrite Ha. apply Forall_forall. intros kv Hkv.
      apply in_map_iff in Hkv. destruct Hkv as (c & <- & _).
      now apply v3_total_score_nonneg. }
    split; [|exact G].
    rewrite Hc. apply max_by_In in Hm.
    rewrite Forall_forall in G. exact (G _ Hm).
Qed.

Lemma char_env_cosine_nonneg : cosine_nonneg char_env.
Proof. intros a b q [= <-]. lra. Qed.

Lemma C10_witness :
  cosine_nonneg char_env
  /\ (0 <= Ultimate.calculate_score char_env ultimate_example
             (Ultimate.process_text_with_reserved_words char_env
                ultimate_example (u "內部人員作業文件")) (u "人員"))%Q
  /\ (0 <= V3.total_score
             (V3.score_category char_env v3_example
                (V3.preprocess_text char_env V3.reserved_words
                   (u "防火牆設備")) (u "硬體")))%Q.
Proof.
  pose proof (C10_scores_and_confidence_are_non_negative
                char_env (u "防火牆設備") v3_example ultimate_example
                char_env_cosine_nonneg) as (HU & _ & H3 & _).
  split; [exact char_env_cosine_nonneg|].
  split; [apply HU | apply H3].
Defined.

(** *** A similarity library that fails *)

Lemma v3_similarity_failure (env : collaborators) (self : V3.classifier)
      (tv : V3.text_variants) (category : pystr) :
  similarity_fails env (V3.vectorizer self) (V3.category_vectors self)
                   (V3.combined_text tv) category ->
  V3.calculate_similarity_score env self tv category = 0%Q.
Proof.
  intros (transform & cv & Hv & Hc & Hf).
  unfold V3.calculate_similarity_score. rewrite Hv, Hc.
  destruct (nonempty _); [|reflexivity].
  destruct Hf as [Hf|(iv & Hi & Hf)].
  - now rewrite Hf.
  - now rewrite Hi, Hf.
Qed.

Lemma ultimate_similarity_failure (env : collaborators)
      (self : Ultimate.classifier) (p : Ultimate.processed)
      (category : pystr) :
  similarity_fails env (Ultimate.vectorizer self)
                   (Ultimate.category_vectors self)
                   (Ultimate.processed_text p) category ->
  Ultimate.similarity_score env self p category = 0%Q.
Proof.
  intros (transform & cv & Hv & Hc & Hf).
  unfold Ultimate.similarity_score. rewrite Hv, Hc.
  destruct Hf as [Hf|(iv & Hi & Hf)].
  - now rewrite Hf.
  - now rewrite Hi, Hf.
Qed.


Lemma failing_env_fails (query category : pystr) :
  In category (keys vectors_example) ->
  similarity_fails failing_env (Some tfidf_example) vectors_example
                   query category.
Proof.
  intros H. exists tfidf_example, [1%Q]. split; [reflexivity|]. split.
  - unfold vectors_example, keys in *. rewrite map_map in H. cbn [fst] in H.
    rewrite map_id in H.
    induction (unique (List.map snd rows_example)) as [|c l IH];
      [destruct H|].
    cbn [List.map dict_get]. destruct (str_eqb category c) eqn:E;
      [reflexivity|].
    destruct H as [->|H]; [now rewrite str_eqb_refl in E | auto].
  - right. exists [1%Q]. split; reflexivity.
Qed.


(** *** The empty input *)

Lemma filter_none {A} (f : A -> bool) (l : list A) :
  (forall x, f x = false) -> filter f l = [].
Proof.
  intros H. induction l as [|x l IH]; [reflexivity|].
  cbn [filter]. now rewrite H.
Qed.

Lemma dict_get_key {V} (d : dict V) (k : pystr) (v : V) :
  dict_get d k = Some v -> In k (keys d).
Proof.
  induction d as [|[k' v'] d IH]; cbn; [discriminate|].
  destruct (str_eqb k k') eqn:E.
  - intros _. left. symmetry. now apply str_eqb_eq.
  - intros H. right. now apply IH.
Qed.

Lemma v3_preprocess_empty (env : collaborators) (lexicon : dict (list pystr)) :
  phrases_visible lexicon = true ->
  let tv := V3.preprocess_text env lexicon [] in
  V3.tv_cleaned tv = [] /\ V3.tv_no_brackets tv = []
  /\ V3.tv_bracket_content tv = [] /\ V3.tv_lower_case tv = []
  /\ V3.tv_reserved_words tv = [] /\ V3.tv_all_tokens tv = [].
Proof.
  intros Hv. cbv zeta. unfold V3.preprocess_text. cbv zeta.
  cbn [V3.tv_cleaned V3.tv_no_brackets V3.tv_bracket_content
       V3.tv_lower_case V3.tv_reserved_words V3.tv_all_tokens].
  change (sub_all V3.match_spaces (u " ") (strip [])) with (@nil char).
  repeat split; try reflexivity.
  - pose proof (v3_found_reserved lexicon []) as E.
    rewrite blank_text_no_phrase in E by (auto; reflexivity). exact E.
  - apply v3_blank_input_no_tokens; [exact Hv | reflexivity].
Qed.

Lemma v3_blank_keyword_score (category : pystr) :
  (V3.calculate_keyword_score (V3.init [] None []) blank_variants category
   == 0)%Q.
Proof.
  destruct (dict_get V3.create_category_keywords category) as [kw|] eqn:E.
  - apply dict_get_key in E.
    assert (H : forallb (fun c => Qeq_bool
                  (V3.calculate_keyword_score (V3.init [] None [])
                     blank_variants c) 0)
                  (keys V3.create_category_keywords) = true)
      by (vm_compute; reflexivity).
    rewrite forallb_forall in H. apply Qeq_bool_iff. now apply H.
  - unfold V3.calculate_keyword_score. cbn [V3.category_keywords V3.init].
    rewrite E. reflexivity.
Qed.

Section BlankVariants.

Variables (env : collaborators) (self : V3.classifier)
          (tv : V3.text_variants) (category : pystr).
Hypothesis Hcleaned : V3.tv_cleaned tv = [].
Hypothesis Hno_brackets : V3.tv_no_brackets tv = [].
Hypothesis Hbracket_content : V3.tv_bracket_content tv = [].
Hypothesis Hlower_case : V3.tv_lower_case tv = [].
Hypothesis Hreserved_words : V3.tv_reserved_words tv = [].
Hypothesis Hall_tokens : V3.tv_all_tokens tv = [].

Lemma v3_blank_reserved :
  V3.calculate_reserved_word_score self tv category = 0%Q.
Proof.
  unfold V3.calculate_reserved_word_score. rewrite Hreserved_words.
  now destruct (dict_get _ category).
Qed.

Lemma v3_blank_keyword :
  V3.category_keywords self = V3.create_category_keywords ->
  (V3.calculate_keyword_score self tv category == 0)%Q.
Proof.
  intros Hk. rewrite <- (v3_blank_keyword_score category).
  unfold V3.calculate_keyword_score.
  cbn [V3.category_keywords V3.init blank_variants V3.tv_cleaned
       V3.tv_no_brackets V3.tv_bracket_content V3.tv_all_tokens
       V3.tv_reserved_words].
  rewrite Hk, Hcleaned, Hno_brackets, Hbracket_content, Hall_tokens,
    Hreserved_words.
  reflexivity.
Qed.

Lemma v3_blank_pattern :
  (V3.calculate_pattern_score self tv category == 0)%Q.
Proof.
  unfold V3.calculate_pattern_score.
  destruct (dict_get _ category) as [patterns|]; [|reflexivity].
  cbv zeta.
  rewrite Hcleaned, Hno_brackets, Hbracket_content, Hlower_case,
    Hall_tokens, Hreserved_words.
  rewrite filter_none by reflexivity.
  destruct patterns; [reflexivity|]. unfold Qdiv. apply Qmult_0_l.
Qed.

Lemma v3_blank_similarity :
  V3.calculate_similarity_score env self tv category = 0%Q.
Proof.
  unfold V3.calculate_similarity_score, V3.combined_text.
  rewrite Hcleaned, Hno_brackets, Hbracket_content, Hall_tokens.
  change (nonempty (strip (join (u " ") [[]; []; []; join (u " ") []])))
    with false.
  destruct (V3.vectorizer self); [|reflexivity].
  now destruct (dict_get _ category).
Qed.

Lemma v3_blank_total :
  V3.category_keywords self = V3.create_category_keywords ->
  (V3.total_score (V3.score_category env self tv category) == 0)%Q.
Proof.
  intros Hk. unfold V3.score_category. cbn [V3.total_score].
  assert (E : (V3.combine
                 (V3.calculate_reserved_word_score self tv category)
                 (V3.calculate_keyword_score self tv category)
                 (V3.calculate_pattern_score self tv category)
                 (V3.calculate_similarity_score env self tv category)
               == 0)%Q).
  { unfold V3.combine.
    rewrite v3_blank_reserved, (v3_blank_keyword Hk), v3_blank_pattern,
      v3_blank_similarity. lra. }
  unfold V3.apply_exclusion_rules.
  destruct (dict_get _ category) as [r|]; [|exact E].
  rewrite apply_rules_first_match, E. lra.
Qed.

End BlankVariants.

Lemma all_zero_first_wins {A} (key : A -> Q) (x : A) (l : list A) :
  (forall y, In y (x :: l) -> (key y == 0)%Q) ->
  max_by key (x :: l) = Returns x.
Proof.
  intros H. apply max_by_first_wins. intros y Hy.
  rewrite (H y) by now right. rewrite (H x) by now left. lra.
Qed.

(** On the empty input every category of v3 scores 0 and the first
    category of the training data is returned. *)
Lemma v3_empty_input (env : collaborators) (rows : list (pystr * pystr))
      (fitted : option tfidf) (vectors : dict (list Q)) :
  rows <> [] ->
  exists r,
    run (V3.classify_text env []) (V3.init rows fitted vectors)
    = Returns (V3.Classified r)
    /\ Some (V3.best_prediction r) = head (unique (List.map snd rows))
    /\ (V3.confidence r == 0)%Q
    /\ Forall (fun kv => (V3.total_score (snd kv) == 0)%Q) (V3.all_scores r).
Proof.
  intros Hd.
  destruct (v3_classify_text_returns env (V3.init rows fitted vectors) [] Hd)
    as (r & s & E & Ha & Hm & Hc & _).
  cbn [V3.init V3.data V3.reserved_processor] in Ha.
  destruct (v3_preprocess_empty env V3.reserved_words eq_refl)
    as (H1 & H2 & H3 & H4 & H5 & H6).
  assert (G : forall kv, In kv (V3.all_scores r) ->
                         (V3.total_score (snd kv) == 0)%Q).
  { intros kv Hkv. rewrite Ha in Hkv. apply in_map_iff in Hkv.
    destruct Hkv as (c & <- & _). cbn [snd].
    now apply v3_blank_total. }
  exists r. split; [exact E|].
  destruct rows as [|[name c] rows]; [contradiction|].
  cbn [List.map snd] in *. rewrite unique_cons in *. cbn [List.map head] in *.
  rewrite Ha in Hm, G.
  rewrite (all_zero_first_wins _ _ _ G) in Hm. injection Hm as Eb Es.
  split; [now rewrite <- Eb|].
  split.
  - rewrite Hc, <- Es. apply (G (c, _)). now left.
  - apply Forall_forall. rewrite Ha. exact G.
Qed.

Lemma ultimate_processed_text (env : collaborators)
      (self : Ultimate.classifier) (text : pystr) :
  Ultimate.processed_text
    (Ultimate.process_text_with_reserved_words env self text)
  = join (u " ") (Ultimate.all_tokens
       (Ultimate.process_text_with_reserved_words env self text)).
Proof.
  unfold Ultimate.process_text_with_reserved_words.
  now destruct (Ultimate.extract_loop text _ [] text).
Qed.

Lemma ultimate_blank_rules :
  forallb (fun rules =>
             Qeq_bool (Ultimate.reserved_score rules blank_processed) 0
             && Qeq_bool (Ultimate.keyword_score rules blank_processed) 0
             && Qeq_bool (Ultimate.pattern_score rules blank_processed) 0
             && Qeq_bool (Ultimate.exclude_penalty rules blank_processed) 0)
          (List.map snd Ultimate.create_rules) = true.
Proof. vm_compute. reflexivity. Qed.

Lemma ultimate_empty_similarity (env : collaborators)
      (self : Ultimate.classifier) (p : Ultimate.processed)
      (category : pystr) :
  empty_text_has_no_similarity env (Ultimate.vectorizer self) ->
  Ultimate.processed_text p = [] ->
  (Ultimate.similarity_score env self p category == 0)%Q.
Proof.
  intros H Hp. unfold Ultimate.similarity_score. rewrite Hp.
  destruct (Ultimate.vectorizer self) as [transform|] eqn:Ev;
    [|reflexivity].
  destruct (dict_get _ category) as [cv|]; [|reflexivity].
  destruct (transform []) as [iv|] eqn:Et; [|reflexivity].
  destruct (cosine_similarity env iv cv) as [q|] eqn:Ec; [|reflexivity].
  exact (H transform iv cv q eq_refl Et Ec).
Qed.

Lemma ultimate_blank_score (env : collaborators)
      (rows : list (pystr * pystr)) (fitted : option tfidf)
      (vectors : dict (list Q)) (category : pystr) :
  empty_text_has_no_similarity env fitted ->
  (Ultimate.calculate_score env (Ultimate.init rows fitted vectors)
     (Ultimate.process_text_with_reserved_words env
        (Ultimate.init rows fitted vectors) [])
     category == 0)%Q.
Proof.
  intros H. set (self := Ultimate.init rows fitted vectors).
  set (p := Ultimate.process_text_with_reserved_words env self []).
  assert (Ho : Ultimate.original p = []) by apply ultimate_original.
  assert (Hf : Ultimate.found_reserved p = []).
  { unfold p. rewrite ultimate_found_reserved.
    now apply blank_text_no_phrase. }
  assert (Ht : Ultimate.processed_text p = []).
  { unfold p. rewrite ultimate_processed_text.
    now rewrite ultimate_blank_input_no_tokens. }
  unfold Ultimate.calculate_score. cbn [Ultimate.category_rules self
    Ultimate.init].
  destruct (dict_get Ultimate.create_rules category) as [rules|] eqn:E;
    [|reflexivity].
  apply dict_get_In in E.
  pose proof ultimate_blank_rules as B. rewrite forallb_forall in B.
  specialize (B rules E). rewrite !andb_true_iff in B.
  destruct B as (((B1 & B2) & B3) & B4).
  apply Qeq_bool_iff in B1, B2, B3, B4.
  assert (R1 : Ultimate.reserved_score rules p
               = Ultimate.reserved_score rules blank_processed)
    by (unfold Ultimate.reserved_score; now rewrite Hf).
  assert (R2 : Ultimate.keyword_score rules p
               = Ultimate.keyword_score rules blank_processed)
    by (unfold Ultimate.keyword_score; now rewrite Ht).
  assert (R3 : Ultimate.pattern_score rules p
               = Ultimate.pattern_score rules blank_processed)
    by (unfold Ultimate.pattern_score; now rewrite Ho).
  assert (R4 : Ultimate.exclude_penalty rules p
               = Ultimate.exclude_penalty rules blank_processed)
    by (unfold Ultimate.exclude_penalty; now rewrite Hf).
  pose proof (ultimate_empty_similarity env self p category H Ht) as S.
  rewrite R1, R2, R3, R4. apply Q.max_l. lra.
Qed.

Lemma ultimate_empty_input (env : collaborators)
      (rows : list (pystr * pystr)) (fitted : option tfidf)
      (vectors : dict (list Q)) :
  rows <> [] -> empty_text_has_no_similarity env fitted ->
  exists r,
    run (Ultimate.classify env []) (Ultimate.init rows fitted vectors)
    = Returns (Ultimate.Classified r)
    /\ Some (Ultimate.predicted_category r)
       = head (unique (List.map snd rows))
    /\ (Ultimate.confidence r == 0)%Q
    /\ Forall (fun kv => (snd kv == 0)%Q) (Ultimate.all_scores r).
Proof.
  intros Hd H.
  destruct (ultimate_classify_returns env
              (Ultimate.init rows fitted vectors) [] Hd)
    as (r & E & Ha & Hm & Hi).
  cbn [Ultimate.init Ultimate.data] in Ha.
  assert (G : forall kv, In kv (Ultimate.all_scores r) -> (snd kv == 0)%Q).
  { intros kv Hkv. rewrite Ha in Hkv. apply in_map_iff in Hkv.
    destruct Hkv as (c & <- & _). cbn [snd].
    now apply ultimate_blank_score. }
  exists r. split; [exact E|].
  destruct rows as [|[name c] rows]; [contradiction|].
  cbn [List.map snd] in *. rewrite unique_cons in *. cbn [List.map head] in *.
  rewrite Ha in Hm, G.
  rewrite (all_zero_first_wins _ _ _ G) in Hm. injection Hm as Eb Es.
  split; [now rewrite <- Eb|].
  split.
  - rewrite <- Es. apply (G (c, _)). now left.
  - apply Forall_forall. rewrite Ha. exact G.
Qed.


Lemma char_env_empty_text (fitted : option tfidf) :
  empty_text_has_no_similarity char_env fitted.
Proof. intros transform iv cv q _ _ [= <-]. reflexivity. Qed.


(* ================================================================== *)
(** * Further properties of the code *)
(* ================================================================== *)

(** ** Dictionaries *)

Lemma keys_dict_set {V} (d : dict V) (k : pystr) (v : V) :
  keys (dict_set d k v) = if mem k (keys d) then keys d else keys d ++ [k].
Proof.
  unfold keys, mem. induction d as [|[k' v'] d IH]; [reflexivity|].
  cbn [dict_set List.map fst existsb].
  destruct (str_eqb k k'); cbn [List.map fst orb]; [reflexivity|].
  rewrite IH. now destruct (existsb (str_eqb k) (List.map fst d)).
Qed.

Lemma NoDup_keys_dict_set {V} (d : dict V) (k : pystr) (v : V) :
  NoDup (keys d) -> NoDup (keys (dict_set d k v)).
Proof.
  intros H. rewrite keys_dict_set. destruct (mem k (keys d)) eqn:E;
    [exact H|].
  apply NoDup_app; [exact H | repeat constructor; intros [] |].
  intros x Hx [<-|[]]. apply mem_In in Hx. congruence.
Qed.

Lemma NoDup_keys_dict_of {V} (items : list (pystr * V)) :
  NoDup (keys (dict_of items)).
Proof.
  unfold dict_of.
  assert (G : forall d : dict V, NoDup (keys d) ->
            NoDup (keys (fold_left
                           (fun d kv => dict_set d (fst kv) (snd kv))
                           items d))).
  { induction items as [|kv items IH]; intros d Hd; [exact Hd|].
    cbn [fold_left]. apply IH. now apply NoDup_keys_dict_set. }
  apply G. constructor.
Qed.

Lemma dict_get_of_key {V} (d : dict V) (k : pystr) :
  In k (keys d) -> exists v, dict_get d k = Some v.
Proof.
  induction d as [|[k' v'] d IH]; [intros []|].
  cbn [keys List.map fst dict_get]. intros H.
  destruct (str_eqb k k') eqn:E; [eauto|].
  destruct H as [<-|H]; [now rewrite str_eqb_refl in E | auto].
Qed.

Lemma keys_dict_extend {V} (d : dict (list V)) (k : pystr) (l : list V) :
  keys (dict_extend d k l)
  = if mem k (keys d) then keys d else keys d ++ [k].
Proof.
  unfold keys, mem. induction d as [|[k' v'] d IH]; [reflexivity|].
  cbn [dict_extend List.map fst existsb].
  destruct (str_eqb k k'); cbn [List.map fst orb]; [reflexivity|].
  rewrite IH. now destruct (existsb (str_eqb k) (List.map fst d)).
Qed.

(** Lookup after [extend]: the list of the key grows at its end, the
    other keys keep theirs. *)
Lemma dict_get_extend {V} (d : dict (list V)) (k k' : pystr) (l : list V) :
  get_or_nil (dict_get (dict_extend d k l) k')
  = if str_eqb k' k then get_or_nil (dict_get d k') ++ l
    else get_or_nil (dict_get d k').
Proof.
  induction d as [|[k0 v0] d IH].
  - cbn. now destruct (str_eqb k' k).
  - cbn [dict_extend dict_get].
    destruct (str_eqb k k0) eqn:E0.
    + apply str_eqb_eq in E0. subst k0. cbn [dict_get].
      now destruct (str_eqb k' k).
    + cbn [dict_get]. destruct (str_eqb k' k0) eqn:E1; [|exact IH].
      destruct (str_eqb k' k) eqn:E2; [|reflexivity].
      apply str_eqb_eq in E1, E2. subst. now rewrite str_eqb_refl in E0.
Qed.

(** ** More on the segmenters *)

Lemma insert_by_len_perm (x : pystr) (l : list pystr) :
  Permutation (insert_by_len x l) (x :: l).
Proof.
  induction l as [|y l IH]; [reflexivity|]. cbn [insert_by_len].
  destruct (length x <? length y); [|reflexivity].
  rewrite IH. apply perm_swap.
Qed.

Lemma sorted_by_len_desc_perm (l : list pystr) :
  Permutation (sorted_by_len_desc l) l.
Proof.
  induction l as [|x l IH]; [reflexivity|].
  cbn [sorted_by_len_desc fold_right]. rewrite insert_by_len_perm.
  now constructor.
Qed.

Lemma StronglySorted_filter {A} (R : A -> A -> Prop) (f : A -> bool)
      (l : list A) :
  StronglySorted R l -> StronglySorted R (filter f l).
Proof.
  induction 1 as [|x l Hs IH Hf]; cbn [filter]; [constructor|].
  destruct (f x); [|exact IH]. constructor; [exact IH|].
  rewrite Forall_forall in *. intros y Hy. apply Hf.
  now apply filter_In in Hy.
Qed.

(** X1.  The reserved words that the v3 segmenter returns are exactly
    the keys of the lexicon that occur in the text, each once, from
    the longest to the shortest. *)
Theorem X1_found_reserved_words_characterized
        (items : list (pystr * list pystr)) (text : pystr) :
  let lexicon := dict_of items in
  let found := V3.found_reserved (V3.extract_reserved_words lexicon text) in
  (forall p, In p found <-> In p (keys lexicon) /\ contains p text = true)
  /\ NoDup found
  /\ StronglySorted (fun a b => length b <= length a) found.
Proof.
  cbv zeta. rewrite v3_found_reserved. split; [|split].
  - intros p. rewrite filter_In, In_sorted_by_len_desc. tauto.
  - apply NoDup_filter.
    apply (Permutation_NoDup (Permutation_sym (sorted_by_len_desc_perm _))).
    apply NoDup_keys_dict_of.
  - apply StronglySorted_filter, sorted_by_len_desc_descending.
Qed.

Lemma ultimate_expanded_tokens (env : collaborators)
      (self : Ultimate.classifier) (text : pystr) :
  Ultimate.expanded_tokens
    (Ultimate.process_text_with_reserved_words env self text)
  = Ultimate.expand (Ultimate.reserved_words self)
      (Ultimate.found_reserved
         (Ultimate.process_text_with_reserved_words env self text)).
Proof.
  unfold Ultimate.process_text_with_reserved_words.
  now destruct (Ultimate.extract_loop text _ [] text).
Qed.

(** X2.  In the second classifier every found reserved word is a key
    of the lexicon, so its expansion is always the one of the lexicon
    and the branch that would keep the phrase itself is never taken:
    the expanded tokens are the tokens that the lexicon gives for the
    found phrases. *)
Theorem X2_expansion_never_falls_back
        (env : collaborators) (self : Ultimate.classifier) (text : pystr) :
  let p := Ultimate.process_text_with_reserved_words env self text in
  (forall w, In w (Ultimate.found_reserved p) ->
             exists tokens,
               dict_get (Ultimate.reserved_words self) w = Some tokens
               /\ contains w text = true)
  /\ (forall t, In t (Ultimate.expanded_tokens p) <->
                exists w tokens,
                  In w (Ultimate.found_reserved p)
                  /\ dict_get (Ultimate.reserved_words self) w = Some tokens
                  /\ In t tokens).
Proof.
  cbv zeta.
  assert (K : forall w,
             In w (Ultimate.found_reserved
                     (Ultimate.process_text_with_reserved_words env self
                        text)) ->
             exists tokens,
               dict_get (Ultimate.reserved_words self) w = Some tokens
               /\ contains w text = true).
  { intros w Hw. rewrite ultimate_found_reserved in Hw.
    apply filter_In in Hw. destruct Hw as [Hw Hc].
    rewrite In_sorted_by_len_desc in Hw.
    destruct (dict_get_of_key _ _ Hw) as [tokens E]. eauto. }
  split; [exact K|].
  intros t. rewrite ultimate_expanded_tokens. unfold Ultimate.expand. rewrite in_flat_map. split.
  - intros (w & Hw & Ht). destruct (K w Hw) as (tokens & Ek & _).
    rewrite Ek in Ht. eauto.
  - intros (w & tokens & Hw & Ek & Ht). exists w. split; [exact Hw|].
    now rewrite Ek.
Qed.

(** *** The reverse index of the lexicon *)

Lemma index_components (phrase : pystr) (component x : pystr) :
  forall components index,
    In x (get_or_nil
            (dict_get (fold_left (fun index c => dict_extend index c [phrase])
                                 components index) component))
    <-> In x (get_or_nil (dict_get index component))
        \/ (x = phrase /\ In component components).
Proof.
  induction components as [|c cs IH]; intros index; cbn [fold_left].
  - cbn [In]. tauto.
  - rewrite IH, dict_get_extend.
    destruct (str_eqb component c) eqn:E.
    + apply str_eqb_eq in E. subst c. rewrite in_app_iff. cbn [In].
      intuition congruence.
    + assert (component <> c)
        by (intros ->; now rewrite str_eqb_refl in E).
      cbn [In]. intuition congruence.
Qed.

(** X3.  The reverse index built with the lexicon gives, for a
    component, exactly the phrases that list it among their
    components. *)
Theorem X3_word_to_reserved_is_the_reverse_index
        (lexicon : dict (list pystr)) (component phrase : pystr) :
  In phrase (get_or_nil
               (dict_get (V3Build.word_to_reserved lexicon) component))
  <-> exists components,
        In (phrase, components) lexicon /\ In component components.
Proof.
  unfold V3Build.word_to_reserved.
  assert (G : forall items index,
            In phrase
              (get_or_nil
                 (dict_get
                    (fold_left
                       (fun index item =>
                          fold_left (fun index c =>
                                       dict_extend index c [fst item])
                                    (snd item) index)
                       items index) component))
            <-> In phrase (get_or_nil (dict_get index component))
                \/ exists components,
                     In (phrase, components) items
                     /\ In component components).
  { induction items as [|[ph comps] items IH]; intros index;
      cbn [fold_left fst snd].
    - split; [tauto | intros [H|(cs & [] & _)]; exact H].
    - rewrite IH, index_components. split.
      + intros [[H|[-> H]]|(cs & H1 & H2)]; [now left | | ].
        * right. exists comps. split; [now left | exact H].
        * right. exists cs. split; [now right | exact H2].
      + intros [H|(cs & [[= <- <-]|H1] & H2)].
        * left. now left.
        * left. right. now split.
        * right. now exists cs. }
  rewrite G. cbn [dict_get get_or_nil In]. tauto.
Qed.

(** ** Preprocessing *)

Lemma sub_scan_skip (m : pystr -> option nat) (repl : pystr) :
  forall k s, sub_scan m repl k s = sub_scan m repl O (skipn k s).
Proof.
  induction k as [|k IH]; intros [|c r]; try reflexivity.
  cbn [sub_scan skipn]. apply IH.
Qed.

Lemma match_spaces_some (c : char) (r : pystr) :
  isspace c = true -> V3.match_spaces (c :: r) = Some (S (V3.space_run r)).
Proof.
  intros H. unfold V3.match_spaces. cbn [V3.space_run]. now rewrite H.
Qed.

Lemma match_spaces_none (c : char) (r : pystr) :
  isspace c = false -> V3.match_spaces (c :: r) = None.
Proof.
  intros H. unfold V3.match_spaces. cbn [V3.space_run]. now rewrite H.
Qed.

(** What is left after a run of whitespace starts with a character
    that is not whitespace. *)
Lemma space_run_after (s : pystr) :
  V3.space_run (skipn (V3.space_run s) s) = O.
Proof.
  induction s as [|c r IH]; [reflexivity|].
  cbn [V3.space_run]. destruct (isspace c) eqn:E; cbn [skipn].
  - exact IH.
  - cbn [V3.space_run]. now rewrite E.
Qed.

Lemma collapse_chars (repl : pystr) :
  forall s k c,
    In c (sub_scan V3.match_spaces repl k s) ->
    In c repl \/ (In c s /\ isspace c = false).
Proof.
  induction s as [|c0 r IH]; intros k c H; [destruct H|].
  destruct k as [|k]; cbn [sub_scan] in H.
  - destruct (isspace c0) eqn:E.
    + rewrite (match_spaces_some _ _ E) in H.
      apply in_app_or in H. destruct H as [H|H]; [now left|].
      destruct (IH _ _ H) as [K|[K1 K2]]; [now left|].
      right. split; [now right | exact K2].
    + rewrite (match_spaces_none _ _ E) in H.
      destruct H as [<-|H]; [right; split; [now left | exact E]|].
      destruct (IH _ _ H) as [K|[K1 K2]]; [now left|].
      right. split; [now right | exact K2].
  - destruct (IH _ _ H) as [K|[K1 K2]]; [now left|].
    right. split; [now right | exact K2].
Qed.

Lemma space_run_collapse (s : pystr) :
  V3.space_run s = O ->
  V3.space_run (sub_all V3.match_spaces (u " ") s) = O.
Proof.
  destruct s as [|c r]; [reflexivity|]. cbn [V3.space_run].
  destruct (isspace c) eqn:E; [discriminate|]. intros _.
  unfold sub_all. cbn [sub_scan]. rewrite (match_spaces_none _ _ E).
  cbn [V3.space_run]. now rewrite E.
Qed.

(** Collapsing the runs of whitespace a second time changes nothing. *)
Lemma collapse_idempotent (s : pystr) :
  sub_all V3.match_spaces (u " ") (sub_all V3.match_spaces (u " ") s)
  = sub_all V3.match_spaces (u " ") s.
Proof.
  remember (length s) as n eqn:Hn.
  assert (Hle : length s <= n) by lia. clear Hn.
  revert s Hle. induction n as [|n IH]; intros s Hle.
  - destruct s; [reflexivity | cbn in Hle; lia].
  - destruct s as [|c r]; [reflexivity|]. cbn [length] in Hle.
    unfold sub_all in *. cbn [sub_scan].
    destruct (isspace c) eqn:E.
    + rewrite (match_spaces_some _ _ E).
      change (u " " ++ ?x) with (ch " " :: x).
      rewrite (sub_scan_skip _ _ (V3.space_run r) r).
      set (t := skipn (V3.space_run r) r).
      assert (Ht : length t <= n).
      { unfold t. rewrite length_skipn. lia. }
      cbn [sub_scan].
      rewrite (match_spaces_some (ch " ") _ eq_refl).
      change (u " " ++ ?x) with (ch " " :: x).
      f_equal.
      pose proof (space_run_collapse t (space_run_after r)) as K.
      unfold sub_all in K. rewrite K. now apply IH.
    + rewrite (match_spaces_none _ _ E). cbn [sub_scan].
      rewrite (match_spaces_none _ _ E). f_equal. apply IH. lia.
Qed.

(** X4.  In the variants of v3 the cleaned text is normalized: its
    only whitespace characters are single spaces (collapsing the runs
    again changes nothing), and the variant without spaces has no
    whitespace character at all. *)
Theorem X4_cleaned_text_is_whitespace_normalized
        (env : collaborators) (lexicon : dict (list pystr)) (text : pystr) :
  let tv := V3.preprocess_text env lexicon text in
  (forall c, In c (V3.tv_cleaned tv) -> isspace c = true -> c = ch " ")
  /\ sub_all V3.match_spaces (u " ") (V3.tv_cleaned tv) = V3.tv_cleaned tv
  /\ (forall c, In c (V3.tv_no_spaces tv) -> isspace c = false)
  /\ V3.tv_lower_case tv = lower (V3.tv_cleaned tv).
Proof.
  cbv zeta. unfold V3.preprocess_text. cbv zeta.
  cbn [V3.tv_cleaned V3.tv_no_spaces V3.tv_lower_case].
  split; [|split; [|split]].
  - intros c Hc Hs. unfold sub_all in Hc.
    apply collapse_chars in Hc. destruct Hc as [[<-|[]]|[_ K]];
      [reflexivity | congruence].
  - apply collapse_idempotent.
  - intros c Hc. unfold sub_all in Hc.
    apply collapse_chars in Hc. destruct Hc as [[]|[_ K]]. exact K.
  - reflexivity.
Qed.

(** *** Bracketed parts *)

Lemma index_close_none (s : pystr) :
  V3.index_close s = None <-> ~ In (ch ")") s.
Proof.
  induction s as [|c r IH]; cbn [V3.index_close In].
  - split; [intros _ [] | reflexivity].
  - destruct (char_eqb c (ch ")")) eqn:E.
    + apply char_eqb_eq in E. subst c.
      split; [discriminate | intros H; exfalso; apply H; now left].
    + assert (Hc : c <> ch ")")
        by (intros K; apply char_eqb_eq in K; congruence).
      destruct (V3.index_close r) eqn:Er.
      * split; [discriminate|]. intros K. exfalso.
        assert (Hr : ~ In (ch ")") r) by (intros Hr; apply K; now right).
        apply IH in Hr. discriminate Hr.
      * split; [|reflexivity]. intros _ [K|K]; [exact (Hc K)|].
        exact (proj1 IH eq_refl K).
Qed.

Lemma index_close_firstn (s : pystr) (i : nat) :
  V3.index_close s = Some i -> ~ In (ch ")") (firstn i s).
Proof.
  revert i. induction s as [|c r IH]; intros i; cbn [V3.index_close];
    [discriminate|].
  destruct (char_eqb c (ch ")")) eqn:E.
  - intros [= <-]. intros [].
  - destruct (V3.index_close r) as [j|]; [|discriminate].
    intros [= <-]. cbn [firstn]. intros [K|K].
    + apply char_eqb_eq in K. congruence.
    + exact (IH j eq_refl K).
Qed.

Lemma match_bracket_none (c : char) (r : pystr) :
  V3.match_bracket (c :: r) = None <->
  c <> ch "(" \/ ~ In (ch ")") r.
Proof.
  cbn [V3.match_bracket]. destruct (char_eqb c (ch "(")) eqn:E.
  - apply char_eqb_eq in E. rewrite <- index_close_none.
    destruct (V3.index_close r); split; try discriminate; auto.
    intros [K|K]; [contradiction | discriminate].
  - split; [|reflexivity]. intros _. left. intros K.
    apply char_eqb_eq in K. congruence.
Qed.

(** No bracketed part is found in a text: no opening parenthesis is
    followed, anywhere later, by a closing one. *)
Lemma search_bracket_none_cons (c : char) (r : pystr) :
  V3.search_bracket (c :: r) = None <->
  (c <> ch "(" \/ ~ In (ch ")") r) /\ V3.search_bracket r = None.
Proof.
  cbn [V3.search_bracket]. rewrite <- match_bracket_none.
  destruct (V3.match_bracket (c :: r)); split; try discriminate; try tauto.
  intros [K _]. discriminate K.
Qed.

Lemma search_bracket_none_app (a b : pystr) :
  V3.search_bracket (a ++ b) = None ->
  V3.search_bracket a = None /\ V3.search_bracket b = None.
Proof.
  induction a as [|c a IH]; cbn [app]; intros H.
  - split; [reflexivity | exact H].
  - apply search_bracket_none_cons in H. destruct H as [H1 H2].
    destruct (IH H2) as [Ha Hb]. split; [|exact Hb].
    apply search_bracket_none_cons. split; [|exact Ha].
    destruct H1 as [H1|H1]; [now left|]. right. intros K. apply H1.
    apply in_or_app. now left.
Qed.

Lemma remove_brackets_none :
  forall s k, V3.search_bracket (sub_scan V3.match_bracket [] k s) = None.
Proof.
  induction s as [|c r IH]; intros k; [now destruct k|].
  destruct k as [|k]; cbn [sub_scan]; [|apply IH].
  destruct (V3.match_bracket (c :: r)) as [[|n]|] eqn:E.
  - apply search_bracket_none_cons. split; [|apply IH].
    cbn [V3.match_bracket] in E.
    destruct (char_eqb c (ch "(")) eqn:Ec.
    + destruct (V3.index_close r); [|discriminate]. injection E. lia.
    + left. intros K. apply char_eqb_eq in K. congruence.
  - cbn [app]. apply IH.
  - apply search_bracket_none_cons. split; [|apply IH].
    apply match_bracket_none in E. destruct E as [E|E]; [now left|].
    right. intros K. apply sub_scan_adds in K. destruct K as [K|[]].
    exact (E K).
Qed.

Lemma lstrip_suffix (s : pystr) : exists w, s = w ++ lstrip s.
Proof.
  induction s as [|c r (w & IH)]; [now exists []|]. cbn [lstrip].
  destruct (isspace c); [|now exists []].
  exists (c :: w). cbn [app]. now rewrite <- IH.
Qed.

Lemma strip_infix (s : pystr) : exists a b, s = a ++ strip s ++ b.
Proof.
  unfold strip, rstrip. destruct (lstrip_suffix s) as (a & Ha).
  destruct (lstrip_suffix (rev (lstrip s))) as (w & Hw).
  exists a, (rev w). rewrite <- rev_app_distr, <- Hw, rev_involutive.
  exact Ha.
Qed.

Lemma search_bracket_none_strip (s : pystr) :
  V3.search_bracket s = None -> V3.search_bracket (strip s) = None.
Proof.
  intros H. destruct (strip_infix s) as (a & b & E). rewrite E in H.
  apply search_bracket_none_app in H. destruct H as [_ H].
  apply search_bracket_none_app in H. tauto.
Qed.

Lemma search_bracket_content (s g : pystr) :
  V3.search_bracket s = Some g -> ~ In (ch ")") g.
Proof.
  induction s as [|c r IH]; cbn [V3.search_bracket]; [discriminate|].
  destruct (V3.match_bracket (c :: r)) as [n|] eqn:E; [|exact IH].
  intros [= <-]. cbn [V3.match_bracket tl] in *.
  destruct (char_eqb c (ch "(")); [|discriminate].
  destruct (V3.index_close r) as [i|] eqn:Ei; [|discriminate].
  injection E as <-. replace (i + 2 - 2) with i by lia.
  now apply index_close_firstn.
Qed.

Lemma remove_brackets_no_match (s : pystr) :
  V3.search_bracket s = None -> sub_all V3.match_bracket [] s = s.
Proof.
  induction s as [|c r IH]; intros H; [reflexivity|].
  apply search_bracket_none_cons in H. destruct H as [H1 H2].
  apply match_bracket_none in H1. unfold sub_all in *.
  cbn [sub_scan]. rewrite H1. f_equal. now apply IH.
Qed.

(** X5.  After the bracketed parts are removed no bracketed part is
    left: in [no_brackets] no opening parenthesis is followed by a
    closing one, so the pattern finds nothing there; and the bracket
    content that is kept has no closing parenthesis. *)
Theorem X5_no_brackets_has_no_bracketed_part
        (env : collaborators) (lexicon : dict (list pystr)) (text : pystr) :
  let tv := V3.preprocess_text env lexicon text in
  V3.search_bracket (V3.tv_no_brackets tv) = None
  /\ sub_all V3.match_bracket [] (V3.tv_no_brackets tv) = V3.tv_no_brackets tv
  /\ ~ In (ch ")") (V3.tv_bracket_content tv).
Proof.
  cbv zeta. unfold V3.preprocess_text. cbv zeta.
  cbn [V3.tv_no_brackets V3.tv_bracket_content].
  set (cleaned := sub_all V3.match_spaces (u " ") (strip text)).
  assert (H : V3.search_bracket (strip (sub_all V3.match_bracket [] cleaned))
              = None)
    by (apply search_bracket_none_strip, remove_brackets_none).
  split; [exact H|]. split.
  - apply remove_brackets_no_match. exact H.
  - destruct (V3.search_bracket cleaned) as [g|] eqn:E; [|intros []].
    intros K. apply strip_incl in K.
    exact (search_bracket_content _ _ E K).
Qed.

(** *** Whitespace around the input *)

Lemma lstrip_idempotent (s : pystr) : lstrip (lstrip s) = lstrip s.
Proof.
  induction s as [|c r IH]; [reflexivity|]. cbn [lstrip].
  destruct (isspace c) eqn:E; [exact IH|]. cbn [lstrip]. now rewrite E.
Qed.

Lemma lstrip_snoc (a : pystr) (c : char) :
  isspace c = false -> lstrip (a ++ [c]) = lstrip a ++ [c].
Proof.
  intros H. induction a as [|d a IH]; cbn [app lstrip].
  - now rewrite H.
  - destruct (isspace d); [exact IH | reflexivity].
Qed.

Lemma rstrip_cons (c : char) (s : pystr) :
  isspace c = false -> rstrip (c :: s) = c :: rstrip s.
Proof.
  intros H. unfold rstrip. cbn [rev]. rewrite lstrip_snoc by exact H.
  rewrite rev_app_distr. reflexivity.
Qed.

Lemma rstrip_idempotent (s : pystr) : rstrip (rstrip s) = rstrip s.
Proof.
  unfold rstrip. now rewrite rev_involutive, lstrip_idempotent.
Qed.

Lemma strip_idempotent (s : pystr) : strip (strip s) = strip s.
Proof.
  unfold strip. destruct (lstrip s) as [|c r] eqn:E; [reflexivity|].
  assert (Hc : isspace c = false).
  { destruct (isspace c) eqn:Ec; [|reflexivity]. exfalso.
    pose proof (lstrip_idempotent s) as K. rewrite E in K.
    cbn [lstrip] in K. rewrite Ec in K.
    assert (L : length (lstrip r) <= length r).
    { clear. induction r as [|d r IH]; [cbn; lia|]. cbn [lstrip].
      destruct (isspace d); cbn [length]; lia. }
    rewrite K in L. cbn [length] in L. lia. }
  rewrite (rstrip_cons _ _ Hc). cbn [lstrip]. rewrite Hc.
  rewrite (rstrip_cons _ _ Hc). now rewrite rstrip_idempotent.
Qed.

(** X6.  Whitespace around the input does not change what v3 makes
    of it: the variants of a text and of the stripped text are the
    same, and so are the scores, the prediction and the confidence. *)
Theorem X6_surrounding_whitespace_is_ignored
        (env : collaborators) (self : V3.classifier) (text : pystr) :
  V3.preprocess_text env (V3.reserved_processor self) (strip text)
  = V3.preprocess_text env (V3.reserved_processor self) text
  /\ match run (V3.classify_text env text) self,
           run (V3.classify_text env (strip text)) self with
     | Returns (V3.Classified r), Returns (V3.Classified r') =>
         V3.all_scores r' = V3.all_scores r
         /\ V3.sorted_scores r' = V3.sorted_scores r
         /\ V3.best_prediction r' = V3.best_prediction r
         /\ V3.confidence r' = V3.confidence r
     | Returns V3.No_training_data, Returns V3.No_training_data => True
     | Raises, Raises => True
     | _, _ => False
     end.
Proof.
  assert (E : V3.preprocess_text env (V3.reserved_processor self)
                (strip text)
              = V3.preprocess_text env (V3.reserved_processor self) text).
  { unfold V3.preprocess_text. now rewrite strip_idempotent. }
  split; [exact E|].
  unfold run, V3.classify_text, bind, get, ret. rewrite E.
  destruct (V3.data self); [exact I|].
  destruct (max_by _ _); cbn; [tauto | exact I].
Qed.


(** ** Ranges of the scores *)

Lemma char_env_cosine_in_unit : cosine_in_unit char_env.
Proof. intros a b q [= <-]. lra. Qed.

Lemma v3_pattern_score_le_1 (self : V3.classifier)
      (tv : V3.text_variants) (category : pystr) :
  (V3.calculate_pattern_score self tv category <= 1)%Q.
Proof.
  unfold V3.calculate_pattern_score.
  destruct (dict_get _ category) as [patterns|]; [|lra].
  cbv zeta. destruct patterns as [|p l]; [lra|].
  apply Qle_shift_div_r; [apply Qlen_pos|]. rewrite Qmult_1_l.
  set (f := fun pattern : pystr => existsb _ _).
  pose proof (filter_length_le f (p :: l)) as H.
  unfold Qlen. rewrite <- Zle_Qle. lia.
Qed.

Lemma v3_similarity_score_unit (env : collaborators) (self : V3.classifier)
      (tv : V3.text_variants) (category : pystr) :
  cosine_in_unit env ->
  (0 <= V3.calculate_similarity_score env self tv category <= 1)%Q.
Proof.
  intros Hc. unfold V3.calculate_similarity_score.
  destruct (V3.vectorizer self) as [transform|]; [|lra].
  destruct (dict_get _ category) as [cv|]; [|lra].
  destruct (nonempty _); [|lra].
  destruct (transform _) as [iv|]; [|lra].
  destruct (cosine_similarity env iv cv) as [q|] eqn:E; [|lra].
  exact (Hc _ _ _ E).
Qed.

(** X7.  The four sub-scores of v3 lie between 0 and 1 when the cosine
    of the library does; their weighted sum then lies between 0 and 1
    too, and the score after the exclusion rules, which is what the
    confidence is taken from, between 0 and 2. *)
Theorem X7_v3_scores_are_bounded
        (env : collaborators) (self : V3.classifier)
        (tv : V3.text_variants) (category : pystr) :
  cosine_in_unit env ->
  let s := V3.score_category env self tv category in
  (0 <= V3.reserved_score s <= 1)%Q
  /\ (0 <= V3.keyword_score s <= 1)%Q
  /\ (0 <= V3.pattern_score s <= 1)%Q
  /\ (0 <= V3.similarity_score s <= 1)%Q
  /\ (0 <= V3.combine (V3.reserved_score s) (V3.keyword_score s)
                      (V3.pattern_score s) (V3.similarity_score s) <= 1)%Q
  /\ (0 <= V3.total_score s <= 2)%Q.
Proof.
  intros Hc. cbv zeta. unfold V3.score_category. cbv zeta.
  cbn [V3.reserved_score V3.keyword_score V3.pattern_score
       V3.similarity_score V3.total_score].
  pose proof (v3_reserved_score_bounds self tv category) as Hr.
  pose proof (v3_keyword_score_bounds self tv category) as Hk.
  pose proof (v3_pattern_score_nonneg self tv category) as Hp0.
  pose proof (v3_pattern_score_le_1 self tv category) as Hp1.
  pose proof (v3_similarity_score_unit env self tv category Hc) as Hs.
  set (r := V3.calculate_reserved_word_score self tv category) in *.
  set (k := V3.calculate_keyword_score self tv category) in *.
  set (p := V3.calculate_pattern_score self tv category) in *.
  set (q := V3.calculate_similarity_score env self tv category) in *.
  assert (Hb : (0 <= V3.combine r k p q <= 1)%Q)
    by (unfold V3.combine; lra).
  repeat (split; [lra|]).
  unfold V3.apply_exclusion_rules.
  destruct (dict_get _ category) as [rl|]; [|lra].
  pose proof (apply_rules_range rl tv (V3.combine r k p q) (proj1 Hb)).
  lra.
Qed.

Lemma X7_witness :
  cosine_in_unit char_env
  /\ (0 <= V3.total_score
             (V3.score_category char_env v3_example
                (V3.preprocess_text char_env V3.reserved_words
                   (u "防火牆設備")) (u "硬體")) <= 2)%Q.
Proof.
  split; [exact char_env_cosine_in_unit|].
  apply (X7_v3_scores_are_bounded char_env v3_example
           (V3.preprocess_text char_env V3.reserved_words (u "防火牆設備"))
           (u "硬體") char_env_cosine_in_unit).
Defined.

(** *** The score of the reserved words *)

Lemma reserved_fold_counts (keywords : V3.keyword_tiers) :
  forall l score n,
    snd (fold_left (V3.reserved_step keywords) l (score, n))
    = n + length (filter (counts_for keywords) l)
    /\ (score + 2 * Qlen (filter (counts_for keywords) l)
        <= fst (fold_left (V3.reserved_step keywords) l (score, n))
        <= score + 4 * Qlen (filter (counts_for keywords) l))%Q.
Proof.
  induction l as [|w l IH]; intros score n.
  - cbn [fold_left filter fst snd length]. rewrite Qlen_nil.
    split; [lia | lra].
  - cbn [fold_left filter].
    assert (Hs : exists d,
               (2 <= d <= 4)%Q
               /\ V3.reserved_step keywords (score, n) w
                  = if counts_for keywords w
                    then ((score + d)%Q, S n) else (score, n)).
    { unfold V3.reserved_step, counts_for.
      destruct (V3.found_in (V3.strong keywords) w);
        [exists 4%Q; cbn [orb]; split; [lra | reflexivity]|].
      destruct (V3.found_in (V3.medium keywords) w);
        [exists 3%Q; cbn [orb]; split; [lra | reflexivity]|].
      destruct (V3.found_in (V3.weak keywords) w);
        exists 2%Q; cbn [orb]; split; (lra || reflexivity). }
    destruct Hs as (d & Hd & ->). destruct (counts_for keywords w).
    + destruct (IH (score + d)%Q (S n)) as [H1 H2].
      rewrite Qlen_cons. cbn [length]. split; [lia | lra].
    + apply IH.
Qed.

Lemma Qlen_le_double {A B} (a : list A) (b : list B) :
  length a <= 2 * length b -> (Qlen a <= 2 * Qlen b)%Q.
Proof.
  intros H. unfold Qlen.
  change 2%Q with (inject_Z 2). rewrite <- inject_Z_mult, <- Zle_Qle. lia.
Qed.

(** X8.  The weights 4, 3 and 2 of the three tiers are divided by the
    number of found reserved words and cut at 1: the reserved-word
    score of a category is 0 exactly when no found word matches one of
    its keywords, and it is already 1 when half of the found words
    do, whatever their tiers. *)
Theorem X8_reserved_score_saturates
        (self : V3.classifier) (tv : V3.text_variants)
        (category : pystr) (keywords : V3.keyword_tiers) :
  dict_get (V3.category_keywords self) category = Some keywords ->
  let words := V3.tv_reserved_words tv in
  let matched := filter (counts_for keywords) words in
  let score := V3.calculate_reserved_word_score self tv category in
  ((score == 0)%Q <-> matched = [])
  /\ (0 < length words <= 2 * length matched -> (score == 1)%Q).
Proof.
  intros Hk. cbv zeta. unfold V3.calculate_reserved_word_score.
  rewrite Hk. destruct (V3.tv_reserved_words tv) as [|w l] eqn:E.
  - cbn [filter length]. split; [split; reflexivity | lia].
  - destruct (reserved_fold_counts keywords (w :: l) 0%Q O) as [Hn Hs].
    destruct (fold_left _ (w :: l) _) as [score n]. cbn [fst snd] in *.
    set (matched := filter (counts_for keywords) (w :: l)) in *.
    pose proof (Qlen_pos w l) as Hl.
    destruct (0 <? n) eqn:En.
    + apply Nat.ltb_lt in En.
      assert (Hm : (1 <= Qlen matched)%Q).
      { unfold Qlen. change 1%Q with (inject_Z 1).
        rewrite <- Zle_Qle. lia. }
      assert (Hq : (0 < score / Qlen (w :: l))%Q).
      { apply Qlt_shift_div_l; [exact Hl | lra]. }
      split.
      * split.
        -- intros H0. exfalso.
           destruct (Q.min_spec (score / Qlen (w :: l)) 1) as [[_ K]|[_ K]];
             rewrite K in H0; lra.
        -- intros K. rewrite K in Hn. cbn in Hn. lia.
      * intros [_ Hh]. apply Q.min_r.
        apply Qle_shift_div_l; [exact Hl|].
        pose proof (Qlen_le_double (w :: l) matched Hh). lra.
    + apply Nat.ltb_ge in En. split.
      * split; [|reflexivity]. intros _.
        destruct matched; [reflexivity | cbn in Hn; lia].
      * intros [_ Hh]. cbn [length] in Hh. lia.
Qed.

Lemma X8_witness :
  exists keywords,
    dict_get (V3.category_keywords v3_example) (u "硬體") = Some keywords
    /\ (V3.calculate_reserved_word_score v3_example
          (V3.preprocess_text char_env V3.reserved_words (u "防火牆設備"))
          (u "硬體") == 1)%Q.
Proof.
  eexists. split; [reflexivity|].
  refine (proj2 (X8_reserved_score_saturates v3_example
                   (V3.preprocess_text char_env V3.reserved_words
                      (u "防火牆設備"))
                   (u "硬體") _ eq_refl) _).
  vm_compute. lia.
Defined.

(** ** The decision *)

(** [max] returns the first of the elements with the largest key. *)
Lemma first_max_spec {A} (key : A -> Q) :
  forall l x,
  exists before after,
    x :: l = before ++ first_max key x l :: after
    /\ (forall y, In y before -> (key y < key (first_max key x l))%Q)
    /\ (forall y, In y after -> (key y <= key (first_max key x l))%Q).
Proof.
  induction l as [|y r IH]; intros x.
  - exists [], []. cbn. split; [reflexivity | split; intros ? []].
  - destruct (IH y) as (before & after & E & Hb & Ha). cbn [first_max].
    destruct (Qltb (key x) (key (first_max key y r))) eqn:C.
    + apply Qltb_lt in C. exists (x :: before), after. rewrite E.
      split; [reflexivity|]. split; [|exact Ha].
      intros z [<-|Hz]; [exact C | now apply Hb].
    + apply Qltb_ge in C. exists [], (y :: r).
      split; [reflexivity|]. split; [intros ? []|].
      intros z Hz. rewrite E in Hz. apply in_app_or in Hz.
      destruct Hz as [Hz|[<-|Hz]].
      * apply Hb in Hz. lra.
      * exact C.
      * apply Ha in Hz. lra.
Qed.

Lemma fold_best_first_max {A} (key : A -> Q) :
  forall r y best,
    fold_left (fun best z => if Qltb (key best) (key z) then z else best)
              (y :: r) best
    = if Qltb (key best) (key (first_max key y r))
      then first_max key y r else best.
Proof.
  induction r as [|z r IH]; intros y best; [reflexivity|].
  change (fold_left ?f (y :: z :: r) best)
    with (fold_left f (z :: r) (f best y)).
  rewrite IH. cbn [first_max]. cbv beta.
  set (m := first_max key z r).
  destruct (Qltb (key best) (key y)) eqn:C1;
    destruct (Qltb (key y) (key m)) eqn:C2;
    destruct (Qltb (key best) (key m)) eqn:C3;
    try rewrite C1; try rewrite C2; try rewrite C3; try reflexivity;
    repeat match goal with
           | H : Qltb _ _ = true |- _ => apply Qltb_lt in H
           | H : Qltb _ _ = false |- _ => apply Qltb_ge in H
           end; lra.
Qed.

Lemma max_by_first_max {A} (key : A -> Q) (x : A) (l : list A) :
  max_by key (x :: l) = Returns (first_max key x l).
Proof.
  unfold max_by. f_equal. revert x. induction l as [|y r IH]; intros x;
    [reflexivity|].
  rewrite fold_best_first_max. reflexivity.
Qed.

Lemma sorted_desc_head {A} (key : A -> Q) :
  forall l x, exists rest,
    sorted_desc key (x :: l) = first_max key x l :: rest.
Proof.
  induction l as [|y r IH]; intros x; [now exists []|].
  destruct (IH y) as (rest & E).
  change (sorted_desc key (x :: y :: r))
    with (insert_desc key x (sorted_desc key (y :: r))).
  rewrite E. cbn [insert_desc first_max].
  destruct (Qltb (key x) (key (first_max key y r))); eauto.
Qed.

Lemma insert_desc_perm {A} (key : A -> Q) (x : A) (l : list A) :
  Permutation (insert_desc key x l) (x :: l).
Proof.
  induction l as [|y l IH]; [reflexivity|]. cbn [insert_desc].
  destruct (Qltb (key x) (key y)); [|reflexivity].
  rewrite IH. apply perm_swap.
Qed.

Lemma sorted_desc_perm {A} (key : A -> Q) (l : list A) :
  Permutation (sorted_desc key l) l.
Proof.
  induction l as [|x l IH]; [reflexivity|].
  cbn [sorted_desc fold_right]. rewrite insert_desc_perm.
  now constructor.
Qed.

Lemma In_insert_desc {A} (key : A -> Q) (x y : A) (l : list A) :
  In y (insert_desc key x l) <-> y = x \/ In y l.
Proof.
  split; intros H.
  - apply (Permutation_in _ (insert_desc_perm key x l)) in H.
    destruct H as [<-|H]; auto.
  - apply (Permutation_in _ (Permutation_sym (insert_desc_perm key x l))).
    destruct H as [->|H]; [now left | now right].
Qed.

Lemma insert_desc_sorted {A} (key : A -> Q) (x : A) (l : list A) :
  StronglySorted (fun a b => (key b <= key a)%Q) l ->
  StronglySorted (fun a b => (key b <= key a)%Q) (insert_desc key x l).
Proof.
  induction 1 as [|y l Hs IH Hy]; cbn [insert_desc].
  - repeat constructor.
  - destruct (Qltb (key x) (key y)) eqn:C.
    + apply Qltb_lt in C. constructor; [exact IH|].
      rewrite Forall_forall in *. intros z Hz.
      apply In_insert_desc in Hz. destruct Hz as [->|Hz];
        [lra | now apply Hy].
    + apply Qltb_ge in C. constructor; [now constructor|].
      rewrite Forall_forall in *. intros z [<-|Hz]; [exact C|].
      apply Hy in Hz. lra.
Qed.

Lemma sorted_desc_sorted {A} (key : A -> Q) (l : list A) :
  StronglySorted (fun a b => (key b <= key a)%Q) (sorted_desc key l).
Proof.
  induction l as [|x l IH]; [constructor|].
  cbn [sorted_desc fold_right]. now apply insert_desc_sorted.
Qed.

Lemma In_unique_from (x : pystr) :
  forall l seen, In x (unique_from seen l) -> In x l.
Proof.
  induction l as [|y l IH]; intros seen; cbn [unique_from]; [intros []|].
  destruct (mem y seen); [right; eauto|].
  intros [<-|H]; [now left | right; eauto].
Qed.

Lemma unique_nonempty (x : pystr) (l : list pystr) :
  exists c r, unique (x :: l) = c :: r.
Proof. rewrite unique_cons. eauto. Qed.

(** What [classify_text] does, with the maximum written as the first
    highest element. *)
Lemma v3_classify_text_spec (env : collaborators) (self : V3.classifier)
      (text : pystr) :
  let f := fun category =>
    (category,
     V3.score_category env self
       (V3.preprocess_text env (V3.reserved_processor self) text)
       category) in
  let key := fun kv : pystr * V3.scores => V3.total_score (snd kv) in
  match run (V3.classify_text env text) self with
  | Returns (V3.Classified r) =>
      exists c cs,
        unique (List.map snd (V3.data self)) = c :: cs
        /\ V3.all_scores r = List.map f (c :: cs)
        /\ V3.sorted_scores r = sorted_desc key (V3.all_scores r)
        /\ V3.best_prediction r
           = fst (first_max key (f c) (List.map f cs))
        /\ V3.confidence r
           = V3.total_score (snd (first_max key (f c) (List.map f cs)))
  | Returns V3.No_training_data => V3.data self = []
  | Raises => False
  end.
Proof.
  cbv zeta. unfold run, V3.classify_text, bind, get, ret.
  destruct (V3.data self) as [|row rows] eqn:D; [reflexivity|].
  destruct (unique_nonempty (snd row) (List.map snd rows)) as (c & cs & U).
  change (List.map snd (row :: rows)) with (snd row :: List.map snd rows).
  rewrite U. cbn [List.map]. rewrite max_by_first_max.
  exists c, cs. repeat split; reflexivity.
Qed.

Lemma ultimate_classify_spec (env : collaborators)
      (self : Ultimate.classifier) (text : pystr) :
  let f := fun category =>
    (category,
     Ultimate.calculate_score env self
       (Ultimate.process_text_with_reserved_words env self text)
       category) in
  match run (Ultimate.classify env text) self with
  | Returns (Ultimate.Classified r) =>
      exists c cs,
        unique (List.map snd (Ultimate.data self)) = c :: cs
        /\ Ultimate.all_scores r = List.map f (c :: cs)
        /\ Ultimate.sorted_scores r = sorted_desc snd (Ultimate.all_scores r)
        /\ (Ultimate.predicted_category r, Ultimate.confidence r)
           = first_max snd (f c) (List.map f cs)
  | Returns Ultimate.No_training_data => Ultimate.data self = []
  | Raises => False
  end.
Proof.
  cbv zeta. unfold run, Ultimate.classify, bind, get, ret.
  destruct (Ultimate.data self) as [|row rows] eqn:D; [reflexivity|].
  destruct (unique_nonempty (snd row) (List.map snd rows)) as (c & cs & U).
  change (List.map snd (row :: rows)) with (snd row :: List.map snd rows).
  rewrite U. cbn [List.map]. rewrite max_by_first_max.
  exists c, cs. repeat split; try reflexivity.
  cbn [Ultimate.predicted_category Ultimate.confidence].
  now rewrite <- surjective_pairing.
Qed.

(** X9.  With training data the table of scores of both classifiers
    is not empty, so taking its maximum does not raise: a prediction
    is returned, it is a category of the data, and it is the first
    category, in the order of the table, whose score is the highest;
    the confidence is that score.  The error reply is returned exactly
    when there is no training data. *)
Theorem X9_prediction_is_the_first_highest_score
        (env : collaborators) (v3 : V3.classifier)
        (ultimate : Ultimate.classifier) (text : pystr) :
  match run (V3.classify_text env text) v3 with
  | Returns (V3.Classified r) =>
      In (V3.best_prediction r) (List.map snd (V3.data v3))
      /\ exists s before after,
           V3.all_scores r = before ++ (V3.best_prediction r, s) :: after
           /\ V3.confidence r = V3.total_score s
           /\ (forall c, In c before ->
                 (V3.total_score (snd c) < V3.confidence r)%Q)
           /\ (forall c, In c after ->
                 (V3.total_score (snd c) <= V3.confidence r)%Q)
  | Returns V3.No_training_data => V3.data v3 = []
  | Raises => False
  end
  /\ match run (Ultimate.classify env text) ultimate with
     | Returns (Ultimate.Classified r) =>
         In (Ultimate.predicted_category r)
            (List.map snd (Ultimate.data ultimate))
         /\ exists before after,
              Ultimate.all_scores r
              = before
                ++ (Ultimate.predicted_category r, Ultimate.confidence r)
                   :: after
              /\ (forall c, In c before ->
                    (snd c < Ultimate.confidence r)%Q)
              /\ (forall c, In c after ->
                    (snd c <= Ultimate.confidence r)%Q)
     | Returns Ultimate.No_training_data => Ultimate.data ultimate = []
     | Raises => False
     end.
Proof.
  split.
  - pose proof (v3_classify_text_spec env v3 text) as H. cbv zeta in H.
    destruct (run (V3.classify_text env text) v3) as [[|r]|];
      [exact H | | exact H].
    destruct H as (c & cs & U & Ea & _ & Ep & Ec).
    set (f := fun category : pystr => (category, _)) in *.
    set (key := fun kv : pystr * V3.scores => V3.total_score (snd kv)) in *.
    change (V3.best_prediction r
            = fst (first_max key (f c) (List.map f cs))) in Ep.
    change (V3.confidence r
            = V3.total_score (snd (first_max key (f c) (List.map f cs))))
      in Ec.
    destruct (first_max_spec key (List.map f cs) (f c))
      as (before & after & E & Hb & Ha).
    remember (first_max key (f c) (List.map f cs)) as best eqn:Hbest in *.
    split.
    + assert (Hin : In best (List.map f (c :: cs)))
        by (cbn [List.map]; rewrite E; apply in_elt).
      apply in_map_iff in Hin. destruct Hin as (c' & Hc & Hc').
      rewrite Ep, <- Hc. cbn [fst]. rewrite <- U in Hc'.
      now apply In_unique_from in Hc'.
    + exists (snd best), before, after. rewrite Ea, Ep, Ec.
      rewrite <- surjective_pairing. auto.
  - pose proof (ultimate_classify_spec env ultimate text) as H.
    cbv zeta in H.
    destruct (run (Ultimate.classify env text) ultimate) as [[|r]|];
      [exact H | | exact H].
    destruct H as (c & cs & U & Ea & _ & Ep).
    set (f := fun category : pystr => (category, _)) in *.
    change ((Ultimate.predicted_category r, Ultimate.confidence r)
            = first_max snd (f c) (List.map f cs)) in Ep.
    destruct (first_max_spec snd (List.map f cs) (f c))
      as (before & after & E & Hb & Ha).
    rewrite <- Ep in *. cbn [snd] in *.
    split.
    + assert (Hin : In (Ultimate.predicted_category r,
                        Ultimate.confidence r) (List.map f (c :: cs)))
        by (cbn [List.map]; rewrite E; apply in_elt).
      apply in_map_iff in Hin. destruct Hin as (c' & Hc & Hc').
      injection Hc as <- _. rewrite <- U in Hc'.
      now apply In_unique_from in Hc'.
    + exists before, after. rewrite Ea. auto.
Qed.

(** X10.  The sorted list of scores that both classifiers return with
    the prediction holds the same entries as the table of scores, from
    the highest score to the lowest, and its first entry is the
    prediction with the confidence: the two outputs agree, also on
    which of several categories with the highest score comes first. *)
Theorem X10_sorted_scores_start_with_the_prediction
        (env : collaborators) (v3 : V3.classifier)
        (ultimate : Ultimate.classifier) (text : pystr) :
  match run (V3.classify_text env text) v3 with
  | Returns (V3.Classified r) =>
      Permutation (V3.sorted_scores r) (V3.all_scores r)
      /\ StronglySorted
           (fun a b => (V3.total_score (snd b) <= V3.total_score (snd a))%Q)
           (V3.sorted_scores r)
      /\ exists s rest,
           V3.sorted_scores r = (V3.best_prediction r, s) :: rest
           /\ V3.total_score s = V3.confidence r
  | Returns V3.No_training_data => V3.data v3 = []
  | Raises => False
  end
  /\ match run (Ultimate.classify env text) ultimate with
     | Returns (Ultimate.Classified r) =>
         Permutation (Ultimate.sorted_scores r) (Ultimate.all_scores r)
         /\ StronglySorted (fun a b => (snd b <= snd a)%Q)
                           (Ultimate.sorted_scores r)
         /\ exists rest,
              Ultimate.sorted_scores r
              = (Ultimate.predicted_category r, Ultimate.confidence r)
                :: rest
     | Returns Ultimate.No_training_data => Ultimate.data ultimate = []
     | Raises => False
     end.
Proof.
  split.
  - pose proof (v3_classify_text_spec env v3 text) as H. cbv zeta in H.
    destruct (run (V3.classify_text env text) v3) as [[|r]|];
      [exact H | | destruct H].
    destruct H as (c & cs & U & Ea & Es & Ep & Ec).
    set (f := fun category : pystr => (category, _)) in *.
    set (key := fun kv : pystr * V3.scores => V3.total_score (snd kv)) in *.
    change (V3.best_prediction r
            = fst (first_max key (f c) (List.map f cs))) in Ep.
    change (V3.confidence r
            = V3.total_score (snd (first_max key (f c) (List.map f cs))))
      in Ec.
    rewrite Es. split; [apply sorted_desc_perm|].
    split; [apply (sorted_desc_sorted key)|].
    rewrite Ea. cbn [List.map].
    destruct (sorted_desc_head key (List.map f cs) (f c)) as (rest & E).
    exists (snd (first_max key (f c) (List.map f cs))), rest.
    rewrite Ep, Ec, <- surjective_pairing. split; [exact E | reflexivity].
  - pose proof (ultimate_classify_spec env ultimate text) as H.
    cbv zeta in H.
    destruct (run (Ultimate.classify env text) ultimate) as [[|r]|];
      [exact H | | destruct H].
    destruct H as (c & cs & U & Ea & Es & Ep).
    set (f := fun category : pystr => (category, _)) in *.
    change ((Ultimate.predicted_category r, Ultimate.confidence r)
            = first_max snd (f c) (List.map f cs)) in Ep.
    rewrite Es. split; [apply sorted_desc_perm|].
    split; [apply (sorted_desc_sorted snd)|].
    rewrite Ea. cbn [List.map].
    destruct (sorted_desc_head snd (List.map f cs) (f c)) as (rest & E).
    exists rest. rewrite Ep. exact E.
Qed.

(** X11.  In the second classifier a category of the data for which
    no rules are written scores 0 on every input, so it is predicted
    only when no category scores more than 0. *)
Theorem X11_category_without_rules_wins_only_at_zero
        (env : collaborators) (self : Ultimate.classifier) (text : pystr) :
  (forall p category,
      has_key (Ultimate.category_rules self) category = false ->
      Ultimate.calculate_score env self p category = 0%Q)
  /\ match run (Ultimate.classify env text) self with
     | Returns (Ultimate.Classified r) =>
         has_key (Ultimate.category_rules self)
                 (Ultimate.predicted_category r) = true
         \/ forall c, In c (Ultimate.all_scores r) -> (snd c == 0)%Q
     | Returns Ultimate.No_training_data => Ultimate.data self = []
     | Raises => False
     end.
Proof.
  assert (Z : forall p category,
             has_key (Ultimate.category_rules self) category = false ->
             Ultimate.calculate_score env self p category = 0%Q).
  { intros p category H. unfold Ultimate.calculate_score.
    unfold has_key in H.
    destruct (dict_get _ category); [discriminate | reflexivity]. }
  split; [exact Z|].
  pose proof (ultimate_classify_spec env self text) as H. cbv zeta in H.
  destruct (run (Ultimate.classify env text) self) as [[|r]|];
    [exact H | | destruct H].
  destruct H as (c & cs & U & Ea & _ & Ep).
  set (f := fun category : pystr => (category, _)) in *.
  change ((Ultimate.predicted_category r, Ultimate.confidence r)
          = first_max snd (f c) (List.map f cs)) in Ep.
  destruct (has_key (Ultimate.category_rules self)
              (Ultimate.predicted_category r)) eqn:K; [now left|].
  right. intros x Hx.
  destruct (first_max_spec snd (List.map f cs) (f c))
    as (before & after & E & Hb & Ha).
  rewrite <- Ep in *. cbn [snd] in *.
  assert (Hin : In (Ultimate.predicted_category r, Ultimate.confidence r)
                   (List.map f (c :: cs)))
    by (cbn [List.map]; rewrite E; apply in_elt).
  apply in_map_iff in Hin. destruct Hin as (c' & Hc & _).
  injection Hc as Hc1 Hc2. subst c'. rewrite (Z _ _ K) in Hc2.
  assert (Hle : (snd x <= 0)%Q).
  { rewrite Hc2. rewrite Ea in Hx. cbn [List.map] in Hx. rewrite E in Hx.
    apply in_app_or in Hx. destruct Hx as [Hx|[<-|Hx]].
    - apply Hb in Hx. lra.
    - cbn [snd]. lra.
    - now apply Ha. }
  assert (Hge : (0 <= snd x)%Q).
  { rewrite Ea in Hx. apply in_map_iff in Hx.
    destruct Hx as (c' & <- & _). apply ultimate_score_nonneg. }
  lra.
Qed.

(** ** The interactive classifier *)

Lemma str_eqb_sym (a b : pystr) : str_eqb a b = str_eqb b a.
Proof.
  destruct (str_eqb a b) eqn:E1, (str_eqb b a) eqn:E2; try reflexivity.
  - apply str_eqb_eq in E1. subst. now rewrite str_eqb_refl in E2.
  - apply str_eqb_eq in E2. subst. now rewrite str_eqb_refl in E1.
Qed.

Lemma dict_get_set_other {V} (d : dict V) (k k' : pystr) (v : V) :
  dict_get (dict_set d k v) k'
  = if str_eqb k' k then Some v else dict_get d k'.
Proof.
  induction d as [|[k0 v0] d IH]; [reflexivity|]. cbn [dict_set dict_get].
  destruct (str_eqb k k0) eqn:E0; cbn [dict_get].
  - apply str_eqb_eq in E0. subst k0. now destruct (str_eqb k' k).
  - rewrite IH. destruct (str_eqb k' k0) eqn:E1; [|reflexivity].
    destruct (str_eqb k' k) eqn:E2; [|reflexivity].
    apply str_eqb_eq in E1, E2. subst. now rewrite str_eqb_refl in E0.
Qed.

Lemma count_of_set (counts : dict nat) (k c : pystr) (n : nat) :
  Interactive.count_of (dict_set counts k n) c
  = if str_eqb c k then n else Interactive.count_of counts c.
Proof.
  unfold Interactive.count_of. rewrite dict_get_set_other.
  now destruct (str_eqb c k).
Qed.

Lemma list_sum_set (counts : dict nat) (k : pystr) :
  list_sum (List.map snd
              (dict_set counts k (Interactive.count_of counts k + 1)))
  = list_sum (List.map snd counts) + 1.
Proof.
  unfold Interactive.count_of, list_sum.
  induction counts as [|[k0 n0] d IH]; [reflexivity|].
  cbn [dict_set dict_get]. destruct (str_eqb k k0);
    cbn [List.map snd fold_right]; [lia|].
  rewrite IH. lia.
Qed.

Lemma stats_fold_raises (h : list Interactive.record) :
  fold_left Interactive.stats_step h Raises = Raises.
Proof. induction h as [|r h IH]; [reflexivity | exact IH]. Qed.

(** The loop of [show_stats]: it raises on the first error reply, and
    otherwise counts what the records hold. *)
Lemma stats_fold_spec :
  forall (h : list Interactive.record) counts sum high,
    match fold_left Interactive.stats_step h (Returns (counts, sum, high))
    with
    | Raises => existsb Interactive.is_error h = true
    | Returns (counts', sum', high') =>
        existsb Interactive.is_error h = false
        /\ (forall c,
              Interactive.count_of counts' c
              = Interactive.count_of counts c
                + length (filter (Interactive.predicted_is c) h))
        /\ list_sum (List.map snd counts')
           = list_sum (List.map snd counts) + length h
        /\ high'
           = high
             + length (filter
                         (fun r => Qltb (8 # 10) (Interactive.confidence_of r))
                         h)
    end.
Proof.
  induction h as [|r h IH]; intros counts sum high.
  - cbn. repeat split; intros; try lia; try lra.
  - cbn [fold_left]. unfold Interactive.stats_step at 2.
    destruct (Interactive.result r) as [|reply] eqn:Er.
    + rewrite stats_fold_raises. cbn [existsb].
      unfold Interactive.is_error, Interactive.predicted. now rewrite Er.
    + cbv zeta.
      specialize (IH (dict_set counts (Ultimate.predicted_category reply)
                        (Interactive.count_of counts
                           (Ultimate.predicted_category reply) + 1))
                     (sum + Ultimate.confidence reply)%Q
                     (if Qltb (8 # 10) (Ultimate.confidence reply)
                      then S high else high)).
      destruct (fold_left _ h _) as [[[counts' sum'] high']|].
      * destruct IH as (H0 & H1 & H2 & H3).
        assert (Hp : Interactive.predicted r
                     = Some (Ultimate.predicted_category reply,
                             Ultimate.confidence reply))
          by (unfold Interactive.predicted; now rewrite Er).
        assert (He : Interactive.is_error r = false)
          by (unfold Interactive.is_error; now rewrite Hp).
        assert (Hc : Interactive.confidence_of r = Ultimate.confidence reply)
          by (unfold Interactive.confidence_of; now rewrite Hp).
        assert (Hi : forall c, Interactive.predicted_is c r
                               = str_eqb (Ultimate.predicted_category reply) c)
          by (intros c; unfold Interactive.predicted_is; now rewrite Hp).
        cbn [existsb filter List.map fold_right length].
        rewrite He, Hc. cbn [orb].
        split; [exact H0|]. split; [|split].
        -- intros c. rewrite H1, count_of_set, Hi.
           rewrite (str_eqb_sym c). destruct (str_eqb _ c) eqn:Ec.
           ++ apply str_eqb_eq in Ec. subst c. cbn [length]. lia.
           ++ lia.
        -- rewrite H2, list_sum_set. lia.
        -- rewrite H3. destruct (Qltb _ _); cbn [length]; lia.
      * cbn [existsb]. rewrite IH. apply orb_true_r.
Qed.

Lemma show_stats_raises (h : list Interactive.record) :
  Interactive.show_stats h = Raises
  <-> existsb Interactive.is_error h = true.
Proof.
  unfold Interactive.show_stats. destruct h as [|r h].
  - split; discriminate.
  - pose proof (stats_fold_spec (r :: h) [] 0%Q O) as H.
    destruct (fold_left _ (r :: h) _) as [[[counts sum] high]|].
    + destruct H as (H & _). rewrite H. split; discriminate.
    + tauto.
Qed.

Lemma classify_single_loaded (env : collaborators) (text : pystr)
      (c : Ultimate.classifier) (h : list Interactive.record) :
  exists reply,
    Interactive.classify_single env text
      {| Interactive.classifier := Some c;
         Interactive.session_history := h |}
    = (Some reply,
       {| Interactive.classifier := Some c;
          Interactive.session_history :=
            h ++ [{| Interactive.input := text;
                     Interactive.result := reply |}] |})
    /\ run (Ultimate.classify env text) c = Returns reply
    /\ (reply = Ultimate.No_training_data <-> Ultimate.data c = []).
Proof.
  unfold Interactive.classify_single.
  cbn [Interactive.classifier Interactive.session_history].
  pose proof (ultimate_classify_reads_only env text c) as Hs.
  pose proof (ultimate_classify_spec env c text) as H. cbv zeta in H.
  unfold run in *. destruct (Ultimate.classify env text c) as [o c'].
  cbn [fst snd] in *. subst c'.
  destruct o as [[|r]|]; [| |destruct H].
  - exists Ultimate.No_training_data. repeat split; auto.
  - exists (Ultimate.Classified r). repeat split; try discriminate.
    destruct H as (c0 & cs & U & _). intros D. rewrite D in U.
    discriminate U.
Qed.

(** X12.  A call of [classify_single] on a loaded classifier returns
    the reply of [classify], appends one record with the input and
    that reply to the history, and leaves the classifier as it was;
    the reply is the error reply exactly when there is no training
    data, and it is recorded like any other.  Without a classifier
    the call returns nothing and records nothing. *)
Theorem X12_classify_single_records_every_reply
        (env : collaborators) (text : pystr) (self : Interactive.session) :
  match Interactive.classifier self with
  | None => Interactive.classify_single env text self = (None, self)
  | Some c =>
      exists reply,
        Interactive.classify_single env text self
        = (Some reply,
           {| Interactive.classifier := Some c;
              Interactive.session_history :=
                Interactive.session_history self
                ++ [{| Interactive.input := text;
                       Interactive.result := reply |}] |})
        /\ run (Ultimate.classify env text) c = Returns reply
        /\ (reply = Ultimate.No_training_data <-> Ultimate.data c = [])
  end.
Proof.
  destruct self as [[c|] h]; cbn [Interactive.classifier];
    [|reflexivity].
  apply classify_single_loaded.
Qed.

(** X13.  What [show_stats] counts: it raises exactly when a record
    of the history holds the error reply.  Otherwise the count of a
    category is the number of records that predict it, the counts add
    up to the number of records, and the high-confidence count is the
    number of records whose confidence is above 0.8.  Nothing is said
    of the sum and of the average of the confidences, which the code
    computes in doubles. *)
Theorem X13_session_statistics (h : list Interactive.record) :
  match Interactive.show_stats h with
  | Raises => existsb Interactive.is_error h = true
  | Returns None => h = []
  | Returns (Some st) =>
      existsb Interactive.is_error h = false
      /\ Interactive.total_records st = length h
      /\ (forall c,
            Interactive.count_of (Interactive.category_counts st) c
            = length (filter (Interactive.predicted_is c) h))
      /\ list_sum (List.map snd (Interactive.category_counts st))
         = length h
      /\ Interactive.high_confidence_count st
         = length (filter
                     (fun r => Qltb (8 # 10) (Interactive.confidence_of r))
                     h)
      /\ Interactive.high_confidence_count st <= Interactive.total_records st
  end.
Proof.
  unfold Interactive.show_stats. destruct h as [|r h]; [reflexivity|].
  pose proof (stats_fold_spec (r :: h) [] 0%Q O) as H.
  destruct (fold_left _ (r :: h) _) as [[[counts sum] high]|]; [|exact H].
  destruct H as (H0 & H1 & H2 & H3).
  cbn [Interactive.total_records Interactive.category_counts
       Interactive.high_confidence_count].
  split; [exact H0|]. split; [reflexivity|]. split; [|split; [|split]].
  - intros c. rewrite H1. reflexivity.
  - rewrite H2. reflexivity.
  - rewrite H3. reflexivity.
  - rewrite H3. cbn [Nat.add]. apply filter_length_le.
Qed.

(** X14.  Without training data every input of a session is answered
    with the error reply, the reply is recorded, and the statistics of
    the session raise from then on; with training data a call adds a
    record that the statistics can read. *)
Theorem X14_error_reply_breaks_the_statistics
        (env : collaborators) (text : pystr) (c : Ultimate.classifier)
        (h : list Interactive.record) :
  let self := {| Interactive.classifier := Some c;
                 Interactive.session_history := h |} in
  let after :=
    Interactive.session_history
      (snd (Interactive.classify_single env text self)) in
  match Ultimate.data c with
  | [] =>
      fst (Interactive.classify_single env text self)
      = Some Ultimate.No_training_data
      /\ Interactive.show_stats after = Raises
  | _ :: _ =>
      Interactive.show_stats after = Raises
      <-> Interactive.show_stats h = Raises
  end.
Proof.
  cbv zeta. destruct (classify_single_loaded env text c h)
    as (reply & E & _ & Hd).
  rewrite E. cbn [fst snd Interactive.session_history].
  destruct (Ultimate.data c) as [|row rows] eqn:D.
  - assert (Hr : reply = Ultimate.No_training_data) by now apply Hd.
    subst reply. split; [reflexivity|].
    apply show_stats_raises. rewrite existsb_app. cbn. apply orb_true_r.
  - rewrite !show_stats_raises, existsb_app. cbn [existsb].
    destruct reply as [|r].
    + assert (K : row :: rows = []) by now apply Hd. discriminate K.
    + cbn. rewrite !orb_false_r. tauto.
Qed.

(** ** Construction of the classifiers *)

Lemma In_keys_dict_extend {V} (d : dict (list V)) (k c : pystr)
      (l : list V) :
  In c (keys (dict_extend d k l)) <-> In c (keys d) \/ c = k.
Proof.
  rewrite keys_dict_extend. destruct (mem k (keys d)) eqn:E.
  - apply mem_In in E. split; [tauto|]. intros [H| ->]; assumption.
  - rewrite in_app_iff. cbn [In]. intuition congruence.
Qed.

Lemma NoDup_keys_dict_extend {V} (d : dict (list V)) (k : pystr)
      (l : list V) :
  NoDup (keys d) -> NoDup (keys (dict_extend d k l)).
Proof.
  intros H. rewrite keys_dict_extend. destruct (mem k (keys d)) eqn:E;
    [exact H|].
  apply NoDup_app; [exact H | repeat constructor; intros [] |].
  intros x Hx [<-|[]]. apply mem_In in Hx. congruence.
Qed.

Lemma In_keys_dict_set {V} (d : dict V) (k c : pystr) (v : V) :
  In c (keys (dict_set d k v)) <-> In c (keys d) \/ c = k.
Proof.
  rewrite keys_dict_set. destruct (mem k (keys d)) eqn:E.
  - apply mem_In in E. split; [tauto|]. intros [H| ->]; assumption.
  - rewrite in_app_iff. cbn [In]. intuition congruence.
Qed.

Section CategoryTexts.

Variable variants : pystr -> list pystr.

(** The keys of [category_texts] are the categories of the rows. *)
Lemma collect_keys :
  forall rows d c,
    In c (keys (fold_left (fun texts row =>
                           dict_extend texts (snd row)
                                       (variants (fst row)))
                        rows d))
    <-> In c (keys d) \/ In c (List.map snd rows).
Proof.
  induction rows as [|row rows IH]; intros d c; cbn [fold_left List.map In].
  - tauto.
  - rewrite IH, In_keys_dict_extend.
    intuition congruence.
Qed.

Lemma collect_NoDup :
  forall rows d, NoDup (keys d) -> NoDup (keys (fold_left (fun texts row =>
                           dict_extend texts (snd row)
                                       (variants (fst row)))
                        rows d)).
Proof.
  induction rows as [|row rows IH]; intros d H; [exact H|].
  cbn [fold_left]. apply IH.
  now apply NoDup_keys_dict_extend.
Qed.

(** The texts of a category are the variants of its asset names. *)
Lemma collect_texts :
  forall rows d c text,
    In text (get_or_nil (dict_get (fold_left (fun texts row =>
                           dict_extend texts (snd row)
                                       (variants (fst row)))
                        rows d) c))
    <-> In text (get_or_nil (dict_get d c))
        \/ exists row, In row rows /\ snd row = c
                       /\ In text (variants (fst row)).
Proof.
  induction rows as [|row rows IH]; intros d c text.
  - cbn. split; [tauto | intros [H|(r & [] & _)]; exact H].
  - cbn [fold_left]. rewrite IH, dict_get_extend.
    destruct (str_eqb c (snd row)) eqn:E.
    + apply str_eqb_eq in E. rewrite in_app_iff. split.
      * intros [[H|H]|(r & H1 & H2 & H3)]; [now left | |].
        -- right. exists row. split; [now left | now split].
        -- right. exists r. split; [now right | now split].
      * intros [H|(r & [<-|H1] & H2 & H3)].
        -- left. now left.
        -- left. now right.
        -- right. now exists r.
    + split.
      * intros [H|(r & H1 & H2 & H3)]; [now left|].
        right. exists r. split; [now right | now split].
      * intros [H|(r & [<-|H1] & H2 & H3)]; [now left | |].
        -- subst c. now rewrite str_eqb_refl in E.
        -- right. now exists r.
Qed.

End CategoryTexts.

Lemma NoDup_keys_In_get {V} (d : dict V) (k : pystr) (v : V) :
  NoDup (keys d) -> In (k, v) d -> dict_get d k = Some v.
Proof.
  induction d as [|[k0 v0] d IH]; [intros _ []|].
  cbn [keys List.map fst dict_get]. intros Hn [[= -> ->]|H].
  - now rewrite str_eqb_refl.
  - inversion Hn as [|? ? Hk Hd]; subst.
    destruct (str_eqb k k0) eqn:E; [|now apply IH].
    apply str_eqb_eq in E. subst k0. exfalso. apply Hk.
    apply in_map_iff. now exists (k, v).
Qed.

(** The labels are the categories that have a text that is not
    blank. *)
Lemma labelled_texts_labels (texts : dict (list pystr)) (c : pystr) :
  NoDup (keys texts) ->
  (In c (List.map snd (labelled_texts texts))
   <-> exists text, In text (get_or_nil (dict_get texts c))
                    /\ nonempty (strip text) = true).
Proof.
  intros Hn. unfold labelled_texts. rewrite in_map_iff. split.
  - intros ([text c'] & Hc & H). cbn [snd] in Hc. subst c'.
    apply in_flat_map in H. destruct H as ([k l] & Hkl & H).
    cbn [fst snd] in H. apply in_map_iff in H.
    destruct H as (t & [= -> ->] & Ht). apply filter_In in Ht.
    exists text. rewrite (NoDup_keys_In_get _ _ _ Hn Hkl). exact Ht.
  - intros (text & Ht & Hv).
    destruct (dict_get texts c) as [l|] eqn:E; [|destruct Ht].
    exists (text, c). split; [reflexivity|]. apply in_flat_map.
    assert (Hin : exists k, In (k, l) texts /\ k = c).
    { clear - E. induction texts as [|[k0 v0] d IH]; [discriminate|].
      cbn [dict_get] in E. destruct (str_eqb c k0) eqn:E0.
      - apply str_eqb_eq in E0. injection E as ->. exists k0.
        split; [now left | now symmetry].
      - destruct (IH E) as (k & Hk & Hc). exists k.
        split; [now right | exact Hc]. }
    destruct Hin as (k & Hk & ->). exists (c, l). split; [exact Hk|].
    cbn [fst snd]. apply in_map_iff. exists text.
    split; [reflexivity|]. apply filter_In. now split.
Qed.

Lemma indices_from_range (c : pystr) :
  forall labels i j,
    In j (indices_from i c labels) -> i <= j < i + length labels.
Proof.
  induction labels as [|l labels IH]; intros i j; cbn [indices_from length];
    [intros []|].
  destruct (str_eqb l c); cbn [In].
  - intros [<-|H]; [lia|]. apply IH in H. lia.
  - intros H. apply IH in H. lia.
Qed.

Lemma indices_from_nil (c : pystr) :
  forall labels i, indices_from i c labels = [] <-> ~ In c labels.
Proof.
  induction labels as [|l labels IH]; intros i; cbn [indices_from In].
  - tauto.
  - destruct (str_eqb l c) eqn:E.
    + apply str_eqb_eq in E. split; [discriminate | tauto].
    + rewrite IH. split; [|tauto]. intros H [K|K]; [|tauto].
      subst. now rewrite str_eqb_refl in E.
Qed.

Lemma take_rows_some (matrix : list (list Q)) :
  forall indices,
    (forall j, In j indices -> j < length matrix) ->
    exists rows, take_rows matrix indices = Some rows.
Proof.
  induction indices as [|i r IH]; intros H; [now exists []|].
  cbn [take_rows].
  destruct (nth_error matrix i) as [row|] eqn:E.
  - destruct IH as (rows & ->); [intros j Hj; apply H; now right|]. eauto.
  - apply nth_error_None in E. specialize (H i (or_introl eq_refl)). lia.
Qed.

(** The loop over the categories: it raises only when the matrix has
    fewer rows than there are labels; otherwise the categories with a
    label get the mean of their rows. *)
Lemma category_vectors_loop_spec (mean : list (list Q) -> list Q)
      (matrix : list (list Q)) (labels : list pystr) :
  forall categories vectors,
    match category_vectors_loop mean matrix labels categories vectors with
    | Returns vectors' =>
        (forall c, In c (keys vectors')
                   <-> In c (keys vectors)
                       \/ (In c categories /\ In c labels))
        /\ (NoDup (keys vectors) -> NoDup (keys vectors'))
        /\ (forall c vector,
              dict_get vectors' c = Some vector ->
              dict_get vectors c = Some vector
              \/ exists rows,
                   take_rows matrix (indices_from O c labels) = Some rows
                   /\ vector = mean rows)
    | Raises => length matrix < length labels
    end.
Proof.
  induction categories as [|category rest IH]; intros vectors;
    cbn [category_vectors_loop].
  - split; [|split]; [intros c; cbn [In]; tauto | auto | auto].
  - destruct (indices_from O category labels) as [|i idx] eqn:Ei.
    + apply indices_from_nil in Ei. specialize (IH vectors).
      destruct (category_vectors_loop _ _ _ rest vectors) as [v'|];
        [|exact IH].
      destruct IH as (H1 & H2 & H3). split; [|split; assumption].
      intros c. rewrite H1. cbn [In]. split; [tauto|].
      intros [H|[[->|H] K]]; tauto.
    + destruct (take_rows matrix (i :: idx)) as [rows|] eqn:Et.
      * specialize (IH (dict_set vectors category (mean rows))).
        destruct (category_vectors_loop _ _ _ rest _) as [v'|];
          [|exact IH].
        destruct IH as (H1 & H2 & H3). split; [|split].
        -- intros c. rewrite H1, In_keys_dict_set. cbn [In].
           assert (Hl : In category labels).
           { destruct (in_dec (list_eq_dec N.eq_dec) category labels)
               as [Hl|Hl]; [exact Hl|].
             apply indices_from_nil with (i := O) in Hl. congruence. }
           clear - Hl. intuition (subst; auto).
        -- intros Hn. apply H2. now apply NoDup_keys_dict_set.
        -- intros c vector Hv. destruct (H3 c vector Hv) as [K|K];
             [|now right].
           rewrite dict_get_set_other in K.
           destruct (str_eqb c category) eqn:E; [|now left].
           apply str_eqb_eq in E. subst c. injection K as <-.
           right. exists rows. rewrite Ei. now split.
      * destruct (le_lt_dec (length labels) (length matrix)) as [Hle|Hlt];
          [|exact Hlt].
        destruct (take_rows_some matrix (i :: idx)) as (rows & K);
          [|congruence].
        intros j Hj. rewrite <- Ei in Hj. apply indices_from_range in Hj.
        lia.
Qed.

Lemma space_run_firstn (s : pystr) (c : char) :
  In c (firstn (V3.space_run s) s) -> isspace c = true.
Proof.
  induction s as [|d r IH]; [intros []|]. cbn [V3.space_run].
  destruct (isspace d) eqn:E; [|intros []].
  cbn [firstn]. intros [<-|H]; [exact E | now apply IH].
Qed.

Lemma visible_char (s : pystr) :
  visible s = true <-> exists c, In c s /\ isspace c = false.
Proof.
  unfold visible. rewrite existsb_exists. split; intros (c & H & K);
    exists c; split; try exact H.
  - now apply negb_true_iff.
  - now apply negb_true_iff.
Qed.

Lemma visible_strip (s : pystr) :
  visible s = true -> nonempty (strip s) = true.
Proof.
  intros H. apply visible_char in H. destruct H as (c & H & K).
  apply (nonempty_In _ c). now apply strip_keeps.
Qed.

(** The cleaned text of a name that has a visible character is not
    blank. *)
Lemma v3_cleaned_visible (env : collaborators)
      (lexicon : dict (list pystr)) (name : pystr) :
  visible name = true ->
  visible (V3.tv_cleaned (V3.preprocess_text env lexicon name)) = true.
Proof.
  intros H. apply visible_char in H. destruct H as (c & H & K).
  apply visible_char. exists c. split; [|exact K].
  unfold V3.preprocess_text. cbv zeta. cbn [V3.tv_cleaned].
  destruct (sub_all_keeps V3.match_spaces (u " ")
              (fun d => isspace d = true)) with (s := strip name) (c := c)
    as [G|G]; [| now apply strip_keeps | exact G | congruence].
  intros s n Hm d Hd. unfold V3.match_spaces in Hm.
  destruct (V3.space_run s) as [|k] eqn:Es; [discriminate|].
  injection Hm as <-. rewrite <- Es in Hd. now apply space_run_firstn in Hd.
Qed.

(** X15.  What the construction of v3 leaves in [category_vectors]:
    only categories of the data get a vector, each one once; every
    category with an asset name that has a visible character gets one,
    and it is the mean of the rows that the vectorizer gave for the
    texts of that category.  The construction raises only when the
    library raises or returns fewer rows than it was given texts.
    The vectorizer is set whenever there is data. *)
Theorem X15_v3_category_vectors
        (env : collaborators) (lib : fitting)
        (lexicon : dict (list pystr)) (rows : list (pystr * pystr)) :
  let labelled := labelled_texts (V3Build.category_texts env lexicon rows) in
  let all_texts := List.map fst labelled in
  let category_labels := List.map snd labelled in
  match V3Build.build_enhanced_features env lib lexicon rows with
  | Returns (fitted, vectors) =>
      NoDup (keys vectors)
      /\ (forall c, In c (keys vectors) -> In c (List.map snd rows))
      /\ (forall name c, In (name, c) rows -> visible name = true ->
                         In c (keys vectors))
      /\ (forall c vector,
            dict_get vectors c = Some vector ->
            exists fitted' matrix category_rows,
              fit_transform lib all_texts = Some (fitted', matrix)
              /\ take_rows matrix (indices_from O c category_labels)
                 = Some category_rows
              /\ vector = mean lib category_rows)
      /\ (fitted = None <-> rows = [])
  | Raises =>
      match fit_transform lib all_texts with
      | Some (_, matrix) => length matrix < length all_texts
      | None => True
      end
  end.
Proof.
  cbv zeta. unfold V3Build.build_enhanced_features.
  destruct rows as [|row rows].
  - split; [constructor|]. split; [intros c []|].
    split; [intros name c []|]. split; [discriminate | tauto].
  - cbv zeta.
    set (texts := V3Build.category_texts env lexicon (row :: rows)).
    assert (Hn : NoDup (keys texts))
      by (apply (collect_NoDup (V3Build.variants_of env lexicon)); constructor).
    assert (Hk : forall c, In c (keys texts)
                           <-> In c (List.map snd (row :: rows))).
    { intros c. unfold texts, V3Build.category_texts.
      rewrite (collect_keys (V3Build.variants_of env lexicon)). cbn [keys List.map In]. tauto. }
    assert (Hv : forall name c,
               In (name, c) (row :: rows) -> visible name = true ->
               In c (List.map snd (labelled_texts texts))).
    { intros name c Hin Hvis. apply labelled_texts_labels; [exact Hn|].
      exists (V3.tv_cleaned (V3.preprocess_text env lexicon name)).
      split; [|now apply visible_strip, v3_cleaned_visible].
      unfold texts, V3Build.category_texts.
      apply (collect_texts (V3Build.variants_of env lexicon)). right. exists (name, c).
      split; [exact Hin|]. split; [reflexivity|]. now left. }
    destruct (List.map fst (labelled_texts texts)) as [|t ts] eqn:Et.
    + apply map_eq_nil in Et. split; [constructor|].
      split; [intros c []|]. split.
      * intros name c Hin Hvis. specialize (Hv name c Hin Hvis).
        rewrite Et in Hv. exact Hv.
      * split; [discriminate|]. split; discriminate.
    + destruct (fit_transform lib (t :: ts)) as [[fitted matrix]|];
        [|exact I].
      pose proof (category_vectors_loop_spec (mean lib) matrix
                    (List.map snd (labelled_texts texts)) (keys texts) [])
        as H.
      destruct (category_vectors_loop _ _ _ _ _) as [vectors|].
      * destruct H as (H1 & H2 & H3). split; [apply H2; constructor|].
        split; [|split; [|split]].
        -- intros c Hc. apply H1 in Hc. destruct Hc as [[]|[Hc _]].
           now apply Hk.
        -- intros name c Hin Hvis. apply H1. right.
           split; [|now apply (Hv name)].
           apply Hk. apply in_map_iff. now exists (name, c).
        -- intros c vector Hc. destruct (H3 c vector Hc) as [K|(rs & K)];
             [discriminate|].
           exists fitted, matrix, rs. split; [reflexivity | exact K].
        -- split; discriminate.
      * rewrite <- Et, length_map. now rewrite length_map in H.
Qed.

Lemma ultimate_original_variant (env : collaborators)
      (self : Ultimate.classifier) (name : pystr) :
  In name (UltimateBuild.variants_of env self name).
Proof.
  unfold UltimateBuild.variants_of. cbv zeta. right. left.
  apply ultimate_original.
Qed.

(** X16.  What the construction of the second classifier leaves in
    [category_vectors] and [vectorizer]: the same as for v3, except
    that the vectorizer is set only when some text of the data is not
    blank. *)
Theorem X16_ultimate_category_vectors
        (env : collaborators) (lib : fitting) (self : Ultimate.classifier) :
  let rows := Ultimate.data self in
  let labelled := labelled_texts (UltimateBuild.category_texts env self rows) in
  let all_texts := List.map fst labelled in
  let category_labels := List.map snd labelled in
  match UltimateBuild.build_features env lib self with
  | Returns (fitted, vectors) =>
      NoDup (keys vectors)
      /\ (forall c, In c (keys vectors) -> In c (List.map snd rows))
      /\ (forall name c, In (name, c) rows -> visible name = true ->
                         In c (keys vectors))
      /\ (forall c vector,
            dict_get vectors c = Some vector ->
            exists fitted' matrix category_rows,
              fit_transform lib all_texts = Some (fitted', matrix)
              /\ take_rows matrix (indices_from O c category_labels)
                 = Some category_rows
              /\ vector = mean lib category_rows)
      /\ (fitted = None <-> all_texts = [])
  | Raises =>
      match fit_transform lib all_texts with
      | Some (_, matrix) => length matrix < length all_texts
      | None => True
      end
  end.
Proof.
  cbv zeta. unfold UltimateBuild.build_features.
  destruct (Ultimate.data self) as [|row rows] eqn:D.
  - split; [constructor|]. split; [intros c []|].
    split; [intros name c []|]. split; [discriminate | tauto].
  - cbv zeta.
    set (texts := UltimateBuild.category_texts env self (row :: rows)).
    assert (Hn : NoDup (keys texts))
      by (apply (collect_NoDup (UltimateBuild.variants_of env self)); constructor).
    assert (Hk : forall c, In c (keys texts)
                           <-> In c (List.map snd (row :: rows))).
    { intros c. unfold texts, UltimateBuild.category_texts.
      rewrite (collect_keys (UltimateBuild.variants_of env self)). cbn [keys List.map In]. tauto. }
    assert (Hv : forall name c,
               In (name, c) (row :: rows) -> visible name = true ->
               In c (List.map snd (labelled_texts texts))).
    { intros name c Hin Hvis. apply labelled_texts_labels; [exact Hn|].
      exists name. split; [|now apply visible_strip].
      unfold texts, UltimateBuild.category_texts.
      apply (collect_texts (UltimateBuild.variants_of env self)). right. exists (name, c).
      split; [exact Hin|]. split; [reflexivity|].
      apply ultimate_original_variant. }
    destruct (List.map fst (labelled_texts texts)) as [|t ts] eqn:Et.
    + apply map_eq_nil in Et. split; [constructor|].
      split; [intros c []|]. split.
      * intros name c Hin Hvis. specialize (Hv name c Hin Hvis).
        rewrite Et in Hv. exact Hv.
      * split; [discriminate | tauto].
    + destruct (fit_transform lib (t :: ts)) as [[fitted matrix]|];
        [|exact I].
      pose proof (category_vectors_loop_spec (mean lib) matrix
                    (List.map snd (labelled_texts texts)) (keys texts) [])
        as H.
      destruct (category_vectors_loop _ _ _ _ _) as [vectors|].
      * destruct H as (H1 & H2 & H3). split; [apply H2; constructor|].
        split; [|split; [|split]].
        -- intros c Hc. apply H1 in Hc. destruct Hc as [[]|[Hc _]].
           now apply Hk.
        -- intros name c Hin Hvis. apply H1. right.
           split; [|now apply (Hv name)].
           apply Hk. apply in_map_iff. now exists (name, c).
        -- intros c vector Hc. destruct (H3 c vector Hc) as [K|(rs & K)];
             [discriminate|].
           exists fitted, matrix, rs. split; [reflexivity | exact K].
        -- split; discriminate.
      * rewrite <- Et, length_map. now rewrite length_map in H.
Qed.

(** ** The two segmenters side by side *)

(** X17.  The two segmenters replace what they find differently, but
    with the same lexicon they find the same reserved words in the
    same order; v3 looks for them in the cleaned text. *)
Theorem X17_both_segmenters_find_the_same_words
        (env : collaborators) (self : Ultimate.classifier) (text : pystr) :
  V3.found_reserved
    (V3.extract_reserved_words (Ultimate.reserved_words self) text)
  = Ultimate.found_reserved
      (Ultimate.process_text_with_reserved_words env self text)
  /\ V3.tv_reserved_words
       (V3.preprocess_text env (Ultimate.reserved_words self) text)
     = Ultimate.found_reserved
         (Ultimate.process_text_with_reserved_words env self
            (V3.tv_cleaned
               (V3.preprocess_text env (Ultimate.reserved_words self)
                  text))).
Proof.
  split.
  - now rewrite v3_found_reserved, ultimate_found_reserved.
  - rewrite ultimate_found_reserved. unfold V3.preprocess_text. cbv zeta.
    cbn [V3.tv_reserved_words V3.tv_cleaned].
    unfold V3.process_with_reserved_words. cbv zeta.
    cbn [V3.pr_reserved_words]. apply v3_found_reserved.
Qed.
